(** * CollabSpace server: room, presence and whiteboard synchronisation

    A shallow embedding of the real-time core of the server:
    - [utils/presence.util.ts]      the Redis-backed presence registry,
    - [utils/plan-limits.util.ts]   plan-derived participant limits,
    - [middleware/socketRateLimit.middleware.ts] the per-event limiter,
    - [models/Whiteboard.model.ts]  the whiteboard document and its
                                    pre-save hook,
    - [socket/handlers/whiteboard.handler.ts], [room.handler.ts],
      [connection.handler.ts] and [handlers/chat.handler.ts].

    Conventions.  Every listener is an [async] function; here its awaits
    run to completion, so a listener is a function from the world before
    the event to the world after it, and two listeners never interleave.
    The clock ([Date.now()], [new Date()]) is the argument [now], in
    milliseconds.  A listener that closes over its connection is a
    [Handler]; a listener that takes [socket] as a parameter is a
    [Wrapped] listener, defined for whatever that parameter is bound
    to, and [on] is what [socket.on] makes of it.  [data] is [None] when
    it is [undefined].  An event reaches the server as the client's
    [emit(event, payload)] sent it: with one argument, which has the
    properties that the listener declares for its [data] and no others,
    or with none.  Redis and MongoDB are part of the world;
    [redis_up] and [mongo_up] say whether a call to them answers or
    throws.  A string is the sequence of the bytes of its UTF-8 text.
    Rooms are addressed by strings that are taken to be well-formed ids
    in lower case; the identity of a connection is not: what a path of
    type [ObjectId] makes of it is part of the model.  Emitting appends
    to the world's [outbox]; who receives an emission is decided by the
    adapter ([SocketIO.recipients]). *)

From stdpp Require Import gmap strings list fin_maps sorting.
From Stdlib Require Import ZArith Ascii.

Local Open Scope Z_scope.

(** ** JavaScript helpers *)

Module JS.

(** [!s] is true of the empty string and of [undefined]. *)
Definition truthy (s : string) : bool := negb (String.eqb s "").

(** [a || b] on optional strings. *)
Definition or_else (a : option string) (b : option string) : option string :=
  match a with
  | Some s => if truthy s then Some s else b
  | None => b
  end.

(** [s.split(sep)] for a one-character separator. *)
Fixpoint split (sep : ascii) (s : string) : list string :=
  match s with
  | EmptyString => [EmptyString]
  | String c s' =>
      if Ascii.eqb c sep then EmptyString :: split sep s'
      else match split sep s' with
           | [] => [String c EmptyString]
           | w :: ws => String c w :: ws
           end
  end.

(** [s.endsWith(t)]. *)
Definition endsWith (s t : string) : bool :=
  String.prefix (String.rev t) (String.rev s).

(** [arr.slice(-n)]: the last [n] entries. *)
Definition slice_last {A} (n : nat) (l : list A) : list A :=
  drop (length l - n)%nat l.

(** The string of the given bytes. *)
Definition bytes (l : list nat) : string :=
  foldr (λ n s, String (ascii_of_nat n) s) EmptyString l.

(** The white space and line terminators of ECMAScript, each as the
    bytes of its UTF-8 encoding: U+0009 to U+000D, U+0020, U+00A0,
    U+1680, U+2000 to U+200A, U+2028, U+2029, U+202F, U+205F, U+3000
    and U+FEFF. *)
Definition whiteSpace : list string :=
  map bytes
    ([[9]; [10]; [11]; [12]; [13]; [32]; [194; 160]; [225; 154; 128]]
     ++ map (λ n, [226; 128; n]) (seq 128 11)
     ++ [[226; 128; 168]; [226; 128; 169]; [226; 128; 175]; [226; 129; 159];
         [227; 128; 128]; [239; 187; 191]])%nat.

(** [s] without the prefix [p], when it starts with it. *)
Fixpoint afterPrefix (p s : string) : option string :=
  match p, s with
  | EmptyString, _ => Some s
  | String a p', String b s' => if Ascii.eqb a b then afterPrefix p' s' else None
  | String _ _, EmptyString => None
  end.

(** [s] without the first of [tokens] that it starts with. *)
Fixpoint afterOneOf (tokens : list string) (s : string) : option string :=
  match tokens with
  | [] => None
  | t :: rest =>
      match afterPrefix t s with
      | Some s' => Some s'
      | None => afterOneOf rest s
      end
  end.

(** [s] without the [tokens] it starts with, one after the other. *)
Fixpoint dropLeading (tokens : list string) (fuel : nat) (s : string) : string :=
  match fuel with
  | O => s
  | S fuel' =>
      match afterOneOf tokens s with
      | Some s' => dropLeading tokens fuel' s'
      | None => s
      end
  end.

(** [s.trim()] *)
Definition trim (s : string) : string :=
  let s1 := dropLeading whiteSpace (String.length s) s in
  String.rev (dropLeading (map String.rev whiteSpace) (String.length s1) (String.rev s1)).

(** [[...new Set(l)]]: first occurrences, in order. *)
Fixpoint dedup_keep_first (seen : list string) (l : list string) : list string :=
  match l with
  | [] => []
  | x :: l' =>
      if bool_decide (x ∈ seen) then dedup_keep_first seen l'
      else x :: dedup_keep_first (x :: seen) l'
  end.

End JS.

(** ** Presence records and the Redis store *)

(** [UserPresenceData] of presence.util.ts; timestamps are kept as
    milliseconds instead of ISO strings. *)
Record UserPresenceData := {
  upd_id : string;
  upd_name : string;
  upd_avatar : option string;
  upd_socketId : string;
  upd_joinedAt : Z;
  upd_lastActivity : Z;
}.

#[global] Instance UserPresenceData_eq_dec : EqDecision UserPresenceData.
Proof. solve_decision. Defined.

Module Redis.

(** A hash key: its fields (the JSON text of a field is kept parsed)
    and the time at which the key expires, if a TTL was set. *)
Record HashEntry := {
  h_fields : gmap string UserPresenceData;
  h_expireAt : option Z;
}.

(** An integer key as used by INCR. *)
Record Counter := {
  c_value : Z;
  c_expireAt : option Z;
}.

Record t := {
  redis_up : bool;
  hashes : gmap string HashEntry;
  counters : gmap string Counter;
}.

Definition set_hashes (h : gmap string HashEntry) (r : t) : t :=
  {| redis_up := redis_up r; hashes := h; counters := counters r |}.

Definition set_counters (c : gmap string Counter) (r : t) : t :=
  {| redis_up := redis_up r; hashes := hashes r; counters := c |}.

(** A key with a TTL is gone once the clock has passed its expiry. *)
Definition alive (now : Z) (expireAt : option Z) : bool :=
  match expireAt with
  | Some e => bool_decide (now ≤ e)
  | None => true
  end.

Definition liveHash (now : Z) (key : string) (r : t) : option HashEntry :=
  match hashes r !! key with
  | Some e => if alive now (h_expireAt e) then Some e else None
  | None => None
  end.

Definition liveCounter (now : Z) (key : string) (r : t) : option Counter :=
  match counters r !! key with
  | Some c => if alive now (c_expireAt c) then Some c else None
  | None => None
  end.

(** The fields of a hash; a missing key reads as the empty hash. *)
Definition fieldsOf (now : Z) (key : string) (r : t) : gmap string UserPresenceData :=
  match liveHash now key r with
  | Some e => h_fields e
  | None => ∅
  end.

(** Commands.  [None] stands for a rejected promise. *)

Definition hSet (now : Z) (key field : string) (v : UserPresenceData) (r : t) : option t :=
  if redis_up r then
    let e := match liveHash now key r with
             | Some e => {| h_fields := <[field := v]> (h_fields e); h_expireAt := h_expireAt e |}
             | None => {| h_fields := {[ field := v ]}; h_expireAt := None |}
             end in
    Some (set_hashes (<[key := e]> (hashes r)) r)
  else None.

Definition expire (now : Z) (key : string) (seconds : Z) (r : t) : option t :=
  if redis_up r then
    match liveHash now key r with
    | Some e =>
        Some (set_hashes
                (<[key := {| h_fields := h_fields e;
                             h_expireAt := Some (now + seconds * 1000) |}]> (hashes r)) r)
    | None => Some r
    end
  else None.

(** HDEL removes the key itself when its last field goes. *)
Definition hDel (now : Z) (key field : string) (r : t) : option t :=
  if redis_up r then
    match liveHash now key r with
    | Some e =>
        let f := delete field (h_fields e) in
        if bool_decide (f = ∅) then Some (set_hashes (delete key (hashes r)) r)
        else Some (set_hashes
                     (<[key := {| h_fields := f; h_expireAt := h_expireAt e |}]> (hashes r)) r)
    | None => Some r
    end
  else None.

Definition hLen (now : Z) (key : string) (r : t) : option nat :=
  if redis_up r then Some (size (fieldsOf now key r)) else None.

Definition del (key : string) (r : t) : option t :=
  if redis_up r then Some (set_hashes (delete key (hashes r)) r) else None.

Definition hGetAll (now : Z) (key : string) (r : t) : option (list (string * UserPresenceData)) :=
  if redis_up r then Some (map_to_list (fieldsOf now key r)) else None.

Definition hGet (now : Z) (key field : string) (r : t) : option (option UserPresenceData) :=
  if redis_up r then Some (fieldsOf now key r !! field) else None.

Definition hExists (now : Z) (key field : string) (r : t) : option bool :=
  if redis_up r then Some (bool_decide (is_Some (fieldsOf now key r !! field))) else None.

(** KEYS with the one pattern the server uses, [room:*:users]. *)
Definition matchesRoomUsers (key : string) : bool :=
  String.prefix "room:" key
  && JS.endsWith (String.substring 5 (String.length key - 5) key) ":users".

Definition keys_room_users (now : Z) (r : t) : option (list string) :=
  if redis_up r then
    Some (filter (λ k, matchesRoomUsers k = true ∧ is_Some (liveHash now k r))
                 (map_to_list (hashes r)).*1)
  else None.

(** INCR: a missing (or expired) key counts from zero and has no TTL. *)
Definition incr (now : Z) (key : string) (r : t) : option (Z * t) :=
  if redis_up r then
    let c := match liveCounter now key r with
             | Some c => {| c_value := c_value c + 1; c_expireAt := c_expireAt c |}
             | None => {| c_value := 1; c_expireAt := None |}
             end in
    Some (c_value c, set_counters (<[key := c]> (counters r)) r)
  else None.

Definition pExpire (now : Z) (key : string) (ms : Z) (r : t) : option t :=
  if redis_up r then
    match liveCounter now key r with
    | Some c =>
        Some (set_counters
                (<[key := {| c_value := c_value c; c_expireAt := Some (now + ms) |}]>
                   (counters r)) r)
    | None => Some r
    end
  else None.

End Redis.

(** ** presence.util.ts *)

Module Presence.

Definition roomKey (roomId : string) : string := "room:" +:+ roomId +:+ ":users".

(** [addUserToRoom]: HSET, then a TTL of 24 hours on the room's hash;
    an error is logged and swallowed. *)
Definition addUserToRoom (now : Z) (userId roomId : string) (userData : UserPresenceData)
    (r : Redis.t) : Redis.t :=
  match Redis.hSet now (roomKey roomId) userId userData r with
  | Some r1 =>
      match Redis.expire now (roomKey roomId) (24 * 60 * 60) r1 with
      | Some r2 => r2
      | None => r1
      end
  | None => r
  end.

(** [removeUserFromRoom]: HDEL, then DEL of the hash when HLEN is 0. *)
Definition removeUserFromRoom (now : Z) (userId roomId : string) (r : Redis.t) : Redis.t :=
  match Redis.hDel now (roomKey roomId) userId r with
  | Some r1 =>
      match Redis.hLen now (roomKey roomId) r1 with
      | Some remainingUsers =>
          if bool_decide (remainingUsers = 0%nat) then
            match Redis.del (roomKey roomId) r1 with
            | Some r2 => r2
            | None => r1
            end
          else r1
      | None => r1
      end
  | None => r
  end.

(** [getUsersInRoom]: every field of the hash, its [id] overwritten by
    the field name; the empty list when Redis fails. *)
Definition getUsersInRoom (now : Z) (roomId : string) (r : Redis.t) : list UserPresenceData :=
  match Redis.hGetAll now (roomKey roomId) r with
  | Some usersData =>
      map (λ '(userId, d),
             {| upd_id := userId; upd_name := upd_name d; upd_avatar := upd_avatar d;
                upd_socketId := upd_socketId d; upd_joinedAt := upd_joinedAt d;
                upd_lastActivity := upd_lastActivity d |}) usersData
  | None => []
  end.

(** The loop of [getUserRooms]; [None] when a call throws. *)
Fixpoint getUserRooms_loop (now : Z) (userId : string) (keys : list string) (r : Redis.t)
    (userRooms : list string) : option (list string) :=
  match keys with
  | [] => Some userRooms
  | key :: keys' =>
      match Redis.hExists now key userId r with
      | Some true =>
          let roomId := nth 1 (JS.split ":"%char key) "" in
          getUserRooms_loop now userId keys' r (userRooms ++ [roomId])
      | Some false => getUserRooms_loop now userId keys' r userRooms
      | None => None
      end
  end.

Definition getUserRooms (now : Z) (userId : string) (r : Redis.t) : list string :=
  match Redis.keys_room_users now r with
  | Some keys => default [] (getUserRooms_loop now userId keys r [])
  | None => []
  end.

(** The loop of [cleanupUserPresence]; the state comes back in both
    cases, [false] says that a call threw. *)
Fixpoint cleanup_loop (now : Z) (userId : string) (socketId : option string)
    (rooms : list string) (r : Redis.t) : bool * Redis.t :=
  match rooms with
  | [] => (true, r)
  | roomId :: rooms' =>
      match socketId with
      | Some sid =>
          if JS.truthy sid then
            match Redis.hGet now (roomKey roomId) userId r with
            | Some (Some userData) =>
                if String.eqb (upd_socketId userData) sid
                then cleanup_loop now userId socketId rooms' (removeUserFromRoom now userId roomId r)
                else cleanup_loop now userId socketId rooms' r
            | Some None => cleanup_loop now userId socketId rooms' r
            | None => (false, r)
            end
          else cleanup_loop now userId socketId rooms' (removeUserFromRoom now userId roomId r)
      | None => cleanup_loop now userId socketId rooms' (removeUserFromRoom now userId roomId r)
      end
  end.

(** [cleanupUserPresence]: the rooms the user was found in, and the
    store after the removals. *)
Definition cleanupUserPresence (now : Z) (userId : string) (socketId : option string)
    (r : Redis.t) : list string * Redis.t :=
  let userRooms := getUserRooms now userId r in
  match cleanup_loop now userId socketId userRooms r with
  | (true, r') => (userRooms, r')
  | (false, r') => ([], r')
  end.

Definition isUserInRoom (now : Z) (userId roomId : string) (r : Redis.t) : bool :=
  default false (Redis.hExists now (roomKey roomId) userId r).

Definition updateUserActivity (now : Z) (userId roomId : string) (r : Redis.t) : Redis.t :=
  match Redis.hGet now (roomKey roomId) userId r with
  | Some (Some d) =>
      let d' := {| upd_id := upd_id d; upd_name := upd_name d; upd_avatar := upd_avatar d;
                   upd_socketId := upd_socketId d; upd_joinedAt := upd_joinedAt d;
                   upd_lastActivity := now |} in
      default r (Redis.hSet now (roomKey roomId) userId d' r)
  | _ => r
  end.

End Presence.

(** ** plan-limits.util.ts *)

Inductive SubscriptionPlan := FREE | PRO | TEAMS.

#[global] Instance SubscriptionPlan_eq_dec : EqDecision SubscriptionPlan.
Proof. solve_decision. Defined.

Module PlanLimits.

(** [PlanLimits]: the one column the listeners read; -1 is unlimited. *)
Record PlanLimits := {
  maxParticipants : Z;
}.

(** [PLAN_LIMITS], which is filled from the environment when the
    server starts. *)
Record t := {
  ofFREE : PlanLimits;
  ofPRO : PlanLimits;
  ofTEAMS : PlanLimits;
}.

(** The values used when the environment sets none. *)
Definition defaults : t :=
  {| ofFREE := {| maxParticipants := 2 |};
     ofPRO := {| maxParticipants := 10 |};
     ofTEAMS := {| maxParticipants := 50 |} |}.

Definition getPlanLimits (table : t) (plan : SubscriptionPlan) : PlanLimits :=
  match plan with
  | FREE => ofFREE table
  | PRO => ofPRO table
  | TEAMS => ofTEAMS table
  end.

Record Verdict := { allowed : bool; reason : option SubscriptionPlan }.

(** [canAddParticipant]; the reason text names the plan. *)
Definition canAddParticipant (table : t) (currentCount : nat) (plan : SubscriptionPlan)
    : Verdict :=
  let limits := getPlanLimits table plan in
  if bool_decide (maxParticipants limits = -1) then {| allowed := true; reason := None |}
  else if bool_decide (maxParticipants limits ≤ Z.of_nat currentCount)
       then {| allowed := false; reason := Some plan |}
       else {| allowed := true; reason := None |}.

End PlanLimits.

(** ** Mongoose: paths of type [ObjectId] *)

Module ObjectId.

Definition isHexDigit (c : ascii) : bool :=
  let n := nat_of_ascii c in
  ((48 <=? n) && (n <=? 57) || (65 <=? n) && (n <=? 70) || (97 <=? n) && (n <=? 102))%nat.

Fixpoint allHex (s : string) : bool :=
  match s with
  | EmptyString => true
  | String c s' => isHexDigit c && allHex s'
  end.

(** A string casts to an [ObjectId] when it is 24 hexadecimal digits.
    The ids of stored users are of this form; the id the server gives
    an anonymous connection is a UUID, 36 characters with hyphens,
    which does not cast.  (Drivers before [bson] 5 also take any
    string of 12 characters; no identity of this server is one.) *)
Definition isValid (s : string) : bool :=
  (String.length s =? 24)%nat && allHex s.

(** [toString()] of the [ObjectId] that [s] casts to: the digits in
    lower case. *)
Fixpoint toString (s : string) : string :=
  match s with
  | EmptyString => EmptyString
  | String c s' =>
      let n := nat_of_ascii c in
      String (if (65 <=? n) && (n <=? 70) then ascii_of_nat (n + 32) else c)%nat (toString s')
  end.

End ObjectId.

(** ** models/Whiteboard.model.ts *)

(** A drawable element.  The engine reads its [id] only; the rest of the
    client's object is the opaque [el_body].  The handlers stamp
    [userId] and [timestamp] onto the element they store. *)
Record Element := {
  el_id : string;
  el_body : string;
  el_userId : option string;
  el_timestamp : option Z;
}.

#[global] Instance Element_eq_dec : EqDecision Element.
Proof. solve_decision. Defined.

(** [{...element, userId, timestamp: Date.now()}] *)
Definition stamp (element : Element) (userId : string) (now : Z) : Element :=
  {| el_id := el_id element; el_body := el_body element;
     el_userId := Some userId; el_timestamp := Some now |}.

(** A value of schema type [Mixed] ([appState], [files]), as JSON text. *)
Definition emptyObject : string := "{}".

Module WhiteboardModel.

Record Snapshot := {
  snap_elements : list Element;
  snap_appState : string;
  snap_files : string;
  snap_timestamp : Z;
  snap_userId : option string;
  snap_version : Z;
}.

Record t := {
  roomId : string;
  elements : list Element;
  appState : string;
  files : string;
  version : Z;
  lastModifiedBy : option string;
  lastModifiedAt : Z;
  snapshots : list Snapshot;
}.

(** A document in the hands of a handler: its fields, and for the three
    paths the pre-save hook asks about, whether Mongoose has them as
    modified.  An assignment marks its path when the new value differs
    from the old one; [push] and an assignment to an index always mark
    the array. *)
Record Doc := {
  doc : t;
  modElements : bool;
  modAppState : bool;
  modFiles : bool;
}.

(** What [findOne] hands out. *)
Definition loaded (w : t) : Doc :=
  {| doc := w; modElements := false; modAppState := false; modFiles := false |}.

(** [new Whiteboard({...})]: every path given to the constructor of a
    new document counts as modified. *)
Definition fresh (w : t) : Doc :=
  {| doc := w; modElements := true; modAppState := true; modFiles := true |}.

Definition map_doc (f : t → t) (d : Doc) : Doc :=
  {| doc := f (doc d); modElements := modElements d;
     modAppState := modAppState d; modFiles := modFiles d |}.

Definition with_elements (els : list Element) (w : t) : t :=
  {| roomId := roomId w; elements := els; appState := appState w; files := files w;
     version := version w; lastModifiedBy := lastModifiedBy w;
     lastModifiedAt := lastModifiedAt w; snapshots := snapshots w |}.

Definition with_appState (a : string) (w : t) : t :=
  {| roomId := roomId w; elements := elements w; appState := a; files := files w;
     version := version w; lastModifiedBy := lastModifiedBy w;
     lastModifiedAt := lastModifiedAt w; snapshots := snapshots w |}.

Definition with_files (f : string) (w : t) : t :=
  {| roomId := roomId w; elements := elements w; appState := appState w; files := f;
     version := version w; lastModifiedBy := lastModifiedBy w;
     lastModifiedAt := lastModifiedAt w; snapshots := snapshots w |}.

Definition with_version (v : Z) (w : t) : t :=
  {| roomId := roomId w; elements := elements w; appState := appState w; files := files w;
     version := v; lastModifiedBy := lastModifiedBy w;
     lastModifiedAt := lastModifiedAt w; snapshots := snapshots w |}.

Definition with_lastModifiedBy (u : option string) (w : t) : t :=
  {| roomId := roomId w; elements := elements w; appState := appState w; files := files w;
     version := version w; lastModifiedBy := u;
     lastModifiedAt := lastModifiedAt w; snapshots := snapshots w |}.

Definition with_lastModifiedAt (at_ : Z) (w : t) : t :=
  {| roomId := roomId w; elements := elements w; appState := appState w; files := files w;
     version := version w; lastModifiedBy := lastModifiedBy w;
     lastModifiedAt := at_; snapshots := snapshots w |}.

Definition with_snapshots (s : list Snapshot) (w : t) : t :=
  {| roomId := roomId w; elements := elements w; appState := appState w; files := files w;
     version := version w; lastModifiedBy := lastModifiedBy w;
     lastModifiedAt := lastModifiedAt w; snapshots := s |}.

(** [whiteboard.elements = els] *)
Definition assign_elements (els : list Element) (d : Doc) : Doc :=
  {| doc := with_elements els (doc d);
     modElements := modElements d || negb (bool_decide (els = elements (doc d)));
     modAppState := modAppState d; modFiles := modFiles d |}.

(** [whiteboard.elements.push(el)] *)
Definition push_element (el : Element) (d : Doc) : Doc :=
  {| doc := with_elements (elements (doc d) ++ [el]) (doc d);
     modElements := true; modAppState := modAppState d; modFiles := modFiles d |}.

(** [whiteboard.elements[i] = el] *)
Definition assign_element_at (i : nat) (el : Element) (d : Doc) : Doc :=
  {| doc := with_elements (<[i := el]> (elements (doc d))) (doc d);
     modElements := true; modAppState := modAppState d; modFiles := modFiles d |}.

(** [whiteboard.appState = a] *)
Definition assign_appState (a : string) (d : Doc) : Doc :=
  {| doc := with_appState a (doc d);
     modElements := modElements d;
     modAppState := modAppState d || negb (bool_decide (a = appState (doc d)));
     modFiles := modFiles d |}.

(** [whiteboard.files = f] *)
Definition assign_files (f : string) (d : Doc) : Doc :=
  {| doc := with_files f (doc d);
     modElements := modElements d; modAppState := modAppState d;
     modFiles := modFiles d || negb (bool_decide (f = files (doc d))) |}.

(** [whiteboard.version += 1] *)
Definition bump_version (d : Doc) : Doc :=
  map_doc (λ w, with_version (version w + 1) w) d.

(** [WhiteboardSchema.pre('save')] *)
Definition preSave (now : Z) (d : Doc) : t :=
  if modElements d || modAppState d || modFiles d then
    let w1 := with_lastModifiedAt now (with_version (version (doc d) + 1) (doc d)) in
    if modElements d && bool_decide (10 < length (elements w1))%nat then
      let snapshot :=
        {| snap_elements := elements w1; snap_appState := appState w1;
           snap_files := files w1; snap_timestamp := now;
           snap_userId := lastModifiedBy w1; snap_version := version w1 |} in
      let pushed := snapshots w1 ++ [snapshot] in
      if bool_decide (50 < length pushed)%nat
      then with_snapshots (JS.slice_last 50 pushed) w1
      else with_snapshots pushed w1
    else w1
  else doc d.

(** The validation that [save] and [create] run before the hooks.  Of
    the paths the listeners set from what a connection brings along,
    [lastModifiedBy] alone has a type that can refuse a value: it is
    an [ObjectId]; [elements], [appState] and [files] are [Mixed]. *)
Definition validate (w : t) : bool :=
  match lastModifiedBy w with
  | Some u => ObjectId.isValid u
  | None => true
  end.

(** [$push] with [$each] and [$slice: -50]. *)
Definition push_slice (s : Snapshot) (l : list Snapshot) : list Snapshot :=
  JS.slice_last 50 (l ++ [s]).

(** [WhiteboardSchema.statics.createSnapshot], on the collection keyed
    by room.  The update is an upsert: a room without a document gets
    one made of the schema defaults.  [findOneAndUpdate] does not run
    the save hook.  The path [snapshots.userId] is an [ObjectId]: this
    is the update for a [userId] that casts ([ObjectId.isValid]). *)
Definition createSnapshot (now : Z) (room : string) (els : list Element) (a f : string)
    (userId : string) (coll : gmap string t) : t * gmap string t :=
  let currentVersion := match coll !! room with Some w => version w | None => 0 end in
  let s := {| snap_elements := els; snap_appState := a; snap_files := f;
              snap_timestamp := now; snap_userId := Some userId;
              snap_version := currentVersion + 1 |} in
  let w' := match coll !! room with
            | Some w => with_snapshots (push_slice s (snapshots w)) w
            | None =>
                {| roomId := room; elements := []; appState := emptyObject;
                   files := emptyObject; version := 0; lastModifiedBy := None;
                   lastModifiedAt := now; snapshots := push_slice s [] |}
            end in
  (w', <[room := w']> coll).

End WhiteboardModel.

(** ** Socket.IO: sockets, rooms and emissions *)

Module SocketIO.

(** [socket.data.user], as the authentication middleware attaches it. *)
Record User := {
  id : string;
  name : string;
  email : option string;
  avatar : option string;
  subscriptionPlan : option SubscriptionPlan;
  isAnonymous : bool;
}.

(** A connection: its id and its [socket.data]. *)
Record Socket := {
  sid : string;
  user : option User;
  currentRoom : option string;
  disconnectingRooms : option (list string);
}.

(** [socket.data.user?.id], when it is truthy. *)
Definition userId (s : Socket) : option string :=
  match user s with
  | Some u => if JS.truthy (id u) then Some (id u) else None
  | None => None
  end.

Definition with_currentRoom (c : option string) (s : Socket) : Socket :=
  {| sid := sid s; user := user s; currentRoom := c;
     disconnectingRooms := disconnectingRooms s |}.

Definition with_disconnectingRooms (d : option (list string)) (s : Socket) : Socket :=
  {| sid := sid s; user := user s; currentRoom := currentRoom s;
     disconnectingRooms := d |}.

(** The text of a message that is built from a template. *)
Inductive MessageText :=
| Text (s : string)
| RateLimitExceededFor (eventName : string) (maxRequests windowMs : Z)
| ParticipantLimitReachedFor (plan : SubscriptionPlan).

Record WhiteboardState := {
  ws_elements : list Element;
  ws_appState : string;
  ws_files : string;
  ws_version : Z;
}.

Record ChatMessage := {
  msg_roomId : string;
  msg_userId : string;
  msg_userName : string;
  msg_userAvatar : option string;
  msg_content : string;
  msg_createdAt : Z;
}.

(** The payload of an emitted event, one constructor per shape. *)
Inductive Payload :=
| PError (code : string) (message : MessageText) (timestamp : option Z)
| PJoinError (code : string) (message : MessageText)
    (details : option (nat * Z * SubscriptionPlan))
| PRoomJoined (roomId : string) (users : list UserPresenceData) (state : WhiteboardState)
| PUserRestored (roomId userId username : string) (timestamp : Z)
| PUserJoined (roomId : string) (user : UserPresenceData)
    (plan : option SubscriptionPlan) (socketId : string) (joinedAt : Z)
| PUserOnline (userId : string) (timestamp : Z)
| PUserOffline (userId : string) (timestamp : Z) (reason : string)
| PUserLeft (roomId userId : string) (updatedUserList : list UserPresenceData)
| PRoomLeft (roomId : string)
| PRoomUsers (roomId : string) (users : list UserPresenceData)
| PWhiteboardUpdated (roomId : string) (elements : list Element) (appState files : string)
    (version : Z) (userId socketId : string) (elementCount : nat)
| PElementCreated (roomId : string) (element : Element) (userId : string) (version : Z)
| PElementUpdated (roomId : string) (element : option Element) (userId : string) (version : Z)
| PElementDeleted (roomId elementId userId : string) (version : Z)
| PChatMessage (message : ChatMessage) (tempId : string)
| PChatError (text : string)
| PUserPresence (roomId userId presence : string) (timestamp : Z).

(** Whom an emission is addressed to: [socket.emit], [socket.to(room)]
    and [io.to(room)]. *)
Inductive Target :=
| ToSocket (socketId : string)
| ToRoomExcept (room : string) (sender : string)
| ToRoom (room : string).

Record Emission := {
  target : Target;
  event : string;
  payload : Payload;
}.

(** The adapter: which sockets sit in which room. *)
Definition members (adapter : gmap string (gset string)) (room : string) : gset string :=
  default ∅ (adapter !! room).

Definition join (room socketId : string) (adapter : gmap string (gset string))
    : gmap string (gset string) :=
  <[room := {[socketId]} ∪ members adapter room]> adapter.

Definition leave (room socketId : string) (adapter : gmap string (gset string))
    : gmap string (gset string) :=
  let rest := members adapter room ∖ {[socketId]} in
  if bool_decide (rest = ∅) then delete room adapter else <[room := rest]> adapter.

(** [socket.rooms] *)
Definition roomsOf (socketId : string) (adapter : gmap string (gset string)) : list string :=
  filter (λ room, socketId ∈ members adapter room) (map_to_list adapter).*1.

(** The connections an emission is delivered to. *)
Definition recipients (adapter : gmap string (gset string)) (t : Target) : gset string :=
  match t with
  | ToSocket s => {[s]}
  | ToRoomExcept room sender => members adapter room ∖ {[sender]}
  | ToRoom room => members adapter room
  end.

End SocketIO.

(** ** The world the handlers run in *)

(** A room document: the fields the listeners read. *)
Record Room := {
  room_ownerId : string;
  room_participants : list string;
}.

(** - [redis]: the presence hashes and the limiter's counters;
    - [planLimits]: [PLAN_LIMITS], as read from the environment;
    - [whiteboards]: the Whiteboard collection, by [roomId];
    - [rooms]: the Room collection, by id;
    - [users]: the User collection, by id; the listeners read the
      [subscriptionPlan] only;
    - [messages]: the Message collection, oldest first;
    - [updateRateLimit]: the module-level [Map] of whiteboard.handler.ts;
    - [adapter]: the sockets of every Socket.IO room;
    - [outbox]: everything emitted so far, oldest first. *)
Record World := {
  redis : Redis.t;
  planLimits : PlanLimits.t;
  mongo_up : bool;
  whiteboards : gmap string WhiteboardModel.t;
  rooms : gmap string Room;
  users : gmap string SubscriptionPlan;
  messages : list SocketIO.ChatMessage;
  updateRateLimit : gmap string Z;
  adapter : gmap string (gset string);
  outbox : list SocketIO.Emission;
}.

Definition with_redis (r : Redis.t) (w : World) : World :=
  {| redis := r; planLimits := planLimits w; mongo_up := mongo_up w;
     whiteboards := whiteboards w; rooms := rooms w; users := users w;
     messages := messages w; updateRateLimit := updateRateLimit w;
     adapter := adapter w; outbox := outbox w |}.

Definition with_whiteboards (b : gmap string WhiteboardModel.t) (w : World) : World :=
  {| redis := redis w; planLimits := planLimits w; mongo_up := mongo_up w;
     whiteboards := b; rooms := rooms w; users := users w;
     messages := messages w; updateRateLimit := updateRateLimit w;
     adapter := adapter w; outbox := outbox w |}.

Definition with_messages (m : list SocketIO.ChatMessage) (w : World) : World :=
  {| redis := redis w; planLimits := planLimits w; mongo_up := mongo_up w;
     whiteboards := whiteboards w; rooms := rooms w; users := users w;
     messages := m; updateRateLimit := updateRateLimit w;
     adapter := adapter w; outbox := outbox w |}.

Definition with_updateRateLimit (m : gmap string Z) (w : World) : World :=
  {| redis := redis w; planLimits := planLimits w; mongo_up := mongo_up w;
     whiteboards := whiteboards w; rooms := rooms w; users := users w;
     messages := messages w; updateRateLimit := m;
     adapter := adapter w; outbox := outbox w |}.

Definition with_adapter (a : gmap string (gset string)) (w : World) : World :=
  {| redis := redis w; planLimits := planLimits w; mongo_up := mongo_up w;
     whiteboards := whiteboards w; rooms := rooms w; users := users w;
     messages := messages w; updateRateLimit := updateRateLimit w;
     adapter := a; outbox := outbox w |}.

Definition with_outbox (o : list SocketIO.Emission) (w : World) : World :=
  {| redis := redis w; planLimits := planLimits w; mongo_up := mongo_up w;
     whiteboards := whiteboards w; rooms := rooms w; users := users w;
     messages := messages w; updateRateLimit := updateRateLimit w;
     adapter := adapter w; outbox := o |}.

(** [socket.emit(event, payload)] *)
Definition emit (s : SocketIO.Socket) (ev : string) (p : SocketIO.Payload) (w : World) : World :=
  with_outbox
    (outbox w ++ [{| SocketIO.target := SocketIO.ToSocket (SocketIO.sid s);
                     SocketIO.event := ev; SocketIO.payload := p |}]) w.

(** [socket.to(room).emit(event, payload)] *)
Definition broadcast (s : SocketIO.Socket) (room ev : string) (p : SocketIO.Payload)
    (w : World) : World :=
  with_outbox
    (outbox w ++ [{| SocketIO.target := SocketIO.ToRoomExcept room (SocketIO.sid s);
                     SocketIO.event := ev; SocketIO.payload := p |}]) w.

(** [io.to(room).emit(event, payload)] *)
Definition emit_room (room ev : string) (p : SocketIO.Payload) (w : World) : World :=
  with_outbox
    (outbox w ++ [{| SocketIO.target := SocketIO.ToRoom room;
                     SocketIO.event := ev; SocketIO.payload := p |}]) w.

(** A listener that closes over its connection: the socket's data and
    the world, before and after. *)
Definition Handler (D : Type) : Type :=
  SocketIO.Socket → D → Z → World → SocketIO.Socket * World.

(** ** What a listener's [socket] is when it runs *)

(** [socket.on(event, listener)] calls [listener] with the arguments of
    the client's [emit] and with nothing else.  A listener that closes
    over the connection (the whiteboard, chat and connection listeners)
    works on the connection.  A listener that takes [socket] as its
    first parameter (the listeners inside the rate limiter) works on
    what the client sent first: the payload of the event, a plain
    object with a [roomId] and the like and without [data], [id],
    [emit], [to], [join] or [leave]; or [undefined] when the client sent
    nothing.  Its second parameter, [data], is then [undefined]. *)
Inductive Receiver :=
| Connection (socket : SocketIO.Socket)
| PlainObject
| Undefined.

Module Async.

(** How the body of an [async] function ends: it returns, or it
    throws, and then its promise is rejected unless a [catch] takes
    over.  Nobody awaits the promise of a listener: its rejection is
    reported to the process, which logs it and, unless [NODE_ENV] is
    [development], shuts the server down (index.ts).  The model ends
    where the listener ends. *)
Inductive Completion (A : Type) : Type :=
| Returns (a : A)
| Throws.

Arguments Returns {A} a.
Arguments Throws {A}.

(** A body runs on what [socket] is bound to (for a connection, with
    its [socket.data] as it stands) and on the world.  What it did
    before it threw stays done. *)
Definition t (A : Type) : Type := Receiver * World → Completion A * (Receiver * World).

Definition ret {A} (a : A) : t A := λ s, (Returns a, s).

Definition bind {A B} (m : t A) (k : A → t B) : t B :=
  λ s, match m s with
       | (Returns a, s') => k a s'
       | (Throws, s') => (Throws, s')
       end.

Definition throw {A} : t A := λ s, (Throws, s).

(** [try { body } catch { handler }] *)
Definition tryCatch {A} (body handler : t A) : t A :=
  λ s, match body s with
       | (Returns a, s') => (Returns a, s')
       | (Throws, s') => handler s'
       end.

(** A call that reads the world. *)
Definition read {A} (f : World → A) : t A := λ s, (Returns (f s.2), s).

(** A call that changes the world and cannot fail. *)
Definition write (f : World → World) : t unit := λ s, (Returns tt, (s.1, f s.2)).

(** A query whose promise is rejected when [f] has no answer. *)
Definition query {A} (f : World → option A) : t A :=
  λ s, match f s.2 with
       | Some a => (Returns a, s)
       | None => (Throws, s)
       end.

(** A command whose promise is rejected when [f] has no answer. *)
Definition command {A} (f : World → option (A * World)) : t A :=
  λ s, match f s.2 with
       | Some (a, w') => (Returns a, (s.1, w'))
       | None => (Throws, s)
       end.

(** [socket.data], as far as a property of it is read next: of a
    connection, its data; a plain object has no [data], and reading a
    property of [undefined] throws a [TypeError]. *)
Definition socketData : t SocketIO.Socket :=
  λ s, match s.1 with
       | Connection socket => (Returns socket, s)
       | PlainObject | Undefined => (Throws, s)
       end.

(** [socket.data?.user?.id], when it is truthy: optional chaining lets
    a plain object answer [undefined]; [undefined.data] throws. *)
Definition identity : t (option string) :=
  λ s, match s.1 with
       | Connection socket => (Returns (SocketIO.userId socket), s)
       | PlainObject => (Returns None, s)
       | Undefined => (Throws, s)
       end.

(** [socket.data?.user?.isAnonymous], when it is truthy. *)
Definition isAnonymous : t bool :=
  λ s, match s.1 with
       | Connection socket =>
           (Returns match SocketIO.user socket with
                    | Some u => SocketIO.isAnonymous u
                    | None => false
                    end, s)
       | PlainObject => (Returns false, s)
       | Undefined => (Throws, s)
       end.

(** A method of the connection.  What is not a connection has no such
    method, and the call throws a [TypeError]. *)
Definition method (f : SocketIO.Socket → Receiver * World → Receiver * World) : t unit :=
  λ s, match s.1 with
       | Connection socket => (Returns tt, f socket s)
       | PlainObject | Undefined => (Throws, s)
       end.

(** [socket.emit(event, payload)] *)
Definition emit (ev : string) (p : SocketIO.Payload) : t unit :=
  method (λ socket s, (s.1, emit socket ev p s.2)).

(** [socket.to(room).emit(event, payload)] *)
Definition to_emit (room ev : string) (p : SocketIO.Payload) : t unit :=
  method (λ socket s, (s.1, broadcast socket room ev p s.2)).

(** [socket.join(room)] *)
Definition join (room : string) : t unit :=
  method (λ socket s,
            (s.1, with_adapter (SocketIO.join room (SocketIO.sid socket) (adapter s.2)) s.2)).

(** [socket.leave(room)] *)
Definition leave (room : string) : t unit :=
  method (λ socket s,
            (s.1, with_adapter (SocketIO.leave room (SocketIO.sid socket) (adapter s.2)) s.2)).

(** [socketData.currentRoom = room], on the data of a connection. *)
Definition setCurrentRoom (room : option string) : t unit :=
  method (λ socket s, (Connection (SocketIO.with_currentRoom room socket), s.2)).

End Async.

Notation "'do' x ← m ; k" := (Async.bind m (λ x, k))
  (at level 10, x name, m at level 100, k at level 200, only parsing).

(** A listener that takes [socket] as its first parameter: what it does
    with [data] at time [now], on whatever [socket] is bound to. *)
Definition Wrapped (D : Type) : Type := option D → Z → Async.t unit.

(** [listener(socket, data)]: the listener called with a connection. *)
Definition called {D} (listener : Wrapped D) (socket : SocketIO.Socket) (data : option D)
    (now : Z) (w : World) : SocketIO.Socket * World * Async.Completion unit :=
  match listener data now (Connection socket, w) with
  | (c, (Connection socket', w')) => (socket', w', c)
  | (c, (_, w')) => (socket, w', c)
  end.

(** [socket.on(event, listener)], when the connection receives the
    event with [payload]: Socket.IO calls [listener(payload)].  The
    payload is the listener's first parameter, its second parameter is
    [undefined], and the connection is not among the arguments. *)
Definition on {D} (listener : Wrapped D) (socket : SocketIO.Socket) (payload : option D)
    (now : Z) (w : World) : SocketIO.Socket * World * Async.Completion unit :=
  let first := match payload with Some _ => PlainObject | None => Undefined end in
  let '(c, (_, w')) := listener None now (first, w) in
  (socket, w', c).

(** ** middleware/socketRateLimit.middleware.ts *)

Module SocketRateLimit.

Record RateLimitOptions := {
  maxRequests : Z;
  windowMs : Z;
  skipAnonymous : bool;
  keyGenerator : string → Async.t string;
}.

(** The default [keyGenerator], on the [socket] it is handed. *)
Definition defaultKey (eventName : string) : Async.t string :=
  do userId ← Async.identity;
  Async.ret ("ratelimit:socket:" +:+ default "anonymous" userId +:+ ":" +:+ eventName).

Definition defaultOptions : RateLimitOptions :=
  {| maxRequests := 100; windowMs := 60000; skipAnonymous := false;
     keyGenerator := defaultKey |}.

(** [{ ...defaultOptions, maxRequests, windowMs }] *)
Definition options (maxRequests windowMs : Z) : RateLimitOptions :=
  {| maxRequests := maxRequests; windowMs := windowMs; skipAnonymous := false;
     keyGenerator := defaultKey |}.

Definition rateLimitError (config : RateLimitOptions) (eventName : string) (now : Z)
    : SocketIO.Payload :=
  SocketIO.PError "RATE_LIMIT_EXCEEDED"
    (SocketIO.RateLimitExceededFor eventName (maxRequests config) (windowMs config))
    (Some now).

(** [redisClient.incr(key)] *)
Definition incr (now : Z) (key : string) : Async.t Z :=
  Async.command (λ w, match Redis.incr now key (redis w) with
                      | Some (current, r) => Some (current, with_redis r w)
                      | None => None
                      end).

(** [redisClient.pExpire(key, ms)] *)
Definition pExpire (now : Z) (key : string) (ms : Z) : Async.t unit :=
  Async.command (λ w, match Redis.pExpire now key ms (redis w) with
                      | Some r => Some (tt, with_redis r w)
                      | None => None
                      end).

(** What the [try] block comes to: the event goes on to the handler,
    or the limiter has answered it. *)
Inductive Verdict := Proceed | Answered.

(** [createSocketRateLimiter(options)(eventName, handler)].  The
    handler is an [async] function and [return handler(socket, data)]
    does not await it: the call itself cannot throw, and a rejection
    of the handler is not caught by the limiter's [catch].  So the
    [try] block is modelled up to the call, and the call after it. *)
Definition createSocketRateLimiter {D} (config : RateLimitOptions) (eventName : string)
    (handler : Wrapped D) : Wrapped D :=
  λ data now,
    do verdict ←
      Async.tryCatch
        (do skip ← (if skipAnonymous config then Async.isAnonymous else Async.ret false);
         if (skip : bool) then Async.ret Proceed
         else
           do key ← keyGenerator config eventName;
           do current ← incr now key;
           do _ ← (if bool_decide (current = 1) then pExpire now key (windowMs config)
                   else Async.ret tt);
           if bool_decide (maxRequests config < current) then
             do _ ← Async.emit "error" (rateLimitError config eventName now);
             Async.ret Answered
           else Async.ret Proceed)
        (Async.ret Proceed);
    match verdict with
    | Proceed => handler data now
    | Answered => Async.ret tt
    end.

End SocketRateLimit.

(** ** socket/handlers/whiteboard.handler.ts *)

Module WhiteboardHandlers.
Import SocketIO.

Definition err (code text : string) : Payload := PError code (Text text) None.

(** [Whiteboard.findOne({ roomId })]; [None] when the query throws. *)
Definition findOne (roomId : string) (w : World) : option (option WhiteboardModel.t) :=
  if mongo_up w then Some (whiteboards w !! roomId) else None.

(** [whiteboard.save()] for the document of room [roomId]: the
    document is validated, the hook runs, the result is stored, and
    the handler goes on with the saved document.  [None] when the
    promise is rejected: the database does not answer, or the document
    does not validate; nothing is stored then. *)
Definition save (now : Z) (roomId : string) (d : WhiteboardModel.Doc) (w : World)
    : option (WhiteboardModel.t * World) :=
  if mongo_up w && WhiteboardModel.validate (WhiteboardModel.doc d) then
    let saved := WhiteboardModel.preSave now d in
    Some (saved, with_whiteboards (<[roomId := saved]> (whiteboards w)) w)
  else None.

(** [checkWhiteboardAccess]; the operation does not change the answer. *)
Definition checkWhiteboardAccess (socket : Socket) (roomId : string) (w : World)
    : bool * World :=
  if bool_decide (roomId ∈ roomsOf (sid socket) (adapter w)) then
    match findOne roomId w with
    | Some _ => (true, w)
    | None => (false, emit socket "error" (err "ACCESS_CHECK_ERROR" "Access validation failed") w)
    end
  else (false, emit socket "error"
                 (err "ACCESS_DENIED" "Access denied: Not a member of this room") w).

Record UpdateData := {
  ud_roomId : string;
  ud_elements : list Element;
  ud_appState : string;
  ud_files : option string;
}.

Definition updateKey (userId roomId : string) : string := userId +:+ "-" +:+ roomId.

(** The listener of [whiteboard-update]. *)
Definition whiteboardUpdate : Handler (option UpdateData) :=
  λ socket data now w,
    let failed w := (socket, emit socket "error"
                               (err "WHITEBOARD_UPDATE_ERROR" "Failed to update whiteboard") w) in
    match data with
    | None => failed w
    | Some data =>
        let roomId := ud_roomId data in
        match userId socket with
        | None => (socket, emit socket "error" (err "AUTH_ERROR" "User not authenticated") w)
        | Some userId =>
            match checkWhiteboardAccess socket roomId w with
            | (false, w1) => (socket, w1)
            | (true, w1) =>
                let userRateKey := updateKey userId roomId in
                let lastUpdate := default 0 (updateRateLimit w1 !! userRateKey) in
                if bool_decide (now - lastUpdate < 100) then
                  (socket, emit socket "error"
                             (err "RATE_LIMIT_ERROR" "Update rate limit exceeded") w1)
                else
                  let w2 := with_updateRateLimit (<[userRateKey := now]> (updateRateLimit w1)) w1 in
                  match findOne roomId w2 with
                  | None => failed w2
                  | Some found =>
                      let created :=
                        match found with
                        | Some wb => Some (wb, w2)
                        | None =>
                            save now roomId
                              (WhiteboardModel.fresh
                                 {| WhiteboardModel.roomId := roomId;
                                    WhiteboardModel.elements := [];
                                    WhiteboardModel.appState := emptyObject;
                                    WhiteboardModel.files := emptyObject;
                                    WhiteboardModel.version := 1;
                                    WhiteboardModel.lastModifiedBy := Some userId;
                                    WhiteboardModel.lastModifiedAt := now;
                                    WhiteboardModel.snapshots := [] |}) w2
                        end in
                      match created with
                      | None => failed w2
                      | Some (wb, w3) =>
                          let files := default emptyObject (ud_files data) in
                          let d :=
                            WhiteboardModel.map_doc (WhiteboardModel.with_lastModifiedAt now)
                              (WhiteboardModel.map_doc
                                 (WhiteboardModel.with_lastModifiedBy (Some userId))
                                 (WhiteboardModel.bump_version
                                    (WhiteboardModel.assign_files files
                                       (WhiteboardModel.assign_appState (ud_appState data)
                                          (WhiteboardModel.assign_elements (ud_elements data)
                                             (WhiteboardModel.loaded wb)))))) in
                          match save now roomId d w3 with
                          | None => failed w3
                          | Some (saved, w4) =>
                              (socket,
                               broadcast socket roomId "whiteboard-updated"
                                 (PWhiteboardUpdated roomId (ud_elements data) (ud_appState data)
                                    files (WhiteboardModel.version saved) userId (sid socket)
                                    (length (ud_elements data))) w4)
                          end
                      end
                  end
            end
        end
    end.

Record ElementData := {
  ed_roomId : string;
  ed_element : Element;
}.

Record DeleteData := {
  dd_roomId : string;
  dd_elementId : string;
}.

(** The listener of [element-create]. *)
Definition elementCreate : Handler (option ElementData) :=
  λ socket data now w,
    let failed w := (socket, emit socket "error"
                               (err "ELEMENT_CREATE_ERROR" "Failed to create element") w) in
    match data with
    | None => failed w
    | Some data =>
        let roomId := ed_roomId data in
        match userId socket with
        | None => (socket, emit socket "error" (err "AUTH_ERROR" "User not authenticated") w)
        | Some userId =>
            match checkWhiteboardAccess socket roomId w with
            | (false, w1) => (socket, w1)
            | (true, w1) =>
                match findOne roomId w1 with
                | None => failed w1
                | Some None => (socket, w1)
                | Some (Some wb) =>
                    let newElement := stamp (ed_element data) userId now in
                    let d :=
                      WhiteboardModel.map_doc (WhiteboardModel.with_lastModifiedBy (Some userId))
                        (WhiteboardModel.bump_version
                           (WhiteboardModel.push_element newElement
                              (WhiteboardModel.loaded wb))) in
                    match save now roomId d w1 with
                    | None => failed w1
                    | Some (saved, w2) =>
                        (socket,
                         broadcast socket roomId "element-created"
                           (PElementCreated roomId newElement userId
                              (WhiteboardModel.version saved)) w2)
                    end
                end
            end
        end
    end.

(** [elements.findIndex(el => el.id === id)] *)
Definition findIndex (id : string) (els : list Element) : option nat :=
  fst <$> list_find (λ el, el_id el = id) els.

(** The listener of [element-update]. *)
Definition elementUpdate : Handler (option ElementData) :=
  λ socket data now w,
    let failed w := (socket, emit socket "error"
                               (err "ELEMENT_UPDATE_ERROR" "Failed to update element") w) in
    match data with
    | None => failed w
    | Some data =>
        let roomId := ed_roomId data in
        match userId socket with
        | None => (socket, emit socket "error" (err "AUTH_ERROR" "User not authenticated") w)
        | Some userId =>
            match checkWhiteboardAccess socket roomId w with
            | (false, w1) => (socket, w1)
            | (true, w1) =>
                match findOne roomId w1 with
                | None => failed w1
                | Some None => (socket, w1)
                | Some (Some wb) =>
                    match findIndex (el_id (ed_element data)) (WhiteboardModel.elements wb) with
                    | None => (socket, w1)
                    | Some elementIndex =>
                        let d :=
                          WhiteboardModel.map_doc
                            (WhiteboardModel.with_lastModifiedBy (Some userId))
                            (WhiteboardModel.bump_version
                               (WhiteboardModel.assign_element_at elementIndex
                                  (stamp (ed_element data) userId now)
                                  (WhiteboardModel.loaded wb))) in
                        match save now roomId d w1 with
                        | None => failed w1
                        | Some (saved, w2) =>
                            (socket,
                             broadcast socket roomId "element-updated"
                               (PElementUpdated roomId
                                  (WhiteboardModel.elements saved !! elementIndex) userId
                                  (WhiteboardModel.version saved)) w2)
                        end
                    end
                end
            end
        end
    end.

(** The listener of [element-delete]. *)
Definition elementDelete : Handler (option DeleteData) :=
  λ socket data now w,
    let failed w := (socket, emit socket "error"
                               (err "ELEMENT_DELETE_ERROR" "Failed to delete element") w) in
    match data with
    | None => failed w
    | Some data =>
        let roomId := dd_roomId data in
        let elementId := dd_elementId data in
        match userId socket with
        | None => (socket, emit socket "error" (err "AUTH_ERROR" "User not authenticated") w)
        | Some userId =>
            match checkWhiteboardAccess socket roomId w with
            | (false, w1) => (socket, w1)
            | (true, w1) =>
                match findOne roomId w1 with
                | None => failed w1
                | Some None => (socket, w1)
                | Some (Some wb) =>
                    let d :=
                      WhiteboardModel.map_doc (WhiteboardModel.with_lastModifiedBy (Some userId))
                        (WhiteboardModel.bump_version
                           (WhiteboardModel.assign_elements
                              (filter (λ el, el_id el ≠ elementId) (WhiteboardModel.elements wb))
                              (WhiteboardModel.loaded wb))) in
                    match save now roomId d w1 with
                    | None => failed w1
                    | Some (saved, w2) =>
                        (socket,
                         broadcast socket roomId "element-deleted"
                           (PElementDeleted roomId elementId userId
                              (WhiteboardModel.version saved)) w2)
                    end
                end
            end
        end
    end.

(** The four writes of the whiteboard, as one type of request. *)
Inductive Mutation :=
| ReplaceAll (data : UpdateData)
| ElementCreate (data : ElementData)
| ElementUpdate (data : ElementData)
| ElementDelete (data : DeleteData).

Definition mutationRoom (m : Mutation) : string :=
  match m with
  | ReplaceAll d => ud_roomId d
  | ElementCreate d => ed_roomId d
  | ElementUpdate d => ed_roomId d
  | ElementDelete d => dd_roomId d
  end.

(** The listener a write is dispatched to. *)
Definition dispatch (m : Mutation) (socket : Socket) (now : Z) (w : World) : Socket * World :=
  match m with
  | ReplaceAll d => whiteboardUpdate socket (Some d) now w
  | ElementCreate d => elementCreate socket (Some d) now w
  | ElementUpdate d => elementUpdate socket (Some d) now w
  | ElementDelete d => elementDelete socket (Some d) now w
  end.

End WhiteboardHandlers.

(** ** socket/handlers/room.handler.ts *)

Module RoomHandlers.
Import SocketIO.

Definition err (code text : string) (now : Z) : Payload := PError code (Text text) (Some now).

Record UserHints := {
  uh_userName : option string;
  uh_avatar : option string;
}.

Record JoinData := {
  jd_roomId : string;
  jd_userData : option UserHints;
}.

Record RoomData := {
  rd_roomId : string;
}.


(** [rateLimiters] *)
Definition joinRoomLimiter := SocketRateLimit.options 10 60000.
Definition getRoomUsersLimiter := SocketRateLimit.options 30 60000.
Definition requestRoomUsersLimiter := SocketRateLimit.options 30 60000.

(** The whiteboard state sent along with [room-joined]. *)
Definition whiteboardState (whiteboard : option WhiteboardModel.t) : WhiteboardState :=
  match whiteboard with
  | Some wb =>
      {| ws_elements := WhiteboardModel.elements wb;
         ws_appState := WhiteboardModel.appState wb;
         ws_files := WhiteboardModel.files wb;
         ws_version := WhiteboardModel.version wb |}
  | None =>
      {| ws_elements := []; ws_appState := emptyObject; ws_files := emptyObject;
         ws_version := 0 |}
  end.

(** The calls into presence.util.ts; each of them catches its own
    errors. *)
Definition isUserInRoom (now : Z) (userId roomId : string) : Async.t bool :=
  Async.read (λ w, Presence.isUserInRoom now userId roomId (redis w)).

Definition getUsersInRoom (now : Z) (roomId : string) : Async.t (list UserPresenceData) :=
  Async.read (λ w, Presence.getUsersInRoom now roomId (redis w)).

Definition removeUserFromRoom (now : Z) (userId roomId : string) : Async.t unit :=
  Async.write (λ w, with_redis (Presence.removeUserFromRoom now userId roomId (redis w)) w).

Definition addUserToRoom (now : Z) (userId roomId : string) (d : UserPresenceData)
    : Async.t unit :=
  Async.write (λ w, with_redis (Presence.addUserToRoom now userId roomId d (redis w)) w).

Definition updateUserActivity (now : Z) (userId roomId : string) : Async.t unit :=
  Async.write (λ w, with_redis (Presence.updateUserActivity now userId roomId (redis w)) w).

(** "Leave current room if any". *)
Definition leaveCurrentRoom (socketData : Socket) (userId : string) (now : Z) : Async.t unit :=
  match currentRoom socketData with
  | Some current =>
      if JS.truthy current then
        do _ ← Async.leave current;
        do _ ← removeUserFromRoom now userId current;
        do updatedUsers ← getUsersInRoom now current;
        Async.to_emit current "user-left" (PUserLeft current userId updatedUsers)
      else Async.ret tt
  | None => Async.ret tt
  end.

(** "Check participant limits before joining", with its own [try] and
    [catch]: [true] when the join goes on, [false] when the listener
    has reported an error and returns. *)
Definition checkParticipantLimit (roomId : string) (now : Z) : Async.t bool :=
  Async.tryCatch
    (do room ← Async.query (λ w, if mongo_up w then Some (rooms w !! roomId) else None);
     match room with
     | None =>
         do _ ← Async.emit "room:join-error"
               (PJoinError "ROOM_NOT_FOUND" (Text "Room not found") None);
         Async.ret false
     | Some room =>
         do owner ← Async.query (λ w, if mongo_up w then Some (users w !! room_ownerId room)
                                      else None);
         match owner with
         | None =>
             do _ ← Async.emit "room:join-error"
                   (PJoinError "OWNER_NOT_FOUND" (Text "Room owner not found") None);
             Async.ret false
         | Some ownerPlan =>
             do currentPresenceUsers ← getUsersInRoom now roomId;
             do table ← Async.read planLimits;
             let currentParticipantCount :=
               Nat.max (length currentPresenceUsers) (length (room_participants room)) in
             let canAdd :=
               PlanLimits.canAddParticipant table currentParticipantCount ownerPlan in
             if PlanLimits.allowed canAdd then Async.ret true
             else
               do _ ← Async.emit "room:join-error"
                     (PJoinError "PARTICIPANT_LIMIT"
                        (match PlanLimits.reason canAdd with
                         | Some plan => ParticipantLimitReachedFor plan
                         | None =>
                             Text "Participant limit reached. Room owner needs to upgrade."
                         end)
                        (Some (currentParticipantCount,
                               PlanLimits.maxParticipants
                                 (PlanLimits.getPlanLimits table ownerPlan),
                               ownerPlan)));
               Async.ret false
         end
     end)
    (do _ ← Async.emit "room:join-error"
           (PJoinError "LIMIT_CHECK_FAILED" (Text "Failed to verify room capacity") None);
     Async.ret false).

(** [userPresenceData]; it throws when a property of an absent
    [userData] is read. *)
Definition userPresenceData (socketData : Socket) (socketId userId : string)
    (userData : option UserHints) (now : Z) : Async.t UserPresenceData :=
  let ownName := match user socketData with
                 | Some u => if JS.truthy (name u) then Some (name u) else None
                 | None => None
                 end in
  let ownAvatar := match user socketData with
                   | Some u => JS.or_else (avatar u) None
                   | None => None
                   end in
  do n ← match ownName with
         | Some n => Async.ret n
         | None =>
             match userData with
             | Some h => Async.ret (default "Anonymous" (JS.or_else (uh_userName h) None))
             | None => Async.throw
             end
         end;
  do a ← match ownAvatar with
         | Some a => Async.ret (Some a)
         | None =>
             match userData with
             | Some h => Async.ret (uh_avatar h)
             | None => Async.throw
             end
         end;
  Async.ret {| upd_id := userId; upd_name := n; upd_avatar := a;
               upd_socketId := socketId; upd_joinedAt := now;
               upd_lastActivity := now |}.

(** The listener of [join-room], inside its rate limiter. *)
Definition joinRoomHandler : Wrapped JoinData :=
  λ data now,
    Async.tryCatch
      (match data with
       | None =>
           Async.emit "error" (err "INVALID_DATA" "Missing data for join-room request" now)
       | Some data =>
           let roomId := jd_roomId data in
           if negb (JS.truthy roomId) then
             Async.emit "error" (err "INVALID_ROOM_ID" "Room ID is required" now)
           else
             do socketData ← Async.socketData;
             match userId socketData with
             | None =>
                 Async.emit "error"
                   (err "UNAUTHORIZED" "Must be authenticated to join rooms" now)
             | Some userId =>
                 do alreadyInRoom ← isUserInRoom now userId roomId;
                 if (alreadyInRoom : bool) then
                   do users ← getUsersInRoom now roomId;
                   do whiteboard ← Async.query (WhiteboardHandlers.findOne roomId);
                   do _ ← Async.emit "room-joined"
                         (PRoomJoined roomId users (whiteboardState whiteboard));
                   let username := match user socketData with
                                   | Some u => if JS.truthy (name u) then name u
                                               else "Unknown User"
                                   | None => "Unknown User"
                                   end in
                   Async.to_emit roomId "user-restored"
                     (PUserRestored roomId userId username now)
                 else
                   do _ ← leaveCurrentRoom socketData userId now;
                   do allowed ← checkParticipantLimit roomId now;
                   if (allowed : bool) then
                     do _ ← Async.join roomId;
                     do _ ← Async.setCurrentRoom (Some roomId);
                     do presence ← userPresenceData socketData (sid socketData) userId
                                     (jd_userData data) now;
                     do _ ← addUserToRoom now userId roomId presence;
                     do allUsers ← getUsersInRoom now roomId;
                     do whiteboard ← Async.query (WhiteboardHandlers.findOne roomId);
                     let plan := match user socketData with
                                 | Some u => subscriptionPlan u
                                 | None => None
                                 end in
                     do _ ← Async.to_emit roomId "user-joined"
                           (PUserJoined roomId presence plan (sid socketData) now);
                     do _ ← Async.to_emit roomId "user-online" (PUserOnline userId now);
                     Async.emit "room-joined"
                       (PRoomJoined roomId allUsers (whiteboardState whiteboard))
                   else Async.ret tt
             end
       end)
      (Async.emit "error" (err "JOIN_ROOM_ERROR" "Failed to join room" now)).

(** [rateLimiters.joinRoom("join-room", ...)] *)
Definition joinRoom : Wrapped JoinData :=
  SocketRateLimit.createSocketRateLimiter joinRoomLimiter "join-room" joinRoomHandler.





(** The listener of [get-room-users], inside its rate limiter.
    Destructuring an absent [data] throws. *)
Definition getRoomUsersHandler : Wrapped RoomData :=
  λ data now,
    Async.tryCatch
      (match data with
       | None => Async.throw
       | Some data =>
           let roomId := rd_roomId data in
           do users ← getUsersInRoom now roomId;
           Async.emit "room-users" (PRoomUsers roomId users)
       end)
      (Async.emit "error" (err "GET_ROOM_USERS_ERROR" "Failed to get room users" now)).

Definition getRoomUsers : Wrapped RoomData :=
  SocketRateLimit.createSocketRateLimiter getRoomUsersLimiter "get-room-users"
    getRoomUsersHandler.

(** The listener of [request-room-users], inside its rate limiter. *)
Definition requestRoomUsersHandler : Wrapped RoomData :=
  λ data now,
    Async.tryCatch
      (match data with
       | None =>
           Async.emit "error"
             (err "INVALID_DATA" "Missing data for request-room-users request" now)
       | Some data =>
           let roomId := rd_roomId data in
           if negb (JS.truthy roomId) then
             Async.emit "error" (err "INVALID_ROOM_ID" "Room ID is required" now)
           else
             do socketData ← Async.socketData;
             match userId socketData with
             | None =>
                 Async.emit "error"
                   (err "UNAUTHORIZED" "Must be authenticated to request room users" now)
             | Some userId =>
                 do inRoom ← isUserInRoom now userId roomId;
                 if (inRoom : bool) then
                   do users ← getUsersInRoom now roomId;
                   Async.emit "room-users-list" (PRoomUsers roomId users)
                 else
                   Async.emit "error"
                     (err "UNAUTHORIZED" "Must be in room to request user list" now)
             end
       end)
      (Async.emit "error" (err "REQUEST_ROOM_USERS_ERROR" "Failed to get room users" now)).

Definition requestRoomUsers : Wrapped RoomData :=
  SocketRateLimit.createSocketRateLimiter requestRoomUsersLimiter "request-room-users"
    requestRoomUsersHandler.

(** The five listeners as [registerRoomHandlers] registers them:
    [socket.on("join-room", rateLimiters.joinRoom("join-room", ...))]
    and so on. *)
Definition onJoinRoom := on joinRoom.
Definition onGetRoomUsers := on getRoomUsers.
Definition onRequestRoomUsers := on requestRoomUsers.

(** The listener of [disconnect] that room.handler.ts registers; it
    closes over the connection. *)
Definition disconnect : Handler unit :=
  λ socket _ now w,
    match userId socket, currentRoom socket with
    | Some userId, Some current =>
        if JS.truthy current then
          let w1 := with_redis (Presence.removeUserFromRoom now userId current (redis w)) w in
          let w2 := broadcast socket current "user-offline"
                      (PUserOffline userId now "disconnected") w1 in
          let updatedUsers := Presence.getUsersInRoom now current (redis w2) in
          (socket, broadcast socket current "user-left"
                     (PUserLeft current userId updatedUsers) w2)
        else (socket, w)
    | _, _ => (socket, w)
    end.

End RoomHandlers.

(** ** socket/handlers/connection.handler.ts *)

Module ConnectionHandlers.
Import SocketIO.

(** The listener of [disconnecting]: the rooms are put aside. *)
Definition disconnecting : Handler unit :=
  λ socket _ now w,
    (with_disconnectingRooms
       (Some (filter (λ room, room ≠ sid socket) (roomsOf (sid socket) (adapter w)))) socket,
     w).

(** "Notify rooms of user departure". *)
Fixpoint notifyRooms (socket : Socket) (userId : string) (now : Z) (roomIds : list string)
    (w : World) : World :=
  match roomIds with
  | [] => w
  | roomId :: rest =>
      let updatedUsers := Presence.getUsersInRoom now roomId (redis w) in
      notifyRooms socket userId now rest
        (broadcast socket roomId "user-left" (PUserLeft roomId userId updatedUsers) w)
  end.

(** [socketData.disconnectingRooms || (currentRoom ? [currentRoom] : [])] *)
Definition affectedRooms (socket : Socket) : list string :=
  match disconnectingRooms socket with
  | Some rooms => rooms
  | None =>
      match currentRoom socket with
      | Some current => if JS.truthy current then [current] else []
      | None => []
      end
  end.

(** The listener of [disconnect] that connection.handler.ts registers. *)
Definition disconnect : Handler unit :=
  λ socket _ now w,
    match userId socket with
    | None => (socket, w)
    | Some userId =>
        let '(cleanedRooms, r) :=
          Presence.cleanupUserPresence now userId (Some (sid socket)) (redis w) in
        (socket,
         notifyRooms socket userId now
           (JS.dedup_keep_first [] (affectedRooms socket ++ cleanedRooms)) (with_redis r w))
    end.

End ConnectionHandlers.

(** ** Listeners that answer in payloads of their own

    The listeners below send events whose payloads are of none of the
    shapes of [SocketIO.Payload].  Such an emission is a [Reply.t]; a
    listener returns the replies of one run, in order, next to the world.
    Its [error] events are of the common shape and go to the [outbox] as
    before. *)

Module Reply.

Record HistoryEntry := {
  entry_roomId : string;
  entry_userDocument : string;
  entry_userName : string;
  entry_userAvatar : option string;
  entry_content : string;
  entry_createdAt : Z;
}.

Inductive Payload :=
| ChatHistory (messages : list HistoryEntry)
| ChatError (text : string)
| CursorMoved (roomId : string) (x y : Z) (userId userName : string) (timestamp : Z)
| WhiteboardLoaded (roomId : string) (state : SocketIO.WhiteboardState) (lastUpdated : Z)
| SnapshotCreated (roomId : string) (timestamp version : Z)
| HeartbeatAck (serverTime : Z)
| Pong.

Record t := {
  target : SocketIO.Target;
  event : string;
  payload : Payload;
}.

(** [socket.emit(event, payload)] *)
Definition toSocket (s : SocketIO.Socket) (ev : string) (p : Payload) : t :=
  {| target := SocketIO.ToSocket (SocketIO.sid s); event := ev; payload := p |}.

(** [socket.to(room).emit(event, payload)] *)
Definition toOthers (s : SocketIO.Socket) (room ev : string) (p : Payload) : t :=
  {| target := SocketIO.ToRoomExcept room (SocketIO.sid s); event := ev; payload := p |}.

End Reply.

Definition Listener (D : Type) : Type :=
  SocketIO.Socket → D → Z → World → SocketIO.Socket * World * list Reply.t.

(** ** models/Message.model.ts *)

Module MessageModel.
Import SocketIO.

(** What [new Message({...}).save()] stores, or [None] when the
    document does not validate: [roomId] and [userId] are required
    [ObjectId]s, [userName] and [content] are required strings, and
    the strings are trimmed when they are set.  [createdAt] is the
    one the listener passes. *)
Definition create (roomId userId userName : string) (userAvatar : option string)
    (content : string) (createdAt : Z) : option ChatMessage :=
  if ObjectId.isValid roomId && ObjectId.isValid userId
     && JS.truthy (JS.trim userName) && JS.truthy (JS.trim content)
  then Some {| msg_roomId := ObjectId.toString roomId;
               msg_userId := ObjectId.toString userId;
               msg_userName := JS.trim userName;
               msg_userAvatar := JS.trim <$> userAvatar;
               msg_content := JS.trim content;
               msg_createdAt := createdAt |}
  else None.

(** [sort({ createdAt: -1 })]: newest first.  MongoDB leaves the order
    of messages with one [createdAt] open; here they stay in the order
    in which they were stored. *)
Fixpoint insertNewestFirst (m : ChatMessage) (sorted : list ChatMessage) : list ChatMessage :=
  match sorted with
  | [] => [m]
  | m' :: rest =>
      if bool_decide (msg_createdAt m' ≤ msg_createdAt m) then m :: m' :: rest
      else m' :: insertNewestFirst m rest
  end.

Definition sortNewestFirst (l : list ChatMessage) : list ChatMessage :=
  foldr insertNewestFirst [] l.

(** [Message.find({ roomId }).sort({ createdAt: -1 }).limit(50)]: the
    filter is cast first, and a [roomId] that is no [ObjectId] makes
    the query throw. *)
Definition findRecent (roomId : string) (w : World) : option (list ChatMessage) :=
  if mongo_up w && ObjectId.isValid roomId then
    Some (take 50 (sortNewestFirst
                     (filter (λ m, msg_roomId m = ObjectId.toString roomId) (messages w))))
  else None.

End MessageModel.

(** ** handlers/chat.handler.ts *)

Module ChatHandler.
Import SocketIO.

Record MessageData := {
  md_roomId : string;
  md_content : string;
  md_tempId : string;
}.

Definition chatRoom (roomId : string) : string := "chat:" +:+ roomId.

(** One entry of [chat:history].  After [populate("userId", ...)] the
    path [userId] holds the user's document, and
    [message.userId.toString()] is the text of that document;
    [entry_userDocument] names the user whose document it is. *)
Definition transform (m : ChatMessage) : Reply.HistoryEntry :=
  {| Reply.entry_roomId := msg_roomId m;
     Reply.entry_userDocument := msg_userId m;
     Reply.entry_userName := msg_userName m;
     Reply.entry_userAvatar := msg_userAvatar m;
     Reply.entry_content := msg_content m;
     Reply.entry_createdAt := msg_createdAt m |}.

(** The listener of [chat:join]; its payload is the room id.  The
    connection is in the channel before anything is read.  A message
    whose user is gone is populated with [null], and the [toString()]
    on it throws. *)
Definition chatJoin : Listener string :=
  λ socket roomId now w,
    let w1 := with_adapter (join (chatRoom roomId) (sid socket) (adapter w)) w in
    let failed := (socket, w1,
                   [Reply.toSocket socket "chat:error"
                      (Reply.ChatError "Failed to join chat room")]) in
    match MessageModel.findRecent roomId w1 with
    | None => failed
    | Some recentMessages =>
        if forallb (λ m, bool_decide (is_Some (users w1 !! msg_userId m))) recentMessages
        then (socket, w1,
              [Reply.toSocket socket "chat:history"
                 (Reply.ChatHistory (map transform (reverse recentMessages)))])
        else failed
    end.

(** The listener of [chat:leave]; its payload is the room id. *)
Definition chatLeave : Handler string :=
  λ socket roomId now w,
    (socket, with_adapter (leave (chatRoom roomId) (sid socket) (adapter w)) w).

(** The listener of [chat:message].  Destructuring an absent [data]
    throws; so does [save()] when the database does not answer or the
    message does not validate. *)
Definition chatMessage : Handler (option MessageData) :=
  λ socket data now w,
    let failed := (socket, emit socket "chat:error" (PChatError "Failed to send message") w) in
    match data with
    | None => failed
    | Some data =>
        match user socket with
        | None => (socket, emit socket "chat:error" (PChatError "User not authenticated") w)
        | Some user =>
            match (if mongo_up w
                   then MessageModel.create (md_roomId data) (id user) (name user)
                          (avatar user) (md_content data) now
                   else None) with
            | None => failed
            | Some savedMessage =>
                let w1 := with_messages (messages w ++ [savedMessage]) w in
                (socket, emit_room (chatRoom (md_roomId data)) "chat:message"
                           (PChatMessage savedMessage (md_tempId data)) w1)
            end
        end
    end.

End ChatHandler.

(** ** A connection closes *)

Module Disconnect.
Import SocketIO.

(** [socket.leaveAll()] *)
Definition leaveAll (socketId : string) (adapter : gmap string (gset string))
    : gmap string (gset string) :=
  foldr (λ room a, leave room socketId a) adapter (roomsOf socketId adapter).

(** What Socket.IO does when a connection closes, once per connection:
    it emits [disconnecting], takes the socket out of its rooms, and
    emits [disconnect].  Two of the listeners of [disconnect] do
    something: the one of connection.handler.ts and the one of
    room.handler.ts, registered in this order (those of the chat and
    sticky-note handlers only log).  Both are [async]; here one runs
    to its end before the other, and [roomListenerFirst] says which. *)
Definition close (roomListenerFirst : bool) : Handler unit :=
  λ socket _ now w,
    let '(socket1, w1) := ConnectionHandlers.disconnecting socket tt now w in
    let w2 := with_adapter (leaveAll (sid socket1) (adapter w1)) w1 in
    if roomListenerFirst then
      let '(socket3, w3) := RoomHandlers.disconnect socket1 tt now w2 in
      ConnectionHandlers.disconnect socket3 tt now w3
    else
      let '(socket3, w3) := ConnectionHandlers.disconnect socket1 tt now w2 in
      RoomHandlers.disconnect socket3 tt now w3.

End Disconnect.

(** ** Vocabulary of the statements *)

(** The presence record of [userId] under a room key, as a read at time
    [now] sees it. *)
Definition presenceRecord (now : Z) (r : Redis.t) (key userId : string)
    : option UserPresenceData :=
  Redis.fieldsOf now key r !! userId.

(** Between [r] and [r'] no record changed, except that records of
    [userId] written by connection [socketId] may be gone. *)
Definition removedOnlyFor (now : Z) (userId socketId : string) (r r' : Redis.t) : Prop :=
  ∀ key field,
    presenceRecord now r' key field = presenceRecord now r key field
    ∨ (field = userId
       ∧ ∃ d, presenceRecord now r key field = Some d
              ∧ upd_socketId d = socketId
              ∧ presenceRecord now r' key field = None).

(** What was emitted between two worlds of one run. *)
Definition emitted (w w' : World) : list SocketIO.Emission :=
  drop (length (outbox w)) (outbox w').

(** An emission is delivered to a connection. *)
Definition deliveredTo (adapter : gmap string (gset string)) (e : SocketIO.Emission)
    (socketId : string) : Prop :=
  socketId ∈ SocketIO.recipients adapter (SocketIO.target e).

(** The version of a room's whiteboard document, if it has one. *)
Definition versionOf (roomId : string) (w : World) : option Z :=
  WhiteboardModel.version <$> whiteboards w !! roomId.

(** The [user-left] notice of a connection to a room. *)
Definition userLeftNotice (socket : SocketIO.Socket) (userId : string) (now : Z) (r : Redis.t)
    (roomId : string) : SocketIO.Emission :=
  {| SocketIO.target := SocketIO.ToRoomExcept roomId (SocketIO.sid socket);
     SocketIO.event := "user-left";
     SocketIO.payload :=
       SocketIO.PUserLeft roomId userId (Presence.getUsersInRoom now roomId r) |}.

(** The event of a registered listener received once per entry of
    [times], in order, always with the same payload, by a server that
    goes on after a listener was rejected: the world after the last,
    and how each call ended. *)
Fixpoint received {D} (listener : Wrapped D) (socket : SocketIO.Socket) (payload : option D)
    (times : list Z) (w : World) : World * list (Async.Completion unit) :=
  match times with
  | [] => (w, [])
  | t :: rest =>
      let '(_, w1, c) := on listener socket payload t w in
      let '(w', cs) := received listener socket payload rest w1 in
      (w', c :: cs)
  end.

Module Spec.

(** "A mutation changes n elements": the elements that are in one of
    the two lists and not in the other. *)
Definition elementsChanged (before after : list Element) : nat :=
  length (filter (λ el, el ∉ before) after) + length (filter (λ el, el ∉ after) before).

End Spec.

(** ** Sample data for the examples *)

Module Sample.
Import SocketIO.

Definition aliceId : string := "650000000000000000000a11".
Definition bobId : string := "650000000000000000000b0b".
Definition carolId : string := "650000000000000000000ca1".
Definition roomR : string := "65000000000000000000a001".

Definition registered (userId userName : string) : User :=
  {| id := userId; name := userName; email := None; avatar := None;
     subscriptionPlan := Some FREE; isAnonymous := false |}.

Definition connection (socketId : string) (u : User) (current : option string) : Socket :=
  {| sid := socketId; user := Some u; currentRoom := current; disconnectingRooms := None |}.

Definition alice : User := registered aliceId "Alice".
Definition bob : User := registered bobId "Bob".
Definition carol : User := registered carolId "Carol".

(** Alice's connection [s1], Bob's [s2], Carol's [s3]. *)
Definition s1 : Socket := connection "s1" alice None.
Definition s2 : Socket := connection "s2" bob None.
Definition s3 : Socket := connection "s3" carol None.

Definition present (userId userName socketId : string) (since : Z) : UserPresenceData :=
  {| upd_id := userId; upd_name := userName; upd_avatar := None; upd_socketId := socketId;
     upd_joinedAt := since; upd_lastActivity := since |}.

Definition emptyRedis : Redis.t :=
  {| Redis.redis_up := true; Redis.hashes := ∅; Redis.counters := ∅ |}.

(** Room R belongs to Alice, who is on the FREE plan; nobody is
    present and no whiteboard exists. *)
Definition base : World :=
  {| redis := emptyRedis;
     planLimits := PlanLimits.defaults;
     mongo_up := true;
     whiteboards := ∅;
     rooms := {[ roomR := {| room_ownerId := aliceId; room_participants := [aliceId] |} ]};
     users := {[ aliceId := FREE ]};
     messages := [];
     updateRateLimit := ∅;
     adapter := {[ "s1" := {[ "s1" ]}; "s2" := {[ "s2" ]}; "s3" := {[ "s3" ]} ]};
     outbox := [] |}.

(** The presence hash of room R with the given records. *)
Definition withPresence (records : list (string * UserPresenceData)) (w : World) : World :=
  with_redis
    (Redis.set_hashes
       {[ Presence.roomKey roomR :=
            {| Redis.h_fields := list_to_map records; Redis.h_expireAt := None |} ]}
       (redis w)) w.

(** The connections [members] attached to the channel of room R. *)
Definition withChannel (room : string) (members : list string) (w : World) : World :=
  with_adapter (<[room := list_to_set members]> (adapter w)) w.

Definition elementNo (n : nat) : Element :=
  {| el_id := String (Ascii.ascii_of_nat (97 + n)) ""; el_body := "{}";
     el_userId := None; el_timestamp := None |}.

Definition elementsUpTo (n : nat) : list Element := map elementNo (seq 0 n).

(** A whiteboard document of room R. *)
Definition board (v : Z) (els : list Element) : WhiteboardModel.t :=
  {| WhiteboardModel.roomId := roomR; WhiteboardModel.elements := els;
     WhiteboardModel.appState := emptyObject; WhiteboardModel.files := emptyObject;
     WhiteboardModel.version := v; WhiteboardModel.lastModifiedBy := Some aliceId;
     WhiteboardModel.lastModifiedAt := 0; WhiteboardModel.snapshots := [] |}.

Definition withBoard (wb : WhiteboardModel.t) (w : World) : World :=
  with_whiteboards (<[roomR := wb]> (whiteboards w)) w.

(** Alice and Bob sit in room R, whose whiteboard holds [els] at
    version [v]. *)
Definition editing (v : Z) (els : list Element) : World :=
  withBoard (board v els)
    (withChannel roomR ["s1"; "s2"]
       (withPresence [(aliceId, present aliceId "Alice" "s1" 0);
                      (bobId, present bobId "Bob" "s2" 0)] base)).

End Sample.

(** ** Vocabulary of the rate limiter's statements *)

(** The value of the counter under [key], as a read at time [now] sees
    it. *)
Definition countOf (now : Z) (key : string) (w : World) : option Z :=
  Redis.c_value <$> Redis.liveCounter now key (redis w).

(** From [w] to [w'] nothing changed but the counters of the limiter. *)
Definition onlyCounted (w w' : World) : Prop :=
  w' = with_redis (Redis.set_counters (Redis.counters (redis w')) (redis w)) w.

(** A run of a registered listener: the connection is as before, the
    listener ends as [c], and the world differs at most in the counter
    that the limiter keeps for the event when its [socket] has no
    identity; with Redis answering and a payload sent, that counter has
    gone up by one. *)
Definition countsAndEnds (eventName : string) (c : Async.Completion unit)
    (socket : SocketIO.Socket) (sent : bool) (now : Z) (w : World)
    (outcome : SocketIO.Socket * World * Async.Completion unit) : Prop :=
  outcome.1.1 = socket ∧ outcome.2 = c
  ∧ onlyCounted w outcome.1.2
  ∧ (∀ key, key ≠ "ratelimit:socket:anonymous:" +:+ eventName →
            Redis.counters (redis outcome.1.2) !! key = Redis.counters (redis w) !! key)
  ∧ (sent = true → Redis.redis_up (redis w) = true →
     countOf now ("ratelimit:socket:anonymous:" +:+ eventName) outcome.1.2
     = Some (default 0 (countOf now ("ratelimit:socket:anonymous:" +:+ eventName) w) + 1)).

(** ** Vocabulary of the statements on delivery *)

(** From [w] to [w'] the outbox only grew, by emissions that satisfy [P]. *)
Definition emitsOnly (P : SocketIO.Emission → Prop) (w w' : World) : Prop :=
  ∃ l, outbox w' = outbox w ++ l ∧ Forall P l.

(** An emission whose event is one of [names] is a broadcast that leaves
    out the connection [socket]. *)
Definition excludesSender (socket : SocketIO.Socket) (names : list string)
    (e : SocketIO.Emission) : Prop :=
  SocketIO.event e ∈ names →
  ∃ room, SocketIO.target e = SocketIO.ToRoomExcept room (SocketIO.sid socket).

(** Run on a connection, a body emits nothing from which the
    connection is not left out where [names] asks for it, and the
    connection keeps its id. *)
Definition leavesOutSender (names : list string) {A} (m : Async.t A) : Prop :=
  ∀ socket w,
    emitsOnly (excludesSender socket names) w (m (Connection socket, w)).2.2
    ∧ ∃ socket', (m (Connection socket, w)).2.1 = Connection socket'
                 ∧ SocketIO.sid socket' = SocketIO.sid socket.

(** The events that carry an accepted whiteboard write to the room. *)
Definition whiteboardEvents : list string :=
  ["whiteboard-updated"; "element-created"; "element-updated"; "element-deleted"].

(** ** presence.util.ts: handing a record over to another connection *)

Module PresenceSocket.

(** [setUserSocketId]: the record, if there is one, gets the socket id
    and a new [lastActivity]; an error is logged and swallowed. *)
Definition setUserSocketId (now : Z) (userId roomId socketId : string) (r : Redis.t)
    : Redis.t :=
  match Redis.hGet now (Presence.roomKey roomId) userId r with
  | Some (Some d) =>
      let d' := {| upd_id := upd_id d; upd_name := upd_name d; upd_avatar := upd_avatar d;
                   upd_socketId := socketId; upd_joinedAt := upd_joinedAt d;
                   upd_lastActivity := now |} in
      default r (Redis.hSet now (Presence.roomKey roomId) userId d' r)
  | _ => r
  end.

End PresenceSocket.

(** ** models/Whiteboard.model.ts: the history of a board *)

Module WhiteboardHistory.
Import WhiteboardModel.

(** [arr.slice(0, n)]; a negative [n] counts from the end. *)
Definition slice_first {A} (n : Z) (l : list A) : list A :=
  if bool_decide (0 ≤ n) then take (Z.to_nat n) l
  else take (length l - Z.to_nat (- n))%nat l.

(** [arr.sort((a, b) => b.timestamp - a.timestamp)]: newest first.  The
    sort is stable: entries of one timestamp keep their order. *)
Fixpoint insertNewestFirst (s : Snapshot) (sorted : list Snapshot) : list Snapshot :=
  match sorted with
  | [] => [s]
  | s' :: rest =>
      if bool_decide (snap_timestamp s' ≤ snap_timestamp s) then s :: s' :: rest
      else s' :: insertNewestFirst s rest
  end.

Definition sortNewestFirst (l : list Snapshot) : list Snapshot :=
  foldr insertNewestFirst [] l.

(** The default of the parameter [limit]. *)
Definition defaultLimit : Z := 10.

(** [WhiteboardSchema.statics.getHistory], on the collection keyed by
    room. *)
Definition getHistory (room : string) (limit : Z) (coll : gmap string t) : list Snapshot :=
  match coll !! room with
  | Some doc => slice_first limit (sortNewestFirst (snapshots doc))
  | None => []
  end.

End WhiteboardHistory.


(** ** whiteboard.handler.ts: cursors, loading and the snapshot request *)

Module WhiteboardReaders.
Import SocketIO WhiteboardHandlers.

(** The client's cursor; the coordinates are passed on as they come. *)
Record Cursor := {
  cur_x : Z;
  cur_y : Z;
  cur_userId : string;
  cur_timestamp : Z;
}.

Record CursorData := {
  cd_roomId : string;
  cd_cursor : Cursor;
}.

Definition cursorKey (userId roomId : string) : string :=
  "cursor-" +:+ userId +:+ "-" +:+ roomId.

(** The listener of [cursor-move].  Its throttle is kept in the table of
    [whiteboard-update], under keys of its own; without data the
    destructuring throws, which is logged. *)
Definition cursorMove : Listener (option CursorData) :=
  λ socket data now w,
    match data with
    | None => (socket, w, [])
    | Some data =>
        let roomId := cd_roomId data in
        match user socket with
        | None => (socket, w, [])
        | Some u =>
            if negb (JS.truthy (id u)) then (socket, w, [])
            else
              let throttleKey := cursorKey (id u) roomId in
              let lastCursorUpdate := default 0 (updateRateLimit w !! throttleKey) in
              if bool_decide (now - lastCursorUpdate < 50) then (socket, w, [])
              else
                (socket,
                 with_updateRateLimit (<[throttleKey := now]> (updateRateLimit w)) w,
                 [Reply.toOthers socket roomId "cursor-moved"
                    (Reply.CursorMoved roomId (cur_x (cd_cursor data)) (cur_y (cd_cursor data))
                       (id u) (name u) now)])
        end
    end.

(** The listener of [whiteboard-load]. *)
Definition whiteboardLoad : Listener (option RoomHandlers.RoomData) :=
  λ socket data now w,
    match data with
    | None =>
        (socket, emit socket "error"
                   (err "INVALID_DATA" "Missing data for whiteboard-load request") w, [])
    | Some data =>
        let roomId := RoomHandlers.rd_roomId data in
        if negb (JS.truthy roomId) then
          (socket, emit socket "error" (err "INVALID_ROOM_ID" "Room ID is required") w, [])
        else
          match userId socket with
          | None =>
              (socket, emit socket "error" (err "AUTH_ERROR" "User not authenticated") w, [])
          | Some userId =>
              match checkWhiteboardAccess socket roomId w with
              | (false, w1) => (socket, w1, [])
              | (true, w1) =>
                  match findOne roomId w1 with
                  | None =>
                      (socket, emit socket "error"
                                 (err "WHITEBOARD_LOAD_ERROR" "Failed to load whiteboard") w1,
                       [])
                  | Some whiteboard =>
                      (socket, w1,
                       [Reply.toSocket socket "whiteboard-loaded"
                          (Reply.WhiteboardLoaded roomId
                             (RoomHandlers.whiteboardState whiteboard)
                             (match whiteboard with
                              | Some wb => WhiteboardModel.lastModifiedAt wb
                              | None => now
                              end))])
                  end
              end
          end
    end.

(** The listener of [whiteboard-snapshot]. *)
Definition whiteboardSnapshot : Listener (option RoomHandlers.RoomData) :=
  λ socket data now w,
    match data with
    | None =>
        (socket, emit socket "error"
                   (err "INVALID_DATA" "Missing data for whiteboard-snapshot request") w, [])
    | Some data =>
        let roomId := RoomHandlers.rd_roomId data in
        if negb (JS.truthy roomId) then
          (socket, emit socket "error" (err "INVALID_ROOM_ID" "Room ID is required") w, [])
        else
          match userId socket with
          | None =>
              (socket, emit socket "error" (err "AUTH_ERROR" "User not authenticated") w, [])
          | Some userId =>
              match checkWhiteboardAccess socket roomId w with
              | (false, w1) => (socket, w1, [])
              | (true, w1) =>
                  match findOne roomId w1 with
                  | None =>
                      (socket, emit socket "error"
                                 (err "SNAPSHOT_CREATE_ERROR" "Failed to create snapshot") w1,
                       [])
                  | Some (Some wb) =>
                      (socket, w1,
                       [Reply.toSocket socket "whiteboard-snapshot-created"
                          (Reply.SnapshotCreated roomId now (WhiteboardModel.version wb))])
                  | Some None => (socket, w1, [])
                  end
              end
          end
    end.

End WhiteboardReaders.

(** ** connection.handler.ts and room.handler.ts: signs of life *)

Module Liveness.
Import SocketIO.

(** The listener of [heartbeat]. *)
Definition heartbeat : Listener unit :=
  λ socket _ now w,
    let w1 :=
      match userId socket, currentRoom socket with
      | Some userId, Some current =>
          if JS.truthy current
          then with_redis (Presence.updateUserActivity now userId current (redis w)) w
          else w
      | _, _ => w
      end in
    (socket, w1, [Reply.toSocket socket "heartbeat-ack" (Reply.HeartbeatAck now)]).

(** The listener of [ping]. *)
Definition ping : Listener unit :=
  λ socket _ now w, (socket, w, [Reply.toSocket socket "pong" Reply.Pong]).

(** A run of heartbeats: which connection, and when. *)
Fixpoint heartbeats (beats : list (Socket * Z)) (w : World) : World :=
  match beats with
  | [] => w
  | (socket, t) :: rest => heartbeats rest (heartbeat socket tt t w).1.2
  end.

End Liveness.

(** ** middleware/ai-rate-limit.middleware.ts *)

Module AiRateLimit.

Record RateLimitEntry := {
  tokens : Z;
  lastRefill : Z;
}.

(** One hour, in milliseconds. *)
Definition REFILL_INTERVAL : Z := 3600000.

(** What the middleware does with a request. *)
Inductive Response :=
| Unauthorized
| TooManyRequests (retryAfter : Z)
| Next (limit remaining reset : Z).

Definition userKey (userId : string) : string := "ai_rate_limit:" +:+ userId.

(** [Math.ceil(a / b)] *)
Definition ceilDiv (a b : Z) : Z := - ((- a) / b).

(** [aiRateLimitMiddleware]; [BUCKET_SIZE] is the integer that
    [AI_RATE_LIMIT_PER_HOUR] parses to.  The entry is an object held by
    the map: what the refill writes to it stays written when the
    request is turned down. *)
Definition aiRateLimitMiddleware (BUCKET_SIZE : Z) (userId : option string) (now : Z)
    (rateLimitMap : gmap string RateLimitEntry) : Response * gmap string RateLimitEntry :=
  match JS.or_else userId None with
  | None => (Unauthorized, rateLimitMap)
  | Some userId =>
      let key := userKey userId in
      let entry := default {| tokens := BUCKET_SIZE; lastRefill := now |}
                     (rateLimitMap !! key) in
      let timeElapsed := now - lastRefill entry in
      let tokensToAdd := timeElapsed / REFILL_INTERVAL * BUCKET_SIZE in
      let entry :=
        if bool_decide (0 < tokensToAdd)
        then {| tokens := Z.min BUCKET_SIZE (tokens entry + tokensToAdd); lastRefill := now |}
        else entry in
      if bool_decide (tokens entry < 1) then
        (TooManyRequests (ceilDiv (REFILL_INTERVAL - (now - lastRefill entry)) 1000),
         <[key := entry]> rateLimitMap)
      else
        let entry := {| tokens := tokens entry - 1; lastRefill := lastRefill entry |} in
        (Next BUCKET_SIZE (tokens entry) (lastRefill entry + REFILL_INTERVAL),
         <[key := entry]> rateLimitMap)
  end.

(** [cleanupRateLimitEntries] *)
Definition cleanupRateLimitEntries (now : Z) (rateLimitMap : gmap string RateLimitEntry)
    : gmap string RateLimitEntry :=
  filter (λ kv, ¬ (lastRefill kv.2 < now - REFILL_INTERVAL * 2)) rateLimitMap.

(** The requests of one user at the given times, in order. *)
Fixpoint requests (BUCKET_SIZE : Z) (userId : string) (times : list Z)
    (rateLimitMap : gmap string RateLimitEntry)
    : list Response * gmap string RateLimitEntry :=
  match times with
  | [] => ([], rateLimitMap)
  | t :: rest =>
      let '(response, m1) := aiRateLimitMiddleware BUCKET_SIZE (Some userId) t rateLimitMap in
      let '(responses, m2) := requests BUCKET_SIZE userId rest m1 in
      (response :: responses, m2)
  end.

Definition passed (r : Response) : bool :=
  match r with
  | Next _ _ _ => true
  | _ => false
  end.

End AiRateLimit.

(** ** Vocabulary of the statements on keys *)

(** The character [c] occurs in [s]. *)
Fixpoint occurs (c : ascii) (s : string) : bool :=
  match s with
  | EmptyString => false
  | String c' s' => Ascii.eqb c' c || occurs c s'
  end.

(** An id without a colon: the room of a presence key can be read back
    from the key. *)
Definition colonFree (s : string) : Prop := occurs ":"%char s = false.

(** Every hash of the store is the presence hash of a room with such an
    id. *)
Definition presenceKeysOnly (r : Redis.t) : Prop :=
  ∀ key, is_Some (Redis.hashes r !! key) →
         ∃ room, key = Presence.roomKey room ∧ colonFree room.

(** [d], handed over to connection [socketId] at time [now]. *)
Definition handedOver (d : UserPresenceData) (socketId : string) (now : Z) : UserPresenceData :=
  {| upd_id := upd_id d; upd_name := upd_name d; upd_avatar := upd_avatar d;
     upd_socketId := socketId; upd_joinedAt := upd_joinedAt d; upd_lastActivity := now |}.

(** [d], seen alive at time [now]. *)
Definition seenAt (d : UserPresenceData) (now : Z) : UserPresenceData :=
  handedOver d (upd_socketId d) now.

(** ** Vocabulary of the statements on what a listener leaves alone *)

(** From [w] to [w'] nothing changed but, possibly, the outbox. *)
Definition sameState (w w' : World) : Prop :=
  w' = with_outbox (outbox w') w.

(** * Properties *)

(** ** The presence registry *)

Section PresenceFacts.
Implicit Types (r : Redis.t) (now : Z) (u room k : string).

Lemma set_hashes_twice h h' r :
  Redis.set_hashes h (Redis.set_hashes h' r) = Redis.set_hashes h r.
Proof. done. Qed.

Lemma hashes_set_hashes h r : Redis.hashes (Redis.set_hashes h r) = h.
Proof. done. Qed.

Lemma fieldsOf_set_hashes_same now k r :
  Redis.fieldsOf now k (Redis.set_hashes (Redis.hashes r) r) = Redis.fieldsOf now k r.
Proof. done. Qed.

Lemma fieldsOf_set_hashes_insert now k k' e h r :
  Redis.fieldsOf now k (Redis.set_hashes (<[k' := e]> h) r)
  = if decide (k' = k)
    then (if Redis.alive now (Redis.h_expireAt e) then Redis.h_fields e else ∅)
    else Redis.fieldsOf now k (Redis.set_hashes h r).
Proof.
  unfold Redis.fieldsOf, Redis.liveHash; simpl.
  destruct (decide (k' = k)) as [->|Hne].
  - rewrite lookup_insert_eq. by destruct (Redis.alive _ _).
  - by rewrite lookup_insert_ne.
Qed.

Lemma fieldsOf_set_hashes_delete now k k' h r :
  Redis.fieldsOf now k (Redis.set_hashes (delete k' h) r)
  = if decide (k' = k) then ∅ else Redis.fieldsOf now k (Redis.set_hashes h r).
Proof.
  unfold Redis.fieldsOf, Redis.liveHash; simpl.
  destruct (decide (k' = k)) as [->|Hne].
  - by rewrite lookup_delete_eq.
  - by rewrite lookup_delete_ne.
Qed.

Lemma liveHash_alive now k r e :
  Redis.liveHash now k r = Some e → Redis.alive now (Redis.h_expireAt e) = true.
Proof.
  unfold Redis.liveHash. destruct (Redis.hashes r !! k) as [h|]; [|done].
  destruct (Redis.alive now (Redis.h_expireAt h)) eqn:?; naive_solver.
Qed.

Lemma removeUserFromRoom_up now u room r :
  Redis.redis_up (Presence.removeUserFromRoom now u room r) = Redis.redis_up r.
Proof.
  unfold Presence.removeUserFromRoom, Redis.hDel, Redis.hLen, Redis.del.
  destruct (Redis.redis_up r) eqn:Hup; [|done].
  destruct (Redis.liveHash _ _ _); simpl; repeat case_bool_decide; simpl;
    rewrite ?Hup; simpl; repeat case_bool_decide; simpl; done.
Qed.

Lemma removeUserFromRoom_counters now u room r :
  Redis.counters (Presence.removeUserFromRoom now u room r) = Redis.counters r.
Proof.
  unfold Presence.removeUserFromRoom, Redis.hDel, Redis.hLen, Redis.del.
  destruct (Redis.redis_up r) eqn:Hup; [|done].
  destruct (Redis.liveHash _ _ _); simpl; repeat case_bool_decide; simpl;
    rewrite ?Hup; simpl; repeat case_bool_decide; simpl; done.
Qed.

(** Removing a user deletes one field of one hash and nothing else. *)
Lemma fieldsOf_removeUserFromRoom now u room r k :
  Redis.fieldsOf now k (Presence.removeUserFromRoom now u room r)
  = if Redis.redis_up r && bool_decide (k = Presence.roomKey room)
    then delete u (Redis.fieldsOf now k r)
    else Redis.fieldsOf now k r.
Proof.
  unfold Presence.removeUserFromRoom, Redis.hDel, Redis.hLen, Redis.del.
  destruct (Redis.redis_up r) eqn:Hup; [|done].
  cbn [andb].
  destruct (Redis.liveHash now (Presence.roomKey room) r) as [e|] eqn:Hlive.
  - pose proof (liveHash_alive _ _ _ _ Hlive) as Halive.
    assert (Hf : Redis.fieldsOf now (Presence.roomKey room) r = Redis.h_fields e).
    { unfold Redis.fieldsOf. by rewrite Hlive. }
    case_bool_decide as Hemp; cbn [Redis.redis_up Redis.set_hashes]; rewrite Hup.
    + rewrite fieldsOf_set_hashes_delete, decide_True by done.
      rewrite map_size_empty, bool_decide_eq_true_2 by done.
      rewrite set_hashes_twice, hashes_set_hashes, delete_delete_eq.
      rewrite fieldsOf_set_hashes_delete, fieldsOf_set_hashes_same.
      case_bool_decide as Hk; destruct (decide _); subst; try done.
      by rewrite Hf, Hemp.
    + rewrite fieldsOf_set_hashes_insert, decide_True by done.
      cbn [Redis.h_fields Redis.h_expireAt]. rewrite Halive.
      rewrite bool_decide_eq_false_2.
      2:{ intros Hs. apply map_size_empty_iff in Hs. done. }
      rewrite fieldsOf_set_hashes_insert, fieldsOf_set_hashes_same.
      cbn [Redis.h_fields Redis.h_expireAt]. rewrite Halive.
      case_bool_decide as Hk; destruct (decide _); subst; try done.
      by rewrite Hf.
  - cbn [Redis.redis_up]. rewrite Hup.
    assert (Hf : Redis.fieldsOf now (Presence.roomKey room) r = ∅).
    { unfold Redis.fieldsOf. by rewrite Hlive. }
    rewrite Hf, map_size_empty, bool_decide_eq_true_2 by done.
    rewrite fieldsOf_set_hashes_delete, fieldsOf_set_hashes_same.
    case_bool_decide as Hk; destruct (decide _); subst; try done.
    by rewrite Hf, delete_empty.
Qed.

End PresenceFacts.

Section Cleanup.
Implicit Types (r : Redis.t) (now : Z) (u sid room : string).

Lemma removedOnlyFor_refl now u sid r : removedOnlyFor now u sid r r.
Proof. intros k f. by left. Qed.

Lemma removedOnlyFor_trans now u sid r1 r2 r3 :
  removedOnlyFor now u sid r1 r2 → removedOnlyFor now u sid r2 r3 →
  removedOnlyFor now u sid r1 r3.
Proof.
  intros H12 H23 k f.
  destruct (H23 k f) as [Heq|(-> & d & Hd & Hsid & Hnone)].
  - rewrite Heq. apply H12.
  - destruct (H12 k u) as [Heq|(_ & d' & Hd' & Hsid' & Hnone')].
    + right. split; [done|]. exists d. by rewrite <-Heq.
    + congruence.
Qed.

Lemma removedOnlyFor_remove now u sid room r d :
  Redis.hGet now (Presence.roomKey room) u r = Some (Some d) →
  upd_socketId d = sid →
  removedOnlyFor now u sid r (Presence.removeUserFromRoom now u room r).
Proof.
  intros Hget Hsid k f. unfold presenceRecord.
  rewrite fieldsOf_removeUserFromRoom.
  unfold Redis.hGet in Hget.
  destruct (Redis.redis_up r); [|done]. cbn [andb].
  case_bool_decide as Hk; [|by left]. subst k.
  destruct (decide (f = u)) as [->|Hne].
  - right. split; [done|]. exists d. rewrite lookup_delete_eq. naive_solver.
  - left. by rewrite lookup_delete_ne.
Qed.

Lemma cleanup_loop_guard now u sid rooms r :
  JS.truthy sid = true →
  removedOnlyFor now u sid r (Presence.cleanup_loop now u (Some sid) rooms r).2.
Proof.
  intros Hsid. revert r.
  induction rooms as [|room rooms IH]; intros r; cbn [Presence.cleanup_loop].
  { apply removedOnlyFor_refl. }
  rewrite Hsid.
  destruct (Redis.hGet now (Presence.roomKey room) u r) as [[d|]|] eqn:Hget;
    [|apply IH|apply removedOnlyFor_refl].
  destruct (String.eqb (upd_socketId d) sid) eqn:Heq; [|apply IH].
  apply String.eqb_eq in Heq.
  eapply removedOnlyFor_trans; [|apply IH].
  by eapply removedOnlyFor_remove.
Qed.

(** [cleanupUserPresence] with a socket id removes a record only where
    the stored socket id is that id. *)
Lemma cleanupUserPresence_guard now u sid r :
  JS.truthy sid = true →
  removedOnlyFor now u sid r (Presence.cleanupUserPresence now u (Some sid) r).2.
Proof.
  intros Hsid. unfold Presence.cleanupUserPresence.
  pose proof (cleanup_loop_guard now u sid (Presence.getUserRooms now u r) r Hsid) as H.
  destruct (Presence.cleanup_loop _ _ _ _ _) as [[] r']; exact H.
Qed.

End Cleanup.

(** Projections of an updated world. *)
Ltac world_simpl :=
  cbn [redis planLimits mongo_up whiteboards rooms users messages updateRateLimit adapter
       outbox with_redis with_whiteboards with_messages with_updateRateLimit with_adapter
       with_outbox emit broadcast emit_room fst snd] in *.

Ltac up_simpl H := repeat (progress (world_simpl; rewrite ?H)).

(** ** Delivery *)

(** [socket.to(room)] never reaches the socket itself. *)
Lemma broadcast_skips_sender adapter room sender :
  sender ∉ SocketIO.recipients adapter (SocketIO.ToRoomExcept room sender).
Proof.
  cbn. rewrite elem_of_difference, elem_of_singleton. by intros [_ []].
Qed.

(** [io.to(room)] reaches every connection of the room. *)
Lemma emit_room_reaches_members adapter room socketId :
  socketId ∈ SocketIO.members adapter room →
  socketId ∈ SocketIO.recipients adapter (SocketIO.ToRoom room).
Proof. done. Qed.

Lemma emitted_app w w' l : outbox w' = outbox w ++ l → emitted w w' = l.
Proof. intros H. unfold emitted. by rewrite H, drop_app_length. Qed.

Section WhiteboardFacts.
Import SocketIO WhiteboardHandlers.
Implicit Types (socket : Socket) (w : World) (now : Z) (wb : WhiteboardModel.t).

Lemma checkWhiteboardAccess_granted socket roomId w :
  roomId ∈ roomsOf (sid socket) (adapter w) → mongo_up w = true →
  checkWhiteboardAccess socket roomId w = (true, w).
Proof.
  intros Hin Hup. unfold checkWhiteboardAccess, findOne.
  by rewrite bool_decide_eq_true_2, Hup.
Qed.

Lemma preSave_version now d :
  WhiteboardModel.version (WhiteboardModel.preSave now d)
  = WhiteboardModel.version (WhiteboardModel.doc d)
    + (if WhiteboardModel.modElements d || WhiteboardModel.modAppState d
          || WhiteboardModel.modFiles d then 1 else 0).
Proof.
  unfold WhiteboardModel.preSave.
  destruct (_ || _ || _); [|lia].
  destruct (_ && _); [|done].
  by case_bool_decide.
Qed.

Lemma preSave_elements now d :
  WhiteboardModel.elements (WhiteboardModel.preSave now d)
  = WhiteboardModel.elements (WhiteboardModel.doc d).
Proof.
  unfold WhiteboardModel.preSave.
  destruct (_ || _ || _); [|done].
  destruct (_ && _); [|done].
  by case_bool_decide.
Qed.

(** [save] goes through when the database answers and the document
    names a writer that casts to an [ObjectId]. *)
Lemma save_accepted now roomId d w u :
  mongo_up w = true →
  WhiteboardModel.lastModifiedBy (WhiteboardModel.doc d) = Some u →
  ObjectId.isValid u = true →
  save now roomId d w
  = Some (WhiteboardModel.preSave now d,
          with_whiteboards (<[roomId := WhiteboardModel.preSave now d]> (whiteboards w)) w).
Proof.
  intros Hup Hby Hid. unfold save, WhiteboardModel.validate. by rewrite Hup, Hby, Hid.
Qed.

Lemma elementCreate_accepted socket data now w u wb :
  userId socket = Some u →
  ObjectId.isValid u = true →
  ed_roomId data ∈ roomsOf (sid socket) (adapter w) →
  mongo_up w = true →
  whiteboards w !! ed_roomId data = Some wb →
  ∃ wb',
    elementCreate socket (Some data) now w
    = (socket,
       broadcast socket (ed_roomId data) "element-created"
         (PElementCreated (ed_roomId data) (stamp (ed_element data) u now) u
            (WhiteboardModel.version wb + 2))
         (with_whiteboards (<[ed_roomId data := wb']> (whiteboards w)) w))
    ∧ WhiteboardModel.version wb' = WhiteboardModel.version wb + 2
    ∧ WhiteboardModel.elements wb'
      = WhiteboardModel.elements wb ++ [stamp (ed_element data) u now].
Proof.
  intros Hu Hid Hin Hup Hwb. unfold elementCreate.
  rewrite Hu, checkWhiteboardAccess_granted by done.
  unfold findOne. rewrite Hup, Hwb.
  rewrite (save_accepted _ _ _ _ u) by done.
  match goal with
  | |- context [WhiteboardModel.preSave now ?d] =>
      assert (Hv : WhiteboardModel.version (WhiteboardModel.preSave now d)
                   = WhiteboardModel.version wb + 2)
        by (rewrite preSave_version; simpl; lia);
      assert (He : WhiteboardModel.elements (WhiteboardModel.preSave now d)
                   = WhiteboardModel.elements wb ++ [stamp (ed_element data) u now])
        by (by rewrite preSave_elements);
      set (saved := WhiteboardModel.preSave now d) in *; clearbody saved
  end.
  rewrite Hv. by exists saved.
Qed.

(** *** The snapshot list *)

Lemma slice_last_length {A} n (l : list A) :
  length (JS.slice_last n l) = Nat.min n (length l).
Proof. unfold JS.slice_last. rewrite length_drop. lia. Qed.

(** The hook never leaves more than 50 snapshots behind. *)
Lemma preSave_snapshots_bound now d :
  (length (WhiteboardModel.snapshots (WhiteboardModel.doc d)) ≤ 50)%nat →
  (length (WhiteboardModel.snapshots (WhiteboardModel.preSave now d)) ≤ 50)%nat.
Proof.
  intros Hb. unfold WhiteboardModel.preSave.
  destruct (_ || _ || _); [|done].
  destruct (_ && _); [|done].
  case_bool_decide; cbn [WhiteboardModel.snapshots WhiteboardModel.with_snapshots].
  - rewrite slice_last_length. lia.
  - lia.
Qed.

(** Nor does [createSnapshot], whatever the list was before. *)
Lemma createSnapshot_bound now room els a f u coll :
  (length (WhiteboardModel.snapshots
             (WhiteboardModel.createSnapshot now room els a f u coll).1) ≤ 50)%nat.
Proof.
  unfold WhiteboardModel.createSnapshot, WhiteboardModel.push_slice.
  destruct (coll !! room); cbn [fst WhiteboardModel.snapshots WhiteboardModel.with_snapshots];
    rewrite slice_last_length; lia.
Qed.

(** Onto a list of 50 a push drops the oldest entry. *)
Lemma push_slice_evicts_oldest s oldest l :
  length (oldest :: l) = 50%nat →
  WhiteboardModel.push_slice s (oldest :: l) = l ++ [s].
Proof.
  intros Hlen. unfold WhiteboardModel.push_slice, JS.slice_last.
  rewrite length_app, Hlen. by cbn.
Qed.

(** *** The minimum interval of [whiteboard-update] *)



Lemma whiteboardUpdate_accepted socket data now w u :
  userId socket = Some u →
  ObjectId.isValid u = true →
  ud_roomId data ∈ roomsOf (sid socket) (adapter w) →
  mongo_up w = true →
  100 ≤ now - default 0 (updateRateLimit w !! updateKey u (ud_roomId data)) →
  ∃ saved w',
    whiteboardUpdate socket (Some data) now w
    = (socket,
       broadcast socket (ud_roomId data) "whiteboard-updated"
         (PWhiteboardUpdated (ud_roomId data) (ud_elements data) (ud_appState data)
            (default emptyObject (ud_files data)) (WhiteboardModel.version saved) u
            (sid socket) (length (ud_elements data))) w')
    ∧ whiteboards w' = <[ud_roomId data := saved]> (whiteboards w)
    ∧ updateRateLimit w' = <[updateKey u (ud_roomId data) := now]> (updateRateLimit w)
    ∧ adapter w' = adapter w ∧ mongo_up w' = true ∧ redis w' = redis w
    ∧ outbox w' = outbox w.
Proof.
  intros Hu Hid Hin Hup Hge. unfold whiteboardUpdate.
  rewrite Hu, checkWhiteboardAccess_granted by done.
  rewrite bool_decide_eq_false_2 by lia.
  unfold findOne. cbn [mongo_up with_updateRateLimit whiteboards].
  rewrite Hup.
  destruct (whiteboards w !! ud_roomId data) as [wb|] eqn:Hwb.
  - rewrite (save_accepted _ _ _ _ u) by done.
    eexists _, _. split; [reflexivity|]. by cbn.
  - rewrite (save_accepted _ _ _ _ u) by done.
    rewrite (save_accepted _ _ _ _ u) by done.
    eexists _, _. split; [reflexivity|]. cbn.
    by rewrite insert_insert_eq.
Qed.


(** *** Requests for an element that is not on the board *)





(** *** The version counter across one write *)

(** A write leaves the version of an existing document alone, or adds
    one or two to it. *)
Lemma dispatch_version_step m socket now w wb :
  whiteboards w !! mutationRoom m = Some wb →
  ∃ wb', whiteboards (dispatch m socket now w).2 !! mutationRoom m = Some wb'
         ∧ (WhiteboardModel.version wb' = WhiteboardModel.version wb
            ∨ WhiteboardModel.version wb' = WhiteboardModel.version wb + 1
            ∨ WhiteboardModel.version wb' = WhiteboardModel.version wb + 2).
Proof.
  intros Hwb.
  destruct m as [d|d|d|d]; cbn [dispatch mutationRoom] in *.
  - unfold whiteboardUpdate, checkWhiteboardAccess, findOne, save.
    destruct (userId socket) as [u|]; [|by eauto].
    case_bool_decide; [|by eauto].
    destruct (mongo_up w) eqn:Hup; [|by eauto]. world_simpl.
    case_bool_decide; [by eauto|]. up_simpl Hup.
    rewrite Hwb. up_simpl Hup. cbn [andb].
    destruct (WhiteboardModel.validate _); [|by eauto]. world_simpl.
    eexists; split; [apply lookup_insert_eq|].
    rewrite preSave_version. cbn. destruct (_ || _ || _); lia.
  - unfold elementCreate, checkWhiteboardAccess, findOne, save.
    destruct (userId socket) as [u|]; [|by eauto].
    case_bool_decide; [|by eauto].
    destruct (mongo_up w) eqn:Hup; [|by eauto]. up_simpl Hup.
    rewrite Hwb. up_simpl Hup. cbn [andb].
    destruct (WhiteboardModel.validate _); [|by eauto]. world_simpl.
    eexists; split; [apply lookup_insert_eq|].
    rewrite preSave_version. cbn. lia.
  - unfold elementUpdate, checkWhiteboardAccess, findOne, save.
    destruct (userId socket) as [u|]; [|by eauto].
    case_bool_decide; [|by eauto].
    destruct (mongo_up w) eqn:Hup; [|by eauto]. up_simpl Hup.
    rewrite Hwb. destruct (findIndex _ _); [|by eauto]. up_simpl Hup. cbn [andb].
    destruct (WhiteboardModel.validate _); [|by eauto]. world_simpl.
    eexists; split; [apply lookup_insert_eq|].
    rewrite preSave_version. cbn. lia.
  - unfold elementDelete, checkWhiteboardAccess, findOne, save.
    destruct (userId socket) as [u|]; [|by eauto].
    case_bool_decide; [|by eauto].
    destruct (mongo_up w) eqn:Hup; [|by eauto]. up_simpl Hup.
    rewrite Hwb. up_simpl Hup. cbn [andb].
    destruct (WhiteboardModel.validate _); [|by eauto]. world_simpl.
    eexists; split; [apply lookup_insert_eq|].
    rewrite preSave_version. cbn. destruct (_ || _ || _); lia.
Qed.

End WhiteboardFacts.

(** Closed membership facts of the samples. *)
Ltac by_compute := apply (bool_decide_unpack _); vm_compute; exact I.

Section WhiteboardClaims.
Import SocketIO WhiteboardHandlers.

(** C1.  The claim: every accepted whiteboard mutation increments the
    document's version by exactly 1.  The code: the [element-create]
    listener adds 1 itself and the pre-save hook adds 1 again, so an
    accepted [element-create] on an existing document moves the version
    from [v] to [v + 2].  The writer is a stored user, whose id casts
    to an [ObjectId]; the write of an anonymous connection does not
    pass validation and is not accepted. *)
Theorem element_create_adds_two_to_version socket data now w u wb :
  userId socket = Some u →
  ObjectId.isValid u = true →
  ed_roomId data ∈ roomsOf (sid socket) (adapter w) →
  mongo_up w = true →
  whiteboards w !! ed_roomId data = Some wb →
  versionOf (ed_roomId data) (elementCreate socket (Some data) now w).2
  = Some (WhiteboardModel.version wb + 2)
  ∧ ∃ e, emitted w (elementCreate socket (Some data) now w).2 = [e]
         ∧ event e = "element-created".
Proof.
  intros Hu Hid Hin Hup Hwb.
  destruct (elementCreate_accepted socket data now w u wb Hu Hid Hin Hup Hwb)
    as (wb' & -> & Hv & _).
  split.
  - unfold versionOf. world_simpl. by rewrite lookup_insert_eq; cbn; rewrite Hv.
  - eexists. unfold emitted. world_simpl. by rewrite drop_app_length.
Qed.

Lemma element_create_adds_two_to_version_witness :
  versionOf Sample.roomR
    (elementCreate Sample.s1
       (Some {| ed_roomId := Sample.roomR; ed_element := Sample.elementNo 0 |})
       1000 (Sample.editing 1 [])).2
  = Some 3.
Proof.
  refine (proj1 (element_create_adds_two_to_version Sample.s1
            {| ed_roomId := Sample.roomR; ed_element := Sample.elementNo 0 |}
            1000 (Sample.editing 1 []) Sample.aliceId (Sample.board 1 []) _ _ _ _ _)).
  - reflexivity.
  - reflexivity.
  - by_compute.
  - reflexivity.
  - reflexivity.
Defined.







(** C8.  The claim: a snapshot is appended exactly when a mutation
    changes more than 10 elements.  The code tests the length of the
    element list instead: adding one element to a board of ten appends
    a snapshot, and clearing a board of twelve appends none. *)
Theorem snapshot_follows_board_size_not_change_size :
  let snapshotsOf w := length ∘ WhiteboardModel.snapshots <$> whiteboards w !! Sample.roomR in
  let added := stamp (Sample.elementNo 10) Sample.aliceId 1000 in
  let w1 := (elementCreate Sample.s1
               (Some {| ed_roomId := Sample.roomR; ed_element := Sample.elementNo 10 |})
               1000 (Sample.editing 1 (Sample.elementsUpTo 10))).2 in
  let w2 := (whiteboardUpdate Sample.s1
               (Some {| ud_roomId := Sample.roomR; ud_elements := [];
                        ud_appState := emptyObject; ud_files := None |})
               1000 (Sample.editing 1 (Sample.elementsUpTo 12))).2 in
  (Spec.elementsChanged (Sample.elementsUpTo 10) (Sample.elementsUpTo 10 ++ [added]) = 1%nat
   ∧ snapshotsOf (Sample.editing 1 (Sample.elementsUpTo 10)) = Some 0%nat
   ∧ snapshotsOf w1 = Some 1%nat)
  ∧ (Spec.elementsChanged (Sample.elementsUpTo 12) [] = 12%nat
     ∧ versionOf Sample.roomR w2 = Some 3
     ∧ snapshotsOf w2 = Some 0%nat).
Proof. vm_compute. done. Qed.

End WhiteboardClaims.

(** ** The rate limiter and its listeners, as they are registered *)

Ltac async_simpl :=
  unfold Async.emit, Async.to_emit, Async.join, Async.leave, Async.setCurrentRoom,
    Async.method, Async.socketData, Async.identity, Async.isAnonymous, Async.bind,
    Async.ret, Async.throw, Async.tryCatch, Async.read, Async.write, Async.query,
    Async.command in *;
  cbn [fst snd] in *.

Section RegisteredFacts.
Import SocketIO SocketRateLimit.
Implicit Types (socket : Socket) (w : World) (now : Z).

Lemma onlyCounted_refl w : onlyCounted w w.
Proof. unfold onlyCounted. by destruct w as [[] ? ? ? ? ? ? ? ? ?]. Qed.

Lemma onlyCounted_outbox w w' : onlyCounted w w' → outbox w' = outbox w.
Proof. by intros ->. Qed.

Lemma onlyCounted_hashes w w' :
  onlyCounted w w' → Redis.hashes (redis w') = Redis.hashes (redis w).
Proof. by intros ->. Qed.

Lemma onlyCounted_adapter w w' : onlyCounted w w' → adapter w' = adapter w.
Proof. by intros ->. Qed.

Lemma onlyCounted_emitted w w' : onlyCounted w w' → emitted w w' = [].
Proof. intros H. unfold emitted. rewrite (onlyCounted_outbox _ _ H). by rewrite drop_all. Qed.

Lemma onlyCounted_fieldsOf now key w w' :
  onlyCounted w w' → Redis.fieldsOf now key (redis w') = Redis.fieldsOf now key (redis w).
Proof. by intros ->. Qed.

(** The limiter on a plain object: whatever the count, the event goes
    on to the handler.  Over the limit, [socket.emit] is not a
    function, the [catch] takes over and calls the handler. *)
Lemma limiter_on_plain_object {D} (handler : Wrapped D) N W eventName data now w :
  ∃ w1,
    createSocketRateLimiter (options N W) eventName handler data now
      (PlainObject, w)
    = handler data now (PlainObject, w1)
    ∧ onlyCounted w w1
    ∧ (∀ key, key ≠ "ratelimit:socket:anonymous:" +:+ eventName →
              Redis.counters (redis w1) !! key = Redis.counters (redis w) !! key)
    ∧ (Redis.redis_up (redis w) = true → 0 ≤ W →
       countOf now ("ratelimit:socket:anonymous:" +:+ eventName) w1
       = Some (default 0 (countOf now ("ratelimit:socket:anonymous:" +:+ eventName) w) + 1)).
Proof.
  unfold createSocketRateLimiter, options, defaultKey, incr, pExpire.
  cbn [skipAnonymous keyGenerator SocketRateLimit.maxRequests windowMs]. async_simpl.
  change ("ratelimit:socket:" +:+ default "anonymous" None +:+ ":" +:+ eventName)
    with ("ratelimit:socket:anonymous:" +:+ eventName).
  set (key := "ratelimit:socket:anonymous:" +:+ eventName).
  unfold Redis.incr, Redis.pExpire, countOf.
  destruct (Redis.redis_up (redis w)) eqn:Hup.
  2:{ exists w. split; [done|]. split; [apply onlyCounted_refl|]. by split. }
  cbn [redis with_redis Redis.redis_up Redis.set_counters].
  set (c := match Redis.liveCounter now key (redis w) with
            | Some c => {| Redis.c_value := Redis.c_value c + 1;
                           Redis.c_expireAt := Redis.c_expireAt c |}
            | None => {| Redis.c_value := 1; Redis.c_expireAt := None |}
            end).
  assert (Hc : Redis.c_value c
               = default 0 (Redis.c_value <$> Redis.liveCounter now key (redis w)) + 1).
  { subst c. by destruct (Redis.liveCounter now key (redis w)). }
  assert (Halive : Redis.alive now (Redis.c_expireAt c) = true).
  { subst c. unfold Redis.liveCounter.
    destruct (Redis.counters (redis w) !! key) as [c0|]; [|done].
    by destruct (Redis.alive now (Redis.c_expireAt c0)) eqn:Ha. }
  assert (Hlive : Redis.liveCounter now key
                    (Redis.set_counters (<[key := c]> (Redis.counters (redis w))) (redis w))
                  = Some c).
  { unfold Redis.liveCounter. cbn [Redis.counters Redis.set_counters].
    by rewrite lookup_insert_eq, Halive. }
  destruct (bool_decide (Redis.c_value c = 1)) eqn:Hone.
  - cbn [fst snd redis with_redis Redis.redis_up Redis.set_counters].
    rewrite Hup, Hlive. cbn [fst snd].
    eexists. split.
    { destruct (bool_decide (N < Redis.c_value c)); reflexivity. }
    split; [by destruct w as [[] ? ? ? ? ? ? ? ? ?]|]. split.
    + intros key' Hne. cbn [redis with_redis Redis.counters Redis.set_counters].
      by rewrite !lookup_insert_ne by done.
    + intros _ HW. rewrite <-Hc. unfold Redis.liveCounter.
      cbn [redis with_redis Redis.counters Redis.set_counters].
      rewrite lookup_insert_eq. cbn [Redis.c_expireAt Redis.alive Redis.c_value].
      by rewrite bool_decide_eq_true_2 by lia.
  - cbn [fst snd]. eexists. split.
    { destruct (bool_decide (N < Redis.c_value c)); reflexivity. }
    split; [by destruct w as [[] ? ? ? ? ? ? ? ? ?]|]. split.
    + intros key' Hne. cbn [redis with_redis Redis.counters Redis.set_counters].
      by rewrite lookup_insert_ne by done.
    + intros _ _. rewrite <-Hc. cbn [redis with_redis]. by rewrite Hlive.
Qed.

(** The limiter on [undefined]: reading [socket.data] throws, and the
    [catch] calls the handler; nothing is counted. *)
Lemma limiter_on_undefined {D} (handler : Wrapped D) N W eventName data now w :
  createSocketRateLimiter (options N W) eventName handler data now (Undefined, w)
  = handler data now (Undefined, w).
Proof. reflexivity. Qed.

(** What [socket.on] makes of a limited listener: the handler, called
    on the payload, in a world in which at most the counter of the
    event has moved. *)
Lemma on_limited {D} (handler : Wrapped D) N W eventName socket payload now w :
  ∃ w1,
    on (createSocketRateLimiter (options N W) eventName handler) socket payload now w
    = on handler socket payload now w1
    ∧ onlyCounted w w1
    ∧ (∀ key, key ≠ "ratelimit:socket:anonymous:" +:+ eventName →
              Redis.counters (redis w1) !! key = Redis.counters (redis w) !! key)
    ∧ (is_Some payload → Redis.redis_up (redis w) = true → 0 ≤ W →
       countOf now ("ratelimit:socket:anonymous:" +:+ eventName) w1
       = Some (default 0 (countOf now ("ratelimit:socket:anonymous:" +:+ eventName) w) + 1)).
Proof.
  unfold on. destruct payload as [payload|].
  - destruct (limiter_on_plain_object handler N W eventName None now w)
      as (w1 & -> & Hcounted & Hkeys & Hcount).
    exists w1. split; [done|]. split; [done|]. split; [done|]. intros _. apply Hcount.
  - rewrite limiter_on_undefined. exists w.
    split; [done|]. split; [apply onlyCounted_refl|]. split; [done|].
    by intros [? [=]].
Qed.

End RegisteredFacts.

Section RegisteredListeners.
Import SocketIO SocketRateLimit RoomHandlers.
Implicit Types (socket : Socket) (w : World) (now : Z).

(** The handlers of room.handler.ts on a payload.  Their second
    parameter is [undefined]; they turn to [socket.emit] to say so,
    which is not a function, and the [catch] does the same. *)
Lemma joinRoomHandler_on_payload socket payload now w :
  on joinRoomHandler socket payload now w = (socket, w, Async.Throws).
Proof. by destruct payload. Qed.


Lemma getRoomUsersHandler_on_payload socket payload now w :
  on getRoomUsersHandler socket payload now w = (socket, w, Async.Throws).
Proof. by destruct payload. Qed.

Lemma requestRoomUsersHandler_on_payload socket payload now w :
  on requestRoomUsersHandler socket payload now w = (socket, w, Async.Throws).
Proof. by destruct payload. Qed.


Lemma on_limited_ends {D} (handler : Wrapped D) N W eventName c socket payload now w :
  0 ≤ W →
  (∀ w1, on handler socket payload now w1 = (socket, w1, c)) →
  countsAndEnds eventName c socket (bool_decide (is_Some payload)) now w
    (on (createSocketRateLimiter (options N W) eventName handler) socket payload now w).
Proof.
  intros HW Hhandler.
  destruct (on_limited handler N W eventName socket payload now w)
    as (w1 & -> & Hcounted & Hkeys & Hcount).
  rewrite Hhandler. unfold countsAndEnds. cbn [fst snd].
  split_and!; try done. intros Hsent Hup. apply Hcount; try done.
  by apply bool_decide_eq_true in Hsent.
Qed.

Lemma onJoinRoom_run socket payload now w :
  countsAndEnds "join-room" Async.Throws socket (bool_decide (is_Some payload)) now w
    (onJoinRoom socket payload now w).
Proof. apply on_limited_ends; [done|]. intros. apply joinRoomHandler_on_payload. Qed.



Lemma onGetRoomUsers_run socket payload now w :
  countsAndEnds "get-room-users" Async.Throws socket (bool_decide (is_Some payload)) now w
    (onGetRoomUsers socket payload now w).
Proof. apply on_limited_ends; [done|]. intros. apply getRoomUsersHandler_on_payload. Qed.

Lemma onRequestRoomUsers_run socket payload now w :
  countsAndEnds "request-room-users" Async.Throws socket (bool_decide (is_Some payload))
    now w (onRequestRoomUsers socket payload now w).
Proof.
  apply on_limited_ends; [done|]. intros. apply requestRoomUsersHandler_on_payload.
Qed.

End RegisteredListeners.

Section PresenceSamples.
Import SocketIO.

Example getUserRooms_sample :
  Presence.getUserRooms 1000 Sample.aliceId (redis (Sample.editing 1 [])) = [Sample.roomR]
  ∧ Presence.getUserRooms 1000 Sample.carolId (redis (Sample.editing 1 [])) = [].
Proof. vm_compute. done. Qed.

Example split_sample :
  JS.split ":" "room:65000000000000000000a001:users"
  = ["room"; "65000000000000000000a001"; "users"]
  ∧ Redis.matchesRoomUsers "room:65000000000000000000a001:users" = true
  ∧ Redis.matchesRoomUsers "ratelimit:socket:anonymous:join-room" = false
  ∧ Redis.matchesRoomUsers "room:users" = false.
Proof. vm_compute. done. Qed.

End PresenceSamples.

(** ** Rooms: who is listed *)

Section RoomFacts.
Import SocketIO.
Implicit Types (socket : Socket) (w : World) (now : Z) (r : Redis.t) (u room : string).

Lemma isUserInRoom_spec now u room r :
  Presence.isUserInRoom now u room r
  = Redis.redis_up r
    && bool_decide (is_Some (presenceRecord now r (Presence.roomKey room) u)).
Proof.
  unfold Presence.isUserInRoom, Redis.hExists, presenceRecord.
  by destruct (Redis.redis_up r).
Qed.

Lemma isUserInRoom_absent now u room r :
  presenceRecord now r (Presence.roomKey room) u = None →
  Presence.isUserInRoom now u room r = false.
Proof.
  intros Hnone. rewrite isUserInRoom_spec, Hnone.
  rewrite bool_decide_eq_false_2 by (by intros [? ?]). by destruct (Redis.redis_up r).
Qed.

Lemma isUserInRoom_present now u room r d :
  Redis.redis_up r = true →
  presenceRecord now r (Presence.roomKey room) u = Some d →
  Presence.isUserInRoom now u room r = true.
Proof.
  intros Hup Hsome. rewrite isUserInRoom_spec, Hup, Hsome.
  by rewrite bool_decide_eq_true_2 by eauto.
Qed.

(** In a list of pairs with distinct keys a key that occurs, occurs once. *)
Lemma count_key {A} (l : list (string * A)) k x :
  NoDup l.*1 → (k, x) ∈ l → length (filter (λ p, p.1 = k) l) = 1%nat.
Proof.
  induction l as [|[k' x'] l IH]; intros Hnd Hin; [by apply elem_of_nil in Hin|].
  cbn in Hnd. apply NoDup_cons in Hnd as [Hfresh Hnd].
  apply elem_of_cons in Hin as [[= <- <-]|Hin].
  - rewrite filter_cons_True by done. cbn. f_equal.
    destruct (filter (λ p, p.1 = k) l) as [|[k2 x2] rest] eqn:Hrest; [done|].
    assert (Hin2 : (k2, x2) ∈ filter (λ p, p.1 = k) l) by (rewrite Hrest; left).
    apply list_elem_of_filter in Hin2 as [Hk2 Hin2]. cbn in Hk2. subst k2.
    destruct Hfresh. apply list_elem_of_fmap. by exists (k, x2).
  - rewrite filter_cons_False; [by apply IH|].
    cbn. intros ->. apply Hfresh. apply list_elem_of_fmap. by exists (k, x).
Qed.

Lemma length_filter_map {A B} (f : A → B) (P : B → Prop) `{!∀ y, Decision (P y)}
    (l : list A) :
  length (filter P (map f l)) = length (filter (λ x, P (f x)) l).
Proof.
  induction l as [|x l IH]; [done|]. cbn [map].
  destruct (decide (P (f x))).
  - rewrite !filter_cons_True by done. cbn. by rewrite IH.
  - rewrite !filter_cons_False by done. done.
Qed.

(** One identity, one entry of the room's user list. *)
Lemma getUsersInRoom_one_entry now u room r d :
  Redis.redis_up r = true →
  presenceRecord now r (Presence.roomKey room) u = Some d →
  length (filter (λ p, upd_id p = u) (Presence.getUsersInRoom now room r)) = 1%nat.
Proof.
  intros Hup Hsome. unfold Presence.getUsersInRoom, Redis.hGetAll. rewrite Hup.
  rewrite length_filter_map.
  rewrite <-(count_key (map_to_list (Redis.fieldsOf now (Presence.roomKey room) r)) u d).
  - f_equal. apply list_filter_iff. by intros [k x].
  - apply NoDup_fst_map_to_list.
  - by apply elem_of_map_to_list.
Qed.

Lemma getUsersInRoom_fields now room r r' :
  Redis.redis_up r' = Redis.redis_up r →
  Redis.fieldsOf now (Presence.roomKey room) r' = Redis.fieldsOf now (Presence.roomKey room) r →
  Presence.getUsersInRoom now room r' = Presence.getUsersInRoom now room r.
Proof. intros Hup Hf. unfold Presence.getUsersInRoom, Redis.hGetAll. by rewrite Hup, Hf. Qed.

End RoomFacts.

(** ** Who receives what *)

Section Emissions.
Import SocketIO.
Context (P : Emission → Prop).

Lemma emitsOnly_refl w : emitsOnly P w w.
Proof. exists []. by rewrite app_nil_r. Qed.

Lemma emitsOnly_same w w1 w2 :
  outbox w2 = outbox w1 → emitsOnly P w w1 → emitsOnly P w w2.
Proof. intros Ho (l & Hl & HP). exists l. by rewrite Ho. Qed.

Lemma emitsOnly_emit socket ev p w w1 :
  P {| target := ToSocket (sid socket); event := ev; payload := p |} →
  emitsOnly P w w1 → emitsOnly P w (emit socket ev p w1).
Proof.
  intros He (l & Hl & HP). eexists (l ++ [_]). world_simpl.
  rewrite Hl, <-app_assoc. split; [done|]. apply Forall_app. by split; [|constructor].
Qed.

Lemma emitsOnly_broadcast socket room ev p w w1 :
  P {| target := ToRoomExcept room (sid socket); event := ev; payload := p |} →
  emitsOnly P w w1 → emitsOnly P w (broadcast socket room ev p w1).
Proof.
  intros He (l & Hl & HP). eexists (l ++ [_]). world_simpl.
  rewrite Hl, <-app_assoc. split; [done|]. apply Forall_app. by split; [|constructor].
Qed.

Lemma emitsOnly_emitted w w' e :
  emitsOnly P w w' → e ∈ emitted w w' → P e.
Proof.
  intros (l & Hl & HP) He. unfold emitted in He. rewrite Hl, drop_app_length in He.
  by eapply Forall_forall in HP.
Qed.

End Emissions.

(** A concrete emission against a concrete list of event names. *)
Ltac excluded :=
  let H := fresh in
  intros H; first
    [ eexists; reflexivity
    | exfalso; repeat (apply elem_of_cons in H as [H|H]; [discriminate H|]);
      by apply elem_of_nil in H ].

Ltac emissions :=
  repeat first
    [ apply emitsOnly_refl
    | apply emitsOnly_emit; [excluded|]
    | apply emitsOnly_broadcast; [excluded|]
    | eapply emitsOnly_same; [reflexivity|] ].

Ltac up_proj H :=
  repeat (progress
            (cbn [redis planLimits mongo_up whiteboards rooms users messages updateRateLimit
                  adapter outbox with_redis with_whiteboards with_messages
                  with_updateRateLimit with_adapter with_outbox fst snd] in *;
             rewrite ?H)).

Section DeliveryFacts.
Import SocketIO.

Lemma checkWhiteboardAccess_emitsOnly socket names roomId w
    (Hnames : "error" ∉ names) :
  emitsOnly (excludesSender socket names) w
    (WhiteboardHandlers.checkWhiteboardAccess socket roomId w).2.
Proof.
  unfold WhiteboardHandlers.checkWhiteboardAccess.
  case_bool_decide; [destruct (WhiteboardHandlers.findOne _ _)|]; cbn [snd];
    try apply emitsOnly_refl;
    (apply emitsOnly_emit; [intros Hin; by destruct Hnames|apply emitsOnly_refl]).
Qed.

Lemma dispatch_emitsOnly m socket now w :
  emitsOnly (excludesSender socket whiteboardEvents) w
    (WhiteboardHandlers.dispatch m socket now w).2.
Proof.
  assert (Herror : "error" ∉ whiteboardEvents).
  { intros H. repeat (apply elem_of_cons in H as [H|H]; [discriminate H|]).
    by apply elem_of_nil in H. }
  destruct m as [d|d|d|d]; cbn [WhiteboardHandlers.dispatch].
  - unfold WhiteboardHandlers.whiteboardUpdate.
    destruct (userId socket) as [u|]; [|cbn; emissions].
    pose proof (checkWhiteboardAccess_emitsOnly socket whiteboardEvents
                  (WhiteboardHandlers.ud_roomId d) w Herror) as Hacc.
    destruct (WhiteboardHandlers.checkWhiteboardAccess _ _ _) as [[] w1]; cbn [snd] in *;
      [|done].
    case_bool_decide; cbn [snd]; [apply emitsOnly_emit; [excluded|done]|].
    unfold WhiteboardHandlers.findOne, WhiteboardHandlers.save.
    destruct (mongo_up w1) eqn:Hup; up_proj Hup; cbn [andb];
      [|apply emitsOnly_emit; [excluded|]; by eapply emitsOnly_same].
    destruct (whiteboards w1 !! _); up_proj Hup; cbn [andb];
      repeat (destruct (WhiteboardModel.validate _); up_proj Hup; cbn [andb]);
      first [ apply emitsOnly_broadcast; [excluded|]; by eapply emitsOnly_same
            | apply emitsOnly_emit; [excluded|]; by eapply emitsOnly_same ].
  - unfold WhiteboardHandlers.elementCreate.
    destruct (userId socket) as [u|]; [|cbn; emissions].
    pose proof (checkWhiteboardAccess_emitsOnly socket whiteboardEvents
                  (WhiteboardHandlers.ed_roomId d) w Herror) as Hacc.
    destruct (WhiteboardHandlers.checkWhiteboardAccess _ _ _) as [[] w1]; cbn [snd] in *;
      [|done].
    unfold WhiteboardHandlers.findOne, WhiteboardHandlers.save.
    destruct (mongo_up w1); [|cbn [snd]; apply emitsOnly_emit; [excluded|done]].
    destruct (whiteboards w1 !! _); cbn [snd]; [|done]. cbn [andb].
    destruct (WhiteboardModel.validate _); cbn [snd];
      [|apply emitsOnly_emit; [excluded|done]].
    apply emitsOnly_broadcast; [excluded|]; by eapply emitsOnly_same.
  - unfold WhiteboardHandlers.elementUpdate.
    destruct (userId socket) as [u|]; [|cbn; emissions].
    pose proof (checkWhiteboardAccess_emitsOnly socket whiteboardEvents
                  (WhiteboardHandlers.ed_roomId d) w Herror) as Hacc.
    destruct (WhiteboardHandlers.checkWhiteboardAccess _ _ _) as [[] w1]; cbn [snd] in *;
      [|done].
    unfold WhiteboardHandlers.findOne, WhiteboardHandlers.save.
    destruct (mongo_up w1); [|cbn [snd]; apply emitsOnly_emit; [excluded|done]].
    destruct (whiteboards w1 !! _); cbn [snd]; [|done].
    destruct (WhiteboardHandlers.findIndex _ _); cbn [snd]; [|done]. cbn [andb].
    destruct (WhiteboardModel.validate _); cbn [snd];
      [|apply emitsOnly_emit; [excluded|done]].
    apply emitsOnly_broadcast; [excluded|]; by eapply emitsOnly_same.
  - unfold WhiteboardHandlers.elementDelete.
    destruct (userId socket) as [u|]; [|cbn; emissions].
    pose proof (checkWhiteboardAccess_emitsOnly socket whiteboardEvents
                  (WhiteboardHandlers.dd_roomId d) w Herror) as Hacc.
    destruct (WhiteboardHandlers.checkWhiteboardAccess _ _ _) as [[] w1]; cbn [snd] in *;
      [|done].
    unfold WhiteboardHandlers.findOne, WhiteboardHandlers.save.
    destruct (mongo_up w1); [|cbn [snd]; apply emitsOnly_emit; [excluded|done]].
    destruct (whiteboards w1 !! _); cbn [snd]; [|done]. cbn [andb].
    destruct (WhiteboardModel.validate _); cbn [snd];
      [|apply emitsOnly_emit; [excluded|done]].
    apply emitsOnly_broadcast; [excluded|]; by eapply emitsOnly_same.
Qed.

End DeliveryFacts.

(** ** What a body emits when it runs on a connection *)

Section LeavesOutSender.
Import SocketIO.
Context (names : list string).

Lemma emitsOnly_trans P w w1 w2 : emitsOnly P w w1 → emitsOnly P w1 w2 → emitsOnly P w w2.
Proof.
  intros (l1 & H1 & HP1) (l2 & H2 & HP2). exists (l1 ++ l2).
  rewrite H2, H1, <-app_assoc. split; [done|]. by apply Forall_app.
Qed.

Lemma excludesSender_sid socket socket' e :
  sid socket' = sid socket → excludesSender socket' names e → excludesSender socket names e.
Proof. unfold excludesSender. by intros <-. Qed.

Lemma emitsOnly_sid socket socket' w w' :
  sid socket' = sid socket →
  emitsOnly (excludesSender socket' names) w w' → emitsOnly (excludesSender socket names) w w'.
Proof.
  intros Hsid (l & Hl & HP). exists l. split; [done|].
  eapply Forall_impl; [done|]. intros e. by apply excludesSender_sid.
Qed.

Lemma leavesOutSender_ret {A} (a : A) : leavesOutSender names (Async.ret a).
Proof. intros socket w. split; [apply emitsOnly_refl|by eexists]. Qed.

Lemma leavesOutSender_throw {A} : leavesOutSender names (@Async.throw A).
Proof. intros socket w. split; [apply emitsOnly_refl|by eexists]. Qed.

Lemma leavesOutSender_bind {A B} (m : Async.t A) (k : A → Async.t B) :
  leavesOutSender names m → (∀ a, leavesOutSender names (k a)) →
  leavesOutSender names (Async.bind m k).
Proof.
  intros Hm Hk socket w. destruct (Hm socket w) as (Hem & socket1 & Hs1 & Hsid1).
  unfold Async.bind. destruct (m (Connection socket, w)) as [[a|] [r1 w1]]; cbn [fst snd] in *.
  - subst r1. destruct (Hk a socket1 w1) as (Hek & socket2 & Hs2 & Hsid2).
    split.
    + eapply emitsOnly_trans; [done|]. by eapply emitsOnly_sid.
    + exists socket2. split; [done|]. by rewrite Hsid2.
  - split; [done|]. by exists socket1.
Qed.

Lemma leavesOutSender_tryCatch {A} (body handler : Async.t A) :
  leavesOutSender names body → leavesOutSender names handler →
  leavesOutSender names (Async.tryCatch body handler).
Proof.
  intros Hm Hk socket w. destruct (Hm socket w) as (Hem & socket1 & Hs1 & Hsid1).
  unfold Async.tryCatch.
  destruct (body (Connection socket, w)) as [[a|] [r1 w1]]; cbn [fst snd] in *.
  - split; [done|]. by exists socket1.
  - subst r1. destruct (Hk socket1 w1) as (Hek & socket2 & Hs2 & Hsid2).
    split.
    + eapply emitsOnly_trans; [done|]. by eapply emitsOnly_sid.
    + exists socket2. split; [done|]. by rewrite Hsid2.
Qed.

Lemma leavesOutSender_read {A} (f : World → A) : leavesOutSender names (Async.read f).
Proof. intros socket w. split; [apply emitsOnly_refl|by eexists]. Qed.

Lemma leavesOutSender_query {A} (f : World → option A) :
  leavesOutSender names (Async.query f).
Proof.
  intros socket w. unfold Async.query. cbn [snd].
  destruct (f w); (split; [apply emitsOnly_refl|by eexists]).
Qed.

Lemma leavesOutSender_write (f : World → World) :
  (∀ w, outbox (f w) = outbox w) → leavesOutSender names (Async.write f).
Proof.
  intros Hf socket w. split; [|by eexists]. cbn.
  eapply emitsOnly_same; [apply Hf|apply emitsOnly_refl].
Qed.

Lemma leavesOutSender_command {A} (f : World → option (A * World)) :
  (∀ w a w', f w = Some (a, w') → outbox w' = outbox w) →
  leavesOutSender names (Async.command f).
Proof.
  intros Hf socket w. unfold Async.command. cbn [snd].
  destruct (f w) as [[a w']|] eqn:Hfw; (split; [|by eexists]); cbn.
  - eapply emitsOnly_same; [by eapply Hf|apply emitsOnly_refl].
  - apply emitsOnly_refl.
Qed.

Lemma leavesOutSender_socketData : leavesOutSender names Async.socketData.
Proof. intros socket w. split; [apply emitsOnly_refl|by eexists]. Qed.

Lemma leavesOutSender_identity : leavesOutSender names Async.identity.
Proof. intros socket w. split; [apply emitsOnly_refl|by eexists]. Qed.

Lemma leavesOutSender_isAnonymous : leavesOutSender names Async.isAnonymous.
Proof. intros socket w. split; [apply emitsOnly_refl|by eexists]. Qed.

Lemma leavesOutSender_emit ev p : ev ∉ names → leavesOutSender names (Async.emit ev p).
Proof.
  intros Hev socket w. split; [|by eexists]. cbn.
  apply emitsOnly_emit; [|apply emitsOnly_refl]. intros Hin. by destruct Hev.
Qed.

Lemma leavesOutSender_to_emit room ev p : leavesOutSender names (Async.to_emit room ev p).
Proof.
  intros socket w. split; [|by eexists]. cbn.
  apply emitsOnly_broadcast; [|apply emitsOnly_refl]. intros _. by eexists.
Qed.

Lemma leavesOutSender_join room : leavesOutSender names (Async.join room).
Proof.
  intros socket w. split; [|by eexists].
  eapply emitsOnly_same; [|apply emitsOnly_refl]. reflexivity.
Qed.

Lemma leavesOutSender_leave room : leavesOutSender names (Async.leave room).
Proof.
  intros socket w. split; [|by eexists].
  eapply emitsOnly_same; [|apply emitsOnly_refl]. reflexivity.
Qed.

Lemma leavesOutSender_setCurrentRoom room : leavesOutSender names (Async.setCurrentRoom room).
Proof. intros socket w. split; [apply emitsOnly_refl|by eexists]. Qed.

End LeavesOutSender.

(** Takes a body apart along its binds, branches and calls. *)
Ltac leaves_out :=
  repeat first
    [ apply leavesOutSender_ret
    | apply leavesOutSender_throw
    | apply leavesOutSender_bind; [|intros ?]
    | apply leavesOutSender_tryCatch
    | apply leavesOutSender_read
    | apply leavesOutSender_query
    | apply leavesOutSender_write; [reflexivity]
    | apply leavesOutSender_socketData
    | apply leavesOutSender_identity
    | apply leavesOutSender_isAnonymous
    | apply leavesOutSender_to_emit
    | apply leavesOutSender_join
    | apply leavesOutSender_leave
    | apply leavesOutSender_setCurrentRoom
    | apply leavesOutSender_emit;
      [let H := fresh in
       intros H; repeat (apply elem_of_cons in H as [H|H]; [discriminate H|]);
       by apply elem_of_nil in H]
    | match goal with
      | |- leavesOutSender _ (match ?x with _ => _ end) => destruct x
      | |- leavesOutSender _ (if ?b then _ else _) => destruct b
      end ].

Section JoinDelivery.
Import SocketIO SocketRateLimit RoomHandlers.

Lemma limited_leavesOutSender {D} names (handler : Wrapped D) N W eventName data now :
  "error" ∉ names →
  leavesOutSender names (handler data now) →
  leavesOutSender names (createSocketRateLimiter (options N W) eventName handler data now).
Proof.
  intros Herror Hhandler.
  unfold createSocketRateLimiter, options, defaultKey, incr, pExpire.
  cbn [skipAnonymous keyGenerator SocketRateLimit.maxRequests windowMs].
  apply leavesOutSender_bind.
  - apply leavesOutSender_tryCatch; [|apply leavesOutSender_ret].
    apply leavesOutSender_bind; [apply leavesOutSender_ret|]. intros skip.
    destruct skip; [apply leavesOutSender_ret|].
    apply leavesOutSender_bind.
    { apply leavesOutSender_bind; [apply leavesOutSender_identity|].
      intros. apply leavesOutSender_ret. }
    intros key. apply leavesOutSender_bind.
    { apply leavesOutSender_command. intros w a w' H.
      destruct (Redis.incr _ _ _) as [[]|]; by simplify_eq. }
    intros current. apply leavesOutSender_bind.
    { case_bool_decide; [|apply leavesOutSender_ret].
      apply leavesOutSender_command. intros w a w' Hr.
      destruct (Redis.pExpire _ _ _ _); by simplify_eq. }
    intros _. case_bool_decide; [|apply leavesOutSender_ret].
    apply leavesOutSender_bind; [by apply leavesOutSender_emit|].
    intros. apply leavesOutSender_ret.
  - intros []; [done|apply leavesOutSender_ret].
Qed.

Lemma joinRoomHandler_leavesOutSender data now :
  leavesOutSender ["user-joined"] (joinRoomHandler data now).
Proof.
  unfold joinRoomHandler, leaveCurrentRoom, checkParticipantLimit, userPresenceData,
    isUserInRoom, getUsersInRoom, removeUserFromRoom, addUserToRoom.
  leaves_out.
Qed.

(** Without a connection to call it on, [join-room] emits nothing,
    whatever its [data]. *)
Lemma joinRoom_without_connection data now w receiver :
  (∀ socket, receiver ≠ Connection socket) →
  outbox (joinRoom data now (receiver, w)).2.2 = outbox w.
Proof.
  intros Hnot. destruct receiver as [socket| |]; [by destruct (Hnot socket)|..].
  - destruct (limiter_on_plain_object joinRoomHandler 10 60000 "join-room" data now w)
      as (w1 & Hrun & Hcounted & _).
    unfold joinRoom, joinRoomLimiter. rewrite Hrun.
    rewrite <-(onlyCounted_outbox _ _ Hcounted).
    unfold joinRoomHandler. async_simpl.
    destruct data as [data|]; [|done].
    by destruct (JS.truthy (jd_roomId data)).
  - unfold joinRoom, joinRoomLimiter. rewrite limiter_on_undefined.
    unfold joinRoomHandler. async_simpl.
    destruct data as [data|]; [|done].
    by destruct (JS.truthy (jd_roomId data)).
Qed.

End JoinDelivery.

Section ChatFacts.
Import SocketIO ChatHandler.

Lemma truthy_ne s : s ≠ "" → JS.truthy s = true.
Proof.
  intros Hne. unfold JS.truthy. destruct (String.eqb s "") eqn:Heq; [|done].
  by apply String.eqb_eq in Heq.
Qed.

(** A message that validates is stored and sent to the chat channel of
    its room. *)
Lemma chatMessage_sent socket u data now w :
  user socket = Some u →
  mongo_up w = true →
  ObjectId.isValid (id u) = true →
  ObjectId.isValid (md_roomId data) = true →
  JS.trim (name u) ≠ "" →
  JS.trim (md_content data) ≠ "" →
  ∃ saved,
    MessageModel.create (md_roomId data) (id u) (name u) (avatar u) (md_content data) now
    = Some saved
    ∧ chatMessage socket (Some data) now w
      = (socket,
         emit_room ("chat:" +:+ md_roomId data) "chat:message"
           (PChatMessage saved (md_tempId data))
           (with_messages (messages w ++ [saved]) w)).
Proof.
  intros Hu Hup Hid Hroom Hname Hcontent.
  unfold chatMessage, MessageModel.create. rewrite Hu, Hup, Hid, Hroom.
  rewrite !truthy_ne by done. cbn [andb]. by eexists.
Qed.

(** Whatever becomes of a [chat:message], what the listener emits
    under that name is addressed to the chat channel of the room. *)
Lemma chatMessage_target socket data now w e :
  e ∈ emitted w (chatMessage socket (Some data) now w).2 →
  event e = "chat:message" →
  target e = ToRoom ("chat:" +:+ md_roomId data).
Proof.
  unfold chatMessage.
  destruct (user socket) as [u|]; [destruct (mongo_up w);
    [destruct (MessageModel.create _ _ _ _ _ _) as [saved|]|]|];
    cbn [snd]; intros He Hev;
    erewrite emitted_app in He by (cbn; reflexivity);
    apply list_elem_of_singleton in He; subst e; done.
Qed.

(** [chat:join] puts the connection into the chat channel of the
    room, whatever becomes of the history. *)
Lemma chatJoin_member socket roomId now w :
  adapter (chatJoin socket roomId now w).1.2
  = join ("chat:" +:+ roomId) (sid socket) (adapter w).
Proof.
  unfold chatJoin. destruct (MessageModel.findRecent _ _); [|done].
  by destruct (forallb _ _).
Qed.

Lemma members_join_self room socketId adapter :
  socketId ∈ members (join room socketId adapter) room.
Proof.
  unfold members, join. rewrite lookup_insert_eq. cbn.
  apply elem_of_union_l. by apply elem_of_singleton.
Qed.

End ChatFacts.

Section DeliveryClaims.
Import SocketIO.

(** C9.  Whatever the adapter holds.  [join-room]: as it is
    registered, the listener emits no [user-joined] at all; and
    however the function is called, the [user-joined] it emits is
    addressed to the room without the connection it is called on.  A
    [whiteboard-updated], [element-created], [element-updated] or
    [element-deleted] emitted by a whiteboard write is not delivered
    to the writing connection.  A [chat:message] of a stored user with
    a room id that casts and a content that is not blank goes to the
    channel [chat:<roomId>] and is delivered to every connection in
    it; whatever the message, a [chat:message] that is emitted is
    delivered to every connection in that channel; [chat:join] puts a
    connection into the channel, so a sender who has joined receives
    the own message. *)
Theorem broadcasts_skip_sender_chat_does_not :
  (∀ socket payload now w e adapter,
     e ∈ emitted w (RoomHandlers.onJoinRoom socket payload now w).1.2 →
     event e = "user-joined" →
     ¬ deliveredTo adapter e (sid socket))
  ∧ (∀ receiver data now w e adapter,
       e ∈ emitted w (RoomHandlers.joinRoom data now (receiver, w)).2.2 →
       event e = "user-joined" →
       ∃ socket, receiver = Connection socket ∧ ¬ deliveredTo adapter e (sid socket))
  ∧ (∀ m socket now w e adapter,
       e ∈ emitted w (WhiteboardHandlers.dispatch m socket now w).2 →
       event e ∈ whiteboardEvents →
       ¬ deliveredTo adapter e (sid socket))
  ∧ (∀ socket u data now w,
       user socket = Some u →
       mongo_up w = true →
       ObjectId.isValid (id u) = true →
       ObjectId.isValid (ChatHandler.md_roomId data) = true →
       JS.trim (name u) ≠ "" →
       JS.trim (ChatHandler.md_content data) ≠ "" →
       let w' := (ChatHandler.chatMessage socket (Some data) now w).2 in
       ∃ e, emitted w w' = [e]
            ∧ event e = "chat:message"
            ∧ target e = ToRoom ("chat:" +:+ ChatHandler.md_roomId data)
            ∧ ∀ member,
                member ∈ members (adapter w') ("chat:" +:+ ChatHandler.md_roomId data) →
                deliveredTo (adapter w') e member)
  ∧ (∀ socket data now w e adapter member,
       e ∈ emitted w (ChatHandler.chatMessage socket (Some data) now w).2 →
       event e = "chat:message" →
       member ∈ members adapter ("chat:" +:+ ChatHandler.md_roomId data) →
       deliveredTo adapter e member)
  ∧ (∀ socket roomId now w,
       sid socket ∈ members (adapter (ChatHandler.chatJoin socket roomId now w).1.2)
                     ("chat:" +:+ roomId)).
Proof.
  split_and!.
  - intros socket payload now w e adapter He _. exfalso.
    pose proof (onJoinRoom_run socket payload now w) as (_ & _ & Hcounted & _).
    rewrite (onlyCounted_emitted _ _ Hcounted) in He. by apply elem_of_nil in He.
  - intros receiver data now w e adapter He Hev.
    destruct receiver as [socket| |].
    + exists socket. split; [done|].
      pose proof (limited_leavesOutSender ["user-joined"] RoomHandlers.joinRoomHandler
                    10 60000 "join-room" data now) as Hout.
      destruct (Hout ltac:(by intros [=]%list_elem_of_singleton)
                     (joinRoomHandler_leavesOutSender data now) socket w) as (Hemits & _).
      destruct (emitsOnly_emitted _ _ _ _ Hemits He) as [room Htarget].
      { rewrite Hev. by left. }
      unfold deliveredTo. rewrite Htarget. apply broadcast_skips_sender.
    + exfalso. unfold emitted in He.
      rewrite joinRoom_without_connection, drop_all in He by done.
      by apply elem_of_nil in He.
    + exfalso. unfold emitted in He.
      rewrite joinRoom_without_connection, drop_all in He by done.
      by apply elem_of_nil in He.
  - intros m socket now w e adapter He Hev.
    destruct (emitsOnly_emitted _ _ _ _ (dispatch_emitsOnly m socket now w) He Hev)
      as [room Htarget].
    unfold deliveredTo. rewrite Htarget. apply broadcast_skips_sender.
  - intros socket u data now w Hu Hup Hid Hroom Hname Hcontent w'. subst w'.
    destruct (chatMessage_sent socket u data now w Hu Hup Hid Hroom Hname Hcontent)
      as (saved & _ & ->).
    cbn [snd]. eexists. split; [by apply emitted_app|]. by cbn.
  - intros socket data now w e adapter member He Hev Hmember.
    unfold deliveredTo. by rewrite (chatMessage_target _ _ _ _ _ He Hev).
  - intros socket roomId now w. rewrite chatJoin_member. apply members_join_self.
Qed.

Lemma broadcasts_skip_sender_chat_does_not_witness :
  let data := {| ChatHandler.md_roomId := Sample.roomR; ChatHandler.md_content := " hello ";
                 ChatHandler.md_tempId := "t1" |} in
  let w := (ChatHandler.chatJoin Sample.s1 Sample.roomR 900 (Sample.editing 1 [])).1.2 in
  let w' := (ChatHandler.chatMessage Sample.s1 (Some data) 1000 w).2 in
  ∃ e, emitted w w' = [e]
       ∧ target e = ToRoom "chat:65000000000000000000a001"
       ∧ deliveredTo (adapter w') e "s1".
Proof.
  intros data w w'.
  destruct broadcasts_skip_sender_chat_does_not as (_ & _ & _ & Hchat & _ & Hjoin).
  destruct (Hchat Sample.s1 Sample.alice data 1000 w) as (e & He & _ & Htarget & Hall).
  - reflexivity.
  - reflexivity.
  - reflexivity.
  - reflexivity.
  - vm_compute. discriminate.
  - vm_compute. discriminate.
  - exists e. split; [exact He|]. split; [exact Htarget|].
    apply Hall. apply (Hjoin Sample.s1 Sample.roomR 900 (Sample.editing 1 [])).
Defined.

End DeliveryClaims.

(** ** Disconnecting *)

Section DisconnectFacts.
Import SocketIO ConnectionHandlers.

Lemma notifyRooms_redis socket u now roomIds w :
  redis (notifyRooms socket u now roomIds w) = redis w.
Proof.
  revert w. induction roomIds as [|room roomIds IH]; intros w; [done|].
  cbn [notifyRooms]. by rewrite IH.
Qed.

Lemma notifyRooms_outbox socket u now roomIds w :
  outbox (notifyRooms socket u now roomIds w)
  = outbox w ++ map (userLeftNotice socket u now (redis w)) roomIds.
Proof.
  revert w. induction roomIds as [|room roomIds IH]; intros w.
  { cbn. by rewrite app_nil_r. }
  cbn [notifyRooms map]. rewrite IH. world_simpl. by rewrite <-app_assoc.
Qed.

Lemma dedup_keep_first_elem seen l x :
  x ∈ l → x ∉ seen → x ∈ JS.dedup_keep_first seen l.
Proof.
  revert seen. induction l as [|y l IH]; intros seen Hin Hseen.
  { by apply elem_of_nil in Hin. }
  cbn [JS.dedup_keep_first]. case_bool_decide as Hy.
  - apply elem_of_cons in Hin as [->|Hin]; [done|]. by apply IH.
  - destruct (decide (x = y)) as [->|Hne]; [left|].
    apply elem_of_cons in Hin as [->|Hin]; [done|].
    right. apply IH; [done|]. by intros [->|?]%elem_of_cons.
Qed.

(** One run of the listener: the store after the guarded cleanup, and
    one [user-left] per room that is notified. *)
Lemma disconnect_run socket u now w :
  userId socket = Some u →
  ∃ notified,
    disconnect socket () now w
    = (socket,
       notifyRooms socket u now notified
         (with_redis (Presence.cleanupUserPresence now u (Some (sid socket)) (redis w)).2 w))
    ∧ ∀ room, room ∈ affectedRooms socket → room ∈ notified.
Proof.
  intros Hu. unfold disconnect. rewrite Hu.
  destruct (Presence.cleanupUserPresence _ _ _ _) as [cleaned r]. cbn [snd].
  eexists. split; [done|].
  intros room Hin. apply dedup_keep_first_elem; [|by apply not_elem_of_nil].
  apply elem_of_app. by left.
Qed.

End DisconnectFacts.

(** ** The listeners of room.handler.ts as the server runs them *)

Section RoomClaims.
Import SocketIO SocketRateLimit RoomHandlers.

(** C3.  The claim: a join that finds the room at its limit is turned
    down with a [PARTICIPANT_LIMIT] error reported to the joiner.  The
    code: the listener is registered as
    [socket.on("join-room", limited)], so its [socket] is the client's
    payload and its [data] is [undefined].  Whatever the occupancy of
    the room, it reports nothing, to the joiner or to anybody; it
    writes no presence record, attaches no connection to a channel,
    and ends in a [TypeError]. *)
Theorem join_at_capacity_is_not_reported socket payload now w :
  let '(socket', w', completion) := onJoinRoom socket payload now w in
  emitted w w' = []
  ∧ Redis.hashes (redis w') = Redis.hashes (redis w)
  ∧ adapter w' = adapter w
  ∧ socket' = socket
  ∧ completion = Async.Throws.
Proof.
  pose proof (onJoinRoom_run socket payload now w) as (Hs & Hc & Hcounted & _).
  destruct (onJoinRoom socket payload now w) as [[socket' w'] completion].
  cbn [fst snd] in *. split_and!; try done.
  - by apply onlyCounted_emitted.
  - by apply onlyCounted_hashes.
  - by apply onlyCounted_adapter.
Qed.

(** C5.  The claim: an identity with a presence record that joins
    again is sent the state of the room, and the others are sent
    [user-restored].  The code, registered as above: the record stays
    as it is, and nothing is emitted, to the caller or to the room;
    the listener ends in a [TypeError]. *)
Theorem reconnect_is_not_answered socket u data now w d :
  userId socket = Some u →
  presenceRecord now (redis w) (Presence.roomKey (jd_roomId data)) u = Some d →
  let '(socket', w', completion) := onJoinRoom socket (Some data) now w in
  presenceRecord now (redis w') (Presence.roomKey (jd_roomId data)) u = Some d
  ∧ emitted w w' = []
  ∧ completion = Async.Throws.
Proof.
  intros _ Hd.
  pose proof (onJoinRoom_run socket (Some data) now w) as (Hs & Hc & Hcounted & _).
  destruct (onJoinRoom socket (Some data) now w) as [[socket' w'] completion].
  cbn [fst snd] in *. split_and!; try done.
  - unfold presenceRecord. by rewrite (onlyCounted_fieldsOf _ _ _ _ Hcounted).
  - by apply onlyCounted_emitted.
Qed.

Lemma reconnect_is_not_answered_witness :
  let data := {| jd_roomId := Sample.roomR; jd_userData := None |} in
  let w := Sample.editing 1 [] in
  let '(socket', w', completion) := onJoinRoom Sample.s1 (Some data) 1000 w in
  presenceRecord 1000 (redis w') (Presence.roomKey Sample.roomR) Sample.aliceId
  = Some (Sample.present Sample.aliceId "Alice" "s1" 0)
  ∧ emitted w w' = []
  ∧ completion = Async.Throws.
Proof.
  intros data w.
  refine (reconnect_is_not_answered Sample.s1 Sample.aliceId data 1000 w
            (Sample.present Sample.aliceId "Alice" "s1" 0) _ _).
  - reflexivity.
  - vm_compute. reflexivity.
Defined.

(** C7.  The claim: the limiter turns the (N+1)th event of a window
    down with an error to the caller, and counts per identity and
    event.  The code, for a listener registered as
    [socket.on(event, limited)]: the limiter's [socket] is the
    payload.  Every event is handed on to the handler, whatever the
    count: over the limit [socket.emit] is not a function, and the
    [catch] calls the handler.  The limiter emits nothing, and the one
    counter it moves is that of the event for no identity, the same
    for every connection. *)
Theorem registered_limiter_turns_nothing_down {D} (handler : Wrapped D) N W eventName
    socket payload now w :
  ∃ w1,
    on (createSocketRateLimiter (options N W) eventName handler) socket payload now w
    = on handler socket payload now w1
    ∧ emitted w w1 = []
    ∧ onlyCounted w w1
    ∧ (∀ key, key ≠ "ratelimit:socket:anonymous:" +:+ eventName →
              Redis.counters (redis w1) !! key = Redis.counters (redis w) !! key)
    ∧ (is_Some payload → Redis.redis_up (redis w) = true → 0 ≤ W →
       countOf now ("ratelimit:socket:anonymous:" +:+ eventName) w1
       = Some (default 0 (countOf now ("ratelimit:socket:anonymous:" +:+ eventName) w) + 1)).
Proof.
  destruct (on_limited handler N W eventName socket payload now w)
    as (w1 & Hrun & Hcounted & Hkeys & Hcount).
  exists w1. split_and!; try done. by apply onlyCounted_emitted.
Qed.

(** C10.  The claim: [get-room-users] answers any connection with the
    room's list, and [request-room-users] answers a connection that is
    not in the room with [UNAUTHORIZED].  The code, registered as
    above: neither listener answers anybody with anything; both end in
    a [TypeError]. *)
Theorem room_users_requests_get_no_answer socket payload now w :
  (let '(socket', w', completion) := onGetRoomUsers socket payload now w in
   emitted w w' = [] ∧ completion = Async.Throws)
  ∧ (let '(socket', w', completion) := onRequestRoomUsers socket payload now w in
     emitted w w' = [] ∧ completion = Async.Throws).
Proof.
  split.
  - pose proof (onGetRoomUsers_run socket payload now w) as (Hs & Hc & Hcounted & _).
    destruct (onGetRoomUsers socket payload now w) as [[socket' w'] completion].
    cbn [fst snd] in *. split; [|done]. by apply onlyCounted_emitted.
  - pose proof (onRequestRoomUsers_run socket payload now w) as (Hs & Hc & Hcounted & _).
    destruct (onRequestRoomUsers socket payload now w) as [[socket' w'] completion].
    cbn [fst snd] in *. split; [|done]. by apply onlyCounted_emitted.
Qed.

End RoomClaims.

(** ** The failing inputs, and what the functions do when they are
       handed a connection *)

Section RoomSamples.
Import SocketIO SocketRateLimit RoomHandlers.

Local Abbreviation joinR := (Some {| jd_roomId := Sample.roomR; jd_userData := None |}).
Local Abbreviation roomR := (Some {| rd_roomId := Sample.roomR |}).

(** Room R is at the limit of its owner's plan: two are present and
    the FREE plan admits two.  Carol's [join-room] is received: nothing
    is emitted.  The function that is registered, called with Carol's
    connection as its signature has it, reports the limit to her. *)
Example join_at_capacity_sample :
  let w := Sample.editing 1 [] in
  length (Presence.getUsersInRoom 1000 Sample.roomR (redis w)) = 2%nat
  ∧ PlanLimits.maxParticipants (PlanLimits.getPlanLimits (planLimits w) FREE) = 2
  ∧ outbox (onJoinRoom Sample.s3 joinR 1000 w).1.2 = []
  ∧ (onJoinRoom Sample.s3 joinR 1000 w).2 = Async.Throws
  ∧ outbox (called joinRoom Sample.s3 joinR 1000 w).1.2
    = [{| target := ToSocket "s3"; event := "room:join-error";
          payload := PJoinError "PARTICIPANT_LIMIT" (ParticipantLimitReachedFor FREE)
                       (Some (2%nat, 2, FREE)) |}].
Proof. vm_compute. done. Qed.

(** Alice is present in room R and joins again: nothing is emitted.
    Called with her connection, the function answers her with the
    state of the room and tells the others. *)
Example reconnect_sample :
  let w := Sample.editing 1 [] in
  outbox (onJoinRoom Sample.s1 joinR 1000 w).1.2 = []
  ∧ map (λ e, (target e, event e)) (outbox (called joinRoom Sample.s1 joinR 1000 w).1.2)
    = [(ToSocket "s1", "room-joined"); (ToRoomExcept Sample.roomR "s1", "user-restored")].
Proof. vm_compute. done. Qed.

(** Twelve [join-room] events of one connection within a second, for
    a limit of ten a minute: all twelve reach the handler, which
    throws; nothing is emitted, and the count stands at twelve under
    the key of no identity.  Called with the connection, the function
    counts under the identity and turns the eleventh and twelfth
    down. *)
Example eleventh_event_sample :
  let w := Sample.editing 1 [] in
  let times := map Z.of_nat (seq 1000 12) in
  let '(w', completions) := received joinRoom Sample.s1 joinR times w in
  completions = replicate 12 Async.Throws
  ∧ outbox w' = []
  ∧ map_to_list (Redis.counters (redis w'))
    = [("ratelimit:socket:anonymous:join-room",
        {| Redis.c_value := 12; Redis.c_expireAt := Some 61000 |})]
  ∧ (let called_w := foldl (λ w t, (called joinRoom Sample.s1 joinR t w).1.2) w times in
     drop 20 (outbox called_w)
     = [{| target := ToSocket "s1"; event := "error";
           payload := PError "RATE_LIMIT_EXCEEDED"
                        (RateLimitExceededFor "join-room" 10 60000) (Some 1010) |};
        {| target := ToSocket "s1"; event := "error";
           payload := PError "RATE_LIMIT_EXCEEDED"
                        (RateLimitExceededFor "join-room" 10 60000) (Some 1011) |}]
     ∧ map_to_list (Redis.counters (redis called_w))
       = [("ratelimit:socket:650000000000000000000a11:join-room",
           {| Redis.c_value := 12; Redis.c_expireAt := Some 61000 |})]).
Proof. vm_compute. done. Qed.

(** Carol, who is not in room R, asks for its users: neither request
    is answered.  Called with her connection, [get-room-users] hands
    her the list and [request-room-users] refuses. *)
Example room_users_sample :
  let w := Sample.editing 1 [] in
  outbox (onGetRoomUsers Sample.s3 roomR 1000 w).1.2 = []
  ∧ outbox (onRequestRoomUsers Sample.s3 roomR 1000 w).1.2 = []
  ∧ outbox (called getRoomUsers Sample.s3 roomR 1000 w).1.2
    = [{| target := ToSocket "s3"; event := "room-users";
          payload := PRoomUsers Sample.roomR
                       [Sample.present Sample.aliceId "Alice" "s1" 0;
                        Sample.present Sample.bobId "Bob" "s2" 0] |}]
  ∧ outbox (called requestRoomUsers Sample.s3 roomR 1000 w).1.2
    = [{| target := ToSocket "s3"; event := "error";
          payload := err "UNAUTHORIZED" "Must be in room to request user list" 1000 |}].
Proof. vm_compute. done. Qed.

End RoomSamples.

(** ** The presence registry: writes and reads *)

Section PresenceWrites.
Implicit Types (r : Redis.t) (now t : Z) (u room k : string) (d : UserPresenceData).

Lemma liveHash_set_hashes_insert now k e h r :
  Redis.liveHash now k (Redis.set_hashes (<[k := e]> h) r)
  = if Redis.alive now (Redis.h_expireAt e) then Some e else None.
Proof. unfold Redis.liveHash. cbn. by rewrite lookup_insert_eq. Qed.

(** What [addUserToRoom] leaves in the store: the room's hash, with the
    record, expiring a day later. *)
Lemma addUserToRoom_hashes now u room d r :
  Redis.redis_up r = true →
  Presence.addUserToRoom now u room d r
  = Redis.set_hashes
      (<[Presence.roomKey room :=
           {| Redis.h_fields := <[u := d]> (Redis.fieldsOf now (Presence.roomKey room) r);
              Redis.h_expireAt := Some (now + 86400000) |}]> (Redis.hashes r)) r.
Proof.
  intros Hup. unfold Presence.addUserToRoom, Redis.hSet, Redis.expire. rewrite Hup.
  cbn [Redis.redis_up Redis.set_hashes]. rewrite Hup.
  unfold Redis.fieldsOf.
  destruct (Redis.liveHash now (Presence.roomKey room) r) as [e|] eqn:Hlive.
  - pose proof (liveHash_alive _ _ _ _ Hlive) as Halive.
    rewrite liveHash_set_hashes_insert. cbn [Redis.h_expireAt]. rewrite Halive.
    unfold Redis.set_hashes; cbn. by rewrite insert_insert_eq.
  - rewrite liveHash_set_hashes_insert. cbn [Redis.h_expireAt Redis.alive].
    unfold Redis.set_hashes; cbn. by rewrite insert_insert_eq, insert_empty.
Qed.

Lemma presenceRecord_set_hashes_insert t k k' f e h r :
  presenceRecord t (Redis.set_hashes (<[k' := e]> h) r) k f
  = if decide (k' = k)
    then (if Redis.alive t (Redis.h_expireAt e) then Redis.h_fields e !! f else None)
    else presenceRecord t (Redis.set_hashes h r) k f.
Proof.
  unfold presenceRecord. rewrite fieldsOf_set_hashes_insert.
  destruct (decide (k' = k)); [|done]. by destruct (Redis.alive _ _).
Qed.

Lemma updateUserActivity_hashes now u room r :
  Redis.hashes (Presence.updateUserActivity now u room r) = Redis.hashes r
  ∨ ∃ e d, Redis.liveHash now (Presence.roomKey room) r = Some e
           ∧ Redis.h_fields e !! u = Some d
           ∧ Redis.hashes (Presence.updateUserActivity now u room r)
             = <[Presence.roomKey room :=
                   {| Redis.h_fields :=
                        <[u := {| upd_id := upd_id d; upd_name := upd_name d;
                                  upd_avatar := upd_avatar d;
                                  upd_socketId := upd_socketId d;
                                  upd_joinedAt := upd_joinedAt d;
                                  upd_lastActivity := now |}]> (Redis.h_fields e);
                      Redis.h_expireAt := Redis.h_expireAt e |}]> (Redis.hashes r).
Proof.
  unfold Presence.updateUserActivity, Redis.hGet, Redis.hSet, Redis.fieldsOf.
  destruct (Redis.redis_up r); [|by left].
  destruct (Redis.liveHash now (Presence.roomKey room) r) as [e|] eqn:Hlive.
  - destruct (Redis.h_fields e !! u) as [d|] eqn:Hd; [|by left].
    right. exists e, d. by cbn.
  - rewrite lookup_empty. by left.
Qed.

(** [updateUserActivity] never moves the expiry of a key, and never
    makes or drops a key. *)
Lemma updateUserActivity_expiry now u room r k :
  Redis.h_expireAt <$> Redis.hashes (Presence.updateUserActivity now u room r) !! k
  = Redis.h_expireAt <$> Redis.hashes r !! k.
Proof.
  destruct (updateUserActivity_hashes now u room r) as [->|(e & d & Hlive & _ & ->)];
    [done|].
  destruct (decide (Presence.roomKey room = k)) as [<-|Hne].
  - rewrite lookup_insert_eq. unfold Redis.liveHash in Hlive.
    destruct (Redis.hashes r !! Presence.roomKey room) as [e'|]; [|done].
    destruct (Redis.alive now (Redis.h_expireAt e')); naive_solver.
  - by rewrite lookup_insert_ne.
Qed.

End PresenceWrites.

Section PresenceExtras.
Implicit Types (r : Redis.t) (now t : Z) (u room k : string) (d : UserPresenceData).

(** X1.  With Redis answering, [addUserToRoom] stores the record under
    the identity: for a day from the call the identity counts as in the
    room and reads back as the record written; the other records of
    the room are the ones that were live at the call, and no other key
    is touched. *)
Theorem added_user_is_present now t u room d r :
  Redis.redis_up r = true →
  now ≤ t ≤ now + 86400000 →
  let r' := Presence.addUserToRoom now u room d r in
  Presence.isUserInRoom t u room r' = true
  ∧ presenceRecord t r' (Presence.roomKey room) u = Some d
  ∧ length (filter (λ p, upd_id p = u) (Presence.getUsersInRoom t room r')) = 1%nat
  ∧ (∀ u', u' ≠ u →
       presenceRecord t r' (Presence.roomKey room) u'
       = presenceRecord now r (Presence.roomKey room) u')
  ∧ (∀ k f, k ≠ Presence.roomKey room →
       presenceRecord t r' k f = presenceRecord t r k f)
  ∧ Redis.counters r' = Redis.counters r.
Proof.
  intros Hup Ht r'. subst r'. rewrite addUserToRoom_hashes by done.
  assert (Hrec : presenceRecord t
                   (Redis.set_hashes
                      (<[Presence.roomKey room :=
                           {| Redis.h_fields :=
                                <[u := d]> (Redis.fieldsOf now (Presence.roomKey room) r);
                              Redis.h_expireAt := Some (now + 86400000) |}]>
                         (Redis.hashes r)) r)
                   (Presence.roomKey room) u = Some d).
  { rewrite presenceRecord_set_hashes_insert, decide_True by done.
    cbn [Redis.alive Redis.h_expireAt Redis.h_fields].
    rewrite bool_decide_eq_true_2 by lia. apply lookup_insert_eq. }
  split_and!.
  - by eapply isUserInRoom_present.
  - done.
  - by eapply getUsersInRoom_one_entry.
  - intros u' Hne. rewrite presenceRecord_set_hashes_insert, decide_True by done.
    cbn [Redis.alive Redis.h_expireAt Redis.h_fields].
    rewrite bool_decide_eq_true_2 by lia. by rewrite lookup_insert_ne.
  - intros k f Hne. rewrite presenceRecord_set_hashes_insert, decide_False by done.
    done.
  - done.
Qed.

Lemma added_user_is_present_witness :
  let r' := Presence.addUserToRoom 0 Sample.aliceId Sample.roomR
              (Sample.present Sample.aliceId "Alice" "s1" 0) Sample.emptyRedis in
  Presence.isUserInRoom 1000 Sample.aliceId Sample.roomR r' = true
  ∧ presenceRecord 1000 r' (Presence.roomKey Sample.roomR) Sample.aliceId
    = Some (Sample.present Sample.aliceId "Alice" "s1" 0).
Proof.
  intros r'.
  destruct (added_user_is_present 0 1000 Sample.aliceId Sample.roomR
              (Sample.present Sample.aliceId "Alice" "s1" 0) Sample.emptyRedis)
    as (Hin & Hrec & _).
  - reflexivity.
  - lia.
  - split; [exact Hin|exact Hrec].
Defined.

(** X2.  With Redis answering, [removeUserFromRoom] takes the identity
    out of the room and changes no other record; when nobody else was
    in the room, the room's key is gone from the store. *)
Theorem removed_user_is_absent now u room r :
  Redis.redis_up r = true →
  let r' := Presence.removeUserFromRoom now u room r in
  Presence.isUserInRoom now u room r' = false
  ∧ Forall (λ p, upd_id p ≠ u) (Presence.getUsersInRoom now room r')
  ∧ (∀ k f, (k, f) ≠ (Presence.roomKey room, u) →
       presenceRecord now r' k f = presenceRecord now r k f)
  ∧ ((∀ f, f ≠ u → presenceRecord now r (Presence.roomKey room) f = None) →
     Redis.hashes r' !! Presence.roomKey room = None).
Proof.
  intros Hup r'.
  assert (Hgone : presenceRecord now r' (Presence.roomKey room) u = None).
  { unfold presenceRecord. subst r'. rewrite fieldsOf_removeUserFromRoom, Hup.
    rewrite bool_decide_eq_true_2 by done. apply lookup_delete_eq. }
  split_and!.
  - by apply isUserInRoom_absent.
  - unfold Presence.getUsersInRoom, Redis.hGetAll. subst r'.
    rewrite removeUserFromRoom_up, Hup. apply Forall_forall. intros p Hp.
    apply list_elem_of_fmap in Hp as ([f x] & -> & Hin). cbn.
    apply elem_of_map_to_list in Hin. intros ->.
    unfold presenceRecord in Hgone. congruence.
  - intros k f Hne. unfold presenceRecord. subst r'.
    rewrite fieldsOf_removeUserFromRoom, Hup. cbn [andb].
    case_bool_decide as Hk; [|done]. subst k.
    rewrite lookup_delete_ne; [done|]. congruence.
  - intros Halone. subst r'.
    unfold Presence.removeUserFromRoom, Redis.hDel, Redis.hLen, Redis.del. rewrite Hup.
    destruct (Redis.liveHash now (Presence.roomKey room) r) as [e|] eqn:Hlive.
    + assert (Hemp : delete u (Redis.h_fields e) = ∅).
      { apply map_eq. intros f. rewrite lookup_empty.
        destruct (decide (f = u)) as [->|Hne]; [apply lookup_delete_eq|].
        rewrite lookup_delete_ne by done.
        specialize (Halone f Hne). unfold presenceRecord, Redis.fieldsOf in Halone.
        by rewrite Hlive in Halone. }
      rewrite bool_decide_eq_true_2 by done.
      cbn [Redis.redis_up Redis.set_hashes]. rewrite Hup.
      rewrite fieldsOf_set_hashes_delete, decide_True by done.
      rewrite map_size_empty, bool_decide_eq_true_2 by done.
      cbn. apply lookup_delete_eq.
    + rewrite Hup.
      assert (Hf : Redis.fieldsOf now (Presence.roomKey room) r = ∅).
      { unfold Redis.fieldsOf. by rewrite Hlive. }
      rewrite Hf, map_size_empty, bool_decide_eq_true_2 by done.
      cbn. apply lookup_delete_eq.
Qed.

Lemma removed_user_is_absent_witness :
  let r := redis (Sample.editing 1 []) in
  let r' := Presence.removeUserFromRoom 1000 Sample.bobId Sample.roomR r in
  Presence.isUserInRoom 1000 Sample.bobId Sample.roomR r' = false
  ∧ presenceRecord 1000 r' (Presence.roomKey Sample.roomR) Sample.aliceId
    = presenceRecord 1000 r (Presence.roomKey Sample.roomR) Sample.aliceId.
Proof.
  intros r r'.
  destruct (removed_user_is_absent 1000 Sample.bobId Sample.roomR r)
    as (Hout & _ & Hrest & _).
  - reflexivity.
  - split; [exact Hout|]. apply Hrest. vm_compute. discriminate.
Defined.

(** X3.  With Redis answering, the user list of a room holds one entry
    per identity that is in the room and none besides; an entry is the
    stored record, with the identity as its [id]. *)
Theorem room_listing_is_the_presence_set now room r :
  Redis.redis_up r = true →
  NoDup (upd_id <$> Presence.getUsersInRoom now room r)
  ∧ (∀ u, u ∈ (upd_id <$> Presence.getUsersInRoom now room r)
          ↔ Presence.isUserInRoom now u room r = true)
  ∧ (∀ p, p ∈ Presence.getUsersInRoom now room r →
          ∃ d, presenceRecord now r (Presence.roomKey room) (upd_id p) = Some d
               ∧ upd_name p = upd_name d ∧ upd_avatar p = upd_avatar d
               ∧ upd_socketId p = upd_socketId d ∧ upd_joinedAt p = upd_joinedAt d
               ∧ upd_lastActivity p = upd_lastActivity d).
Proof.
  intros Hup. unfold Presence.getUsersInRoom, Redis.hGetAll. rewrite Hup.
  set (m := Redis.fieldsOf now (Presence.roomKey room) r).
  assert (Hids : upd_id <$>
                   map (λ '(userId, d),
                          {| upd_id := userId; upd_name := upd_name d;
                             upd_avatar := upd_avatar d; upd_socketId := upd_socketId d;
                             upd_joinedAt := upd_joinedAt d;
                             upd_lastActivity := upd_lastActivity d |}) (map_to_list m)
                 = (map_to_list m).*1).
  { induction (map_to_list m) as [|[f x] l IH]; [done|]. cbn. by f_equal. }
  split_and!.
  - rewrite Hids. apply NoDup_fst_map_to_list.
  - intros u. rewrite Hids, isUserInRoom_spec, Hup. cbn [andb].
    rewrite bool_decide_eq_true. unfold presenceRecord. fold m.
    rewrite list_elem_of_fmap. split.
    + intros ([f x] & -> & Hin). apply elem_of_map_to_list in Hin. by exists x.
    + intros [x Hx]. exists (u, x). split; [done|]. by apply elem_of_map_to_list.
  - intros p Hp. apply list_elem_of_fmap in Hp as ([f x] & -> & Hin).
    apply elem_of_map_to_list in Hin. exists x. by cbn.
Qed.

Lemma room_listing_is_the_presence_set_witness :
  NoDup (upd_id <$> Presence.getUsersInRoom 1000 Sample.roomR (redis (Sample.editing 1 []))).
Proof.
  apply (room_listing_is_the_presence_set 1000 Sample.roomR (redis (Sample.editing 1 []))).
  reflexivity.
Defined.

End PresenceExtras.

(** ** Presence keys and the rooms of an identity *)

Section Keys.
Implicit Types (r : Redis.t) (now t : Z) (u room k key : string).

Lemma split_before_separator sep s rest :
  occurs sep s = false →
  JS.split sep (s +:+ String sep rest) = s :: JS.split sep rest.
Proof.
  induction s as [|c s IH]; intros Hfree; simpl.
  - by rewrite Ascii.eqb_refl.
  - simpl in Hfree. apply orb_false_iff in Hfree as [Hc Hs].
    by rewrite Hc, IH.
Qed.

Lemma split_without_separator sep s :
  occurs sep s = false → JS.split sep s = [s].
Proof.
  induction s as [|c s IH]; intros Hfree; simpl; [done|].
  simpl in Hfree. apply orb_false_iff in Hfree as [Hc Hs].
  by rewrite Hc, IH.
Qed.

(** The room of a key is read back as the room it was made from. *)
Lemma room_of_roomKey room :
  colonFree room → nth 1 (JS.split ":"%char (Presence.roomKey room)) "" = room.
Proof.
  intros Hfree. unfold Presence.roomKey.
  change ("room:" +:+ room +:+ ":users")
    with ("room" +:+ String ":"%char (room +:+ String ":"%char "users")).
  rewrite split_before_separator by done.
  by rewrite split_before_separator.
Qed.

Lemma substring_all s : String.substring 0 (String.length s) s = s.
Proof. induction s as [|c s IH]; cbn; [done|]. by rewrite IH. Qed.

Lemma rev_app_append a b acc :
  String.rev_app (a +:+ b) acc = String.rev_app b (String.rev_app a acc).
Proof. revert acc. induction a as [|c a IH]; intros acc; cbn; [done|]. apply IH. Qed.

Lemma roomKey_unfold room :
  Presence.roomKey room
  = String "r" (String "o" (String "o" (String "m" (String ":" (room +:+ ":users"))))).
Proof. reflexivity. Qed.

Lemma prefix_append a b : String.prefix a (a +:+ b) = true.
Proof.
  induction a as [|c a IH]; simpl; [by destruct b|].
  by destruct (ascii_dec c c).
Qed.

Lemma matchesRoomUsers_roomKey room :
  Redis.matchesRoomUsers (Presence.roomKey room) = true.
Proof.
  unfold Redis.matchesRoomUsers. apply andb_true_intro. split.
  - apply (prefix_append "room:" (room +:+ ":users")).
  - rewrite roomKey_unfold. cbn [String.length Nat.sub String.substring].
    rewrite Nat.sub_0_r, substring_all.
    unfold JS.endsWith, String.rev. rewrite rev_app_append.
    apply (prefix_append "sresu:" (String.rev_app room "")).
Qed.

Lemma length_append a b :
  String.length (a +:+ b) = (String.length a + String.length b)%nat.
Proof. induction a as [|c a IH]; simpl; [done|]. by rewrite IH. Qed.

Lemma append_inj_r a b c : a +:+ c = b +:+ c → a = b.
Proof.
  revert b. induction a as [|x a IH]; intros [|y b] H; simpl in H.
  - done.
  - apply (f_equal String.length) in H. rewrite ?length_append in H. simpl in H.
    rewrite ?length_append in H. lia.
  - apply (f_equal String.length) in H. rewrite ?length_append in H. simpl in H.
    rewrite ?length_append in H. lia.
  - injection H as -> H. f_equal. by apply IH.
Qed.

Lemma roomKey_inj room room' :
  Presence.roomKey room = Presence.roomKey room' → room = room'.
Proof.
  rewrite !roomKey_unfold. intros H. injection H as H.
  by apply append_inj_r in H.
Qed.

(** With Redis answering, the loop of [getUserRooms] reads the room off
    every key that has the identity as a field. *)
Lemma getUserRooms_loop_closed now u keys r acc :
  Redis.redis_up r = true →
  Presence.getUserRooms_loop now u keys r acc
  = Some (acc ++ ((λ key, nth 1 (JS.split ":"%char key) "")
                    <$> filter (λ key, is_Some (presenceRecord now r key u)) keys)).
Proof.
  intros Hup. revert acc.
  induction keys as [|key keys IH]; intros acc; cbn [Presence.getUserRooms_loop].
  { by rewrite filter_nil, app_nil_r. }
  unfold Redis.hExists. rewrite Hup. fold (presenceRecord now r key u).
  case_bool_decide as Hin.
  - rewrite filter_cons_True by done. rewrite IH, <-app_assoc. done.
  - rewrite filter_cons_False by done. apply IH.
Qed.

Lemma getUserRooms_closed now u r :
  Redis.redis_up r = true →
  Presence.getUserRooms now u r
  = (λ key, nth 1 (JS.split ":"%char key) "")
      <$> filter (λ key, is_Some (presenceRecord now r key u))
            (filter (λ k, Redis.matchesRoomUsers k = true ∧ is_Some (Redis.liveHash now k r))
               (map_to_list (Redis.hashes r)).*1).
Proof.
  intros Hup. unfold Presence.getUserRooms, Redis.keys_room_users. rewrite Hup.
  by rewrite getUserRooms_loop_closed.
Qed.

Lemma presenceRecord_live now r key u d :
  presenceRecord now r key u = Some d →
  is_Some (Redis.liveHash now key r) ∧ is_Some (Redis.hashes r !! key).
Proof.
  unfold presenceRecord, Redis.fieldsOf, Redis.liveHash.
  destruct (Redis.hashes r !! key) as [e|]; [|by rewrite lookup_empty].
  destruct (Redis.alive now (Redis.h_expireAt e)); [by eauto|by rewrite lookup_empty].
Qed.

(** An identity with a record in a room with a colon-free id has that
    room among its rooms. *)
Lemma getUserRooms_present now u room r d :
  Redis.redis_up r = true →
  colonFree room →
  presenceRecord now r (Presence.roomKey room) u = Some d →
  room ∈ Presence.getUserRooms now u r.
Proof.
  intros Hup Hfree Hrec. rewrite getUserRooms_closed by done.
  apply list_elem_of_fmap. exists (Presence.roomKey room).
  split; [by rewrite room_of_roomKey|].
  destruct (presenceRecord_live _ _ _ _ _ Hrec) as [Hlive [e He]].
  apply list_elem_of_filter. split; [by eauto|].
  apply list_elem_of_filter. split; [by auto using matchesRoomUsers_roomKey|].
  apply list_elem_of_fmap. exists (Presence.roomKey room, e). split; [done|].
  by apply elem_of_map_to_list.
Qed.

End Keys.

Section KeyExtras.
Implicit Types (r : Redis.t) (now t : Z) (u room k key : string).

(** X4.  With Redis answering, [getUserRooms] finds every room with a
    colon-free id in which the identity has a record; in a store that
    holds presence hashes of such rooms only, it returns exactly the
    rooms the identity is in. *)
Theorem getUserRooms_are_the_rooms_of_the_user now u r :
  Redis.redis_up r = true →
  (∀ room, colonFree room → Presence.isUserInRoom now u room r = true →
           room ∈ Presence.getUserRooms now u r)
  ∧ (presenceKeysOnly r →
     ∀ room, room ∈ Presence.getUserRooms now u r
             ↔ Presence.isUserInRoom now u room r = true).
Proof.
  intros Hup.
  assert (Hfound : ∀ room, colonFree room → Presence.isUserInRoom now u room r = true →
                           room ∈ Presence.getUserRooms now u r).
  { intros room Hfree Hin. rewrite isUserInRoom_spec, Hup in Hin. cbn [andb] in Hin.
    apply bool_decide_eq_true in Hin as [d Hd]. by eapply getUserRooms_present. }
  split; [done|]. intros Hkeys room. split.
  - rewrite getUserRooms_closed by done.
    intros (key & -> & Hin)%list_elem_of_fmap.
    apply list_elem_of_filter in Hin as [[d Hd] _].
    destruct (presenceRecord_live _ _ _ _ _ Hd) as [_ Hkey].
    destruct (Hkeys key Hkey) as (room & -> & Hfree).
    rewrite room_of_roomKey by done. by eapply isUserInRoom_present.
  - intros Hin. apply Hfound; [|done].
    rewrite isUserInRoom_spec, Hup in Hin. cbn [andb] in Hin.
    apply bool_decide_eq_true in Hin as [d Hd].
    destruct (presenceRecord_live _ _ _ _ _ Hd) as [_ Hkey].
    destruct (Hkeys _ Hkey) as (room' & Heq & Hfree).
    by apply roomKey_inj in Heq as ->.
Qed.

Lemma getUserRooms_are_the_rooms_of_the_user_witness :
  Sample.roomR ∈ Presence.getUserRooms 1000 Sample.bobId (redis (Sample.editing 1 [])).
Proof.
  refine (proj1 (getUserRooms_are_the_rooms_of_the_user 1000 Sample.bobId
                   (redis (Sample.editing 1 [])) _) Sample.roomR _ _).
  - reflexivity.
  - reflexivity.
  - vm_compute. reflexivity.
Defined.

End KeyExtras.

(** ** Cleaning up after a connection *)

Section CleanupFacts.
Implicit Types (r : Redis.t) (now t : Z) (u room k key sid : string).

Lemma cleanup_loop_up now u socketId rooms r :
  Redis.redis_up (Presence.cleanup_loop now u socketId rooms r).2 = Redis.redis_up r.
Proof.
  revert r. induction rooms as [|room rooms IH]; intros r; cbn [Presence.cleanup_loop];
    [done|].
  destruct socketId as [sid|]; [|by rewrite IH, removeUserFromRoom_up].
  destruct (JS.truthy sid); [|by rewrite IH, removeUserFromRoom_up].
  destruct (Redis.hGet now (Presence.roomKey room) u r) as [[d|]|]; [|by apply IH|done].
  destruct (String.eqb _ _); [|by apply IH].
  by rewrite IH, removeUserFromRoom_up.
Qed.

(** With Redis answering, the loop runs to its end. *)
Lemma cleanup_loop_completes now u socketId rooms r :
  Redis.redis_up r = true →
  (Presence.cleanup_loop now u socketId rooms r).1 = true.
Proof.
  revert r. induction rooms as [|room rooms IH]; intros r Hup;
    cbn [Presence.cleanup_loop]; [done|].
  assert (Hup' : Redis.redis_up (Presence.removeUserFromRoom now u room r) = true)
    by (by rewrite removeUserFromRoom_up).
  destruct socketId as [sid|]; [|by apply IH].
  destruct (JS.truthy sid); [|by apply IH].
  unfold Redis.hGet. rewrite Hup.
  destruct (Redis.fieldsOf now (Presence.roomKey room) r !! u) as [d|]; [|by apply IH].
  destruct (String.eqb _ _); by apply IH.
Qed.

Lemma presenceRecord_removeUserFromRoom_other now u room room' r f :
  room' ≠ room →
  presenceRecord now (Presence.removeUserFromRoom now u room' r) (Presence.roomKey room) f
  = presenceRecord now r (Presence.roomKey room) f.
Proof.
  intros Hne. unfold presenceRecord. rewrite fieldsOf_removeUserFromRoom.
  rewrite bool_decide_eq_false_2; [by rewrite andb_false_r|].
  intros Heq. by apply roomKey_inj in Heq.
Qed.

(** The record that the connection wrote in a room of the list is gone
    after the loop. *)
Lemma cleanup_loop_removes now u sid rooms room r d :
  Redis.redis_up r = true →
  JS.truthy sid = true →
  room ∈ rooms →
  presenceRecord now r (Presence.roomKey room) u = Some d →
  upd_socketId d = sid →
  presenceRecord now (Presence.cleanup_loop now u (Some sid) rooms r).2
    (Presence.roomKey room) u = None.
Proof.
  intros Hup Hsid Hin Hrec Hd. revert r Hup Hrec.
  induction rooms as [|room' rooms IH]; intros r Hup Hrec.
  { by apply elem_of_nil in Hin. }
  cbn [Presence.cleanup_loop]. rewrite Hsid.
  destruct (decide (room' = room)) as [->|Hne].
  - unfold Redis.hGet. rewrite Hup. fold (presenceRecord now r (Presence.roomKey room) u).
    rewrite Hrec. rewrite (proj2 (String.eqb_eq _ _) Hd).
    destruct (cleanup_loop_guard now u sid rooms
                (Presence.removeUserFromRoom now u room r) Hsid (Presence.roomKey room) u)
      as [->|(_ & d' & Hd' & _)].
    + unfold presenceRecord. rewrite fieldsOf_removeUserFromRoom, Hup.
      rewrite bool_decide_eq_true_2 by done. apply lookup_delete_eq.
    + unfold presenceRecord in Hd'. rewrite fieldsOf_removeUserFromRoom, Hup in Hd'.
      rewrite bool_decide_eq_true_2 in Hd' by done. cbn [andb] in Hd'.
      by rewrite lookup_delete_eq in Hd'.
  - apply elem_of_cons in Hin as [->|Hin]; [done|].
    assert (Hrec' : presenceRecord now (Presence.removeUserFromRoom now u room' r)
                      (Presence.roomKey room) u = Some d)
      by (by rewrite presenceRecord_removeUserFromRoom_other).
    assert (Hup' : Redis.redis_up (Presence.removeUserFromRoom now u room' r) = true)
      by (by rewrite removeUserFromRoom_up).
    destruct (Redis.hGet now (Presence.roomKey room') u r) as [[d'|]|] eqn:Hget;
      [|by apply IH|].
    + destruct (String.eqb _ _); by apply IH.
    + unfold Redis.hGet in Hget. by rewrite Hup in Hget.
Qed.

Lemma cleanupUserPresence_removes now u sid room r d :
  Redis.redis_up r = true →
  JS.truthy sid = true →
  colonFree room →
  presenceRecord now r (Presence.roomKey room) u = Some d →
  upd_socketId d = sid →
  room ∈ (Presence.cleanupUserPresence now u (Some sid) r).1
  ∧ presenceRecord now (Presence.cleanupUserPresence now u (Some sid) r).2
      (Presence.roomKey room) u = None.
Proof.
  intros Hup Hsid Hfree Hrec Hd. unfold Presence.cleanupUserPresence.
  pose proof (getUserRooms_present now u room r d Hup Hfree Hrec) as Hin.
  pose proof (cleanup_loop_completes now u (Some sid) (Presence.getUserRooms now u r) r Hup)
    as Hdone.
  pose proof (cleanup_loop_removes now u sid _ room r d Hup Hsid Hin Hrec Hd) as Hgone.
  destruct (Presence.cleanup_loop _ _ _ _ _) as [[] r']; [done|discriminate].
Qed.

End CleanupFacts.

Section CleanupExtras.
Import SocketIO.
Implicit Types (r : Redis.t) (now t : Z) (u room k key : string).

(** X5.  When the connection that wrote an identity's record in a room
    disconnects, the disconnect listener of connection.handler.ts
    removes the record, leaves the records of every other identity as
    they are, and sends the room a [user-left] with the list read
    after the removal; this holds whether or not the connection put
    any rooms aside at [disconnecting].  (Redis answers; the room id
    has no colon.) *)
Theorem disconnect_removes_own_presence socket u room d now w :
  userId socket = Some u →
  JS.truthy (sid socket) = true →
  Redis.redis_up (redis w) = true →
  colonFree room →
  presenceRecord now (redis w) (Presence.roomKey room) u = Some d →
  upd_socketId d = sid socket →
  let w' := (ConnectionHandlers.disconnect socket () now w).2 in
  Presence.isUserInRoom now u room (redis w') = false
  ∧ (∀ u' k, u' ≠ u →
       presenceRecord now (redis w') k u' = presenceRecord now (redis w) k u')
  ∧ userLeftNotice socket u now (redis w') room ∈ emitted w w'.
Proof.
  intros Hu Hsid Hup Hfree Hrec Hd w'.
  destruct (cleanupUserPresence_removes now u (sid socket) room (redis w) d)
    as [Hin Hgone]; try done.
  pose proof (cleanupUserPresence_guard now u (sid socket) (redis w) Hsid) as Hguard.
  subst w'. unfold ConnectionHandlers.disconnect. rewrite Hu.
  destruct (Presence.cleanupUserPresence now u (Some (sid socket)) (redis w))
    as [cleaned r'] eqn:Hclean.
  cbn [fst snd] in *.
  rewrite notifyRooms_redis. world_simpl.
  split_and!.
  - by apply isUserInRoom_absent.
  - intros u' k Hne. destruct (Hguard k u') as [Heq|[Heq _]]; [done|by subst].
  - pose proof (notifyRooms_outbox socket u now
                  (JS.dedup_keep_first [] (ConnectionHandlers.affectedRooms socket ++ cleaned))
                  (with_redis r' w)) as Hout.
    world_simpl. rewrite (emitted_app _ _ _ Hout).
    apply list_elem_of_fmap. exists room. split; [done|].
    apply dedup_keep_first_elem; [|by apply not_elem_of_nil].
    apply elem_of_app. by right.
Qed.

Lemma disconnect_removes_own_presence_witness :
  let w := Sample.editing 1 [] in
  let w' := (ConnectionHandlers.disconnect Sample.s2 () 1000 w).2 in
  Presence.isUserInRoom 1000 Sample.bobId Sample.roomR (redis w') = false
  ∧ userLeftNotice Sample.s2 Sample.bobId 1000 (redis w') Sample.roomR ∈ emitted w w'.
Proof.
  intros w w'.
  destruct (disconnect_removes_own_presence Sample.s2 Sample.bobId Sample.roomR
              (Sample.present Sample.bobId "Bob" "s2" 0) 1000 w)
    as (Hout & _ & Hnotice).
  - reflexivity.
  - reflexivity.
  - reflexivity.
  - reflexivity.
  - vm_compute. reflexivity.
  - reflexivity.
  - split; [exact Hout|exact Hnotice].
Defined.

(** X6.  [setUserSocketId] never creates a record.  On a record that
    exists it replaces the socket id and [lastActivity] and nothing
    else, in that room only; from then on the cleanup run for any other
    connection of the identity leaves the record in place.  (Redis
    answers.) *)
Theorem socket_id_handover now u room socketId r :
  Redis.redis_up r = true →
  let r' := PresenceSocket.setUserSocketId now u room socketId r in
  match presenceRecord now r (Presence.roomKey room) u with
  | None => r' = r
  | Some d =>
      presenceRecord now r' (Presence.roomKey room) u = Some (handedOver d socketId now)
      ∧ (∀ k f, (k, f) ≠ (Presence.roomKey room, u) →
           presenceRecord now r' k f = presenceRecord now r k f)
      ∧ (∀ old, JS.truthy old = true → old ≠ socketId →
           presenceRecord now (Presence.cleanupUserPresence now u (Some old) r').2
             (Presence.roomKey room) u
           = Some (handedOver d socketId now))
  end.
Proof.
  intros Hup r'. subst r'.
  unfold PresenceSocket.setUserSocketId, Redis.hGet, Redis.hSet. rewrite Hup.
  fold (presenceRecord now r (Presence.roomKey room) u).
  destruct (presenceRecord now r (Presence.roomKey room) u) as [d|] eqn:Hrec; [|done].
  destruct (presenceRecord_live _ _ _ _ _ Hrec) as [[e Hlive] _].
  rewrite Hlive. cbv zeta. cbn [default from_option]. unfold Datatypes.id.
  fold (handedOver d socketId now).
  pose proof (liveHash_alive _ _ _ _ Hlive) as Halive.
  assert (Hnew : presenceRecord now
                   (Redis.set_hashes
                      (<[Presence.roomKey room :=
                           {| Redis.h_fields :=
                                <[u := handedOver d socketId now]> (Redis.h_fields e);
                              Redis.h_expireAt := Redis.h_expireAt e |}]> (Redis.hashes r)) r)
                   (Presence.roomKey room) u
                 = Some (handedOver d socketId now)).
  { rewrite presenceRecord_set_hashes_insert, decide_True by done.
    cbn [Redis.h_expireAt Redis.h_fields]. rewrite Halive. apply lookup_insert_eq. }
  split_and!.
  - exact Hnew.
  - intros k f Hne. rewrite presenceRecord_set_hashes_insert.
    destruct (decide (Presence.roomKey room = k)) as [<-|Hk]; [|done].
    cbn [Redis.h_expireAt Redis.h_fields]. rewrite Halive.
    rewrite lookup_insert_ne by congruence.
    unfold presenceRecord, Redis.fieldsOf. by rewrite Hlive.
  - intros old Hold Hne.
    match goal with
    | |- presenceRecord now (Presence.cleanupUserPresence now u (Some old) ?r1).2 _ _ = _ =>
        destruct (cleanupUserPresence_guard now u old r1 Hold (Presence.roomKey room) u)
          as [->|(_ & d' & Hd' & Hsid' & _)]
    end.
    + exact Hnew.
    + rewrite Hnew in Hd'. injection Hd' as <-. by cbn in Hsid'.
Qed.

Lemma socket_id_handover_witness :
  let r := redis (Sample.editing 1 []) in
  presenceRecord 1000 (PresenceSocket.setUserSocketId 1000 Sample.bobId Sample.roomR "s9" r)
    (Presence.roomKey Sample.roomR) Sample.bobId
  = Some (handedOver (Sample.present Sample.bobId "Bob" "s2" 0) "s9" 1000).
Proof.
  intros r.
  pose proof (socket_id_handover 1000 Sample.bobId Sample.roomR "s9" r eq_refl) as H.
  cbv zeta in H.
  change (presenceRecord 1000 r (Presence.roomKey Sample.roomR) Sample.bobId)
    with (Some (Sample.present Sample.bobId "Bob" "s2" 0)) in H at 1.
  exact (proj1 H).
Defined.

End CleanupExtras.

(** ** Signs of life: heartbeats and presence updates *)

Section LivenessFacts.
Import SocketIO Liveness.
Implicit Types (r : Redis.t) (now t : Z) (u room k key : string) (w : World).

Lemma updateUserActivity_up now u room r :
  Redis.redis_up (Presence.updateUserActivity now u room r) = Redis.redis_up r.
Proof.
  unfold Presence.updateUserActivity, Redis.hGet, Redis.hSet.
  destruct (Redis.redis_up r) eqn:Hup; [|done].
  by destruct (Redis.fieldsOf now (Presence.roomKey room) r !! u).
Qed.

(** [updateUserActivity] rewrites [lastActivity] in one record, if the
    record is there. *)
Lemma presenceRecord_updateUserActivity now u room r k f :
  presenceRecord now (Presence.updateUserActivity now u room r) k f
  = if Redis.redis_up r && bool_decide ((k, f) = (Presence.roomKey room, u))
    then (λ d, seenAt d now) <$> presenceRecord now r k f
    else presenceRecord now r k f.
Proof.
  unfold Presence.updateUserActivity, Redis.hGet, Redis.hSet.
  destruct (Redis.redis_up r) eqn:Hup; [|done]. cbn [andb].
  fold (presenceRecord now r (Presence.roomKey room) u).
  destruct (presenceRecord now r (Presence.roomKey room) u) as [d|] eqn:Hrec.
  - destruct (presenceRecord_live _ _ _ _ _ Hrec) as [[e Hlive] _].
    pose proof (liveHash_alive _ _ _ _ Hlive) as Halive.
    rewrite Hlive. cbv zeta. cbn [default from_option]. unfold Datatypes.id.
    rewrite presenceRecord_set_hashes_insert.
    cbn [Redis.h_expireAt Redis.h_fields]. rewrite Halive.
    assert (Hfields : ∀ f', Redis.h_fields e !! f' = presenceRecord now r (Presence.roomKey room) f').
    { intros f'. unfold presenceRecord, Redis.fieldsOf. by rewrite Hlive. }
    destruct (decide (Presence.roomKey room = k)) as [<-|Hk].
    + destruct (decide (f = u)) as [->|Hf].
      * rewrite bool_decide_eq_true_2 by done. rewrite lookup_insert_eq, Hrec. done.
      * rewrite bool_decide_eq_false_2 by congruence.
        rewrite lookup_insert_ne by done. apply Hfields.
    + rewrite bool_decide_eq_false_2 by congruence. done.
  - case_bool_decide as Hkf; [|done].
    injection Hkf as -> ->. by rewrite Hrec.
Qed.

Lemma heartbeat_expiry socket now w k :
  Redis.h_expireAt <$> Redis.hashes (redis (heartbeat socket () now w).1.2) !! k
  = Redis.h_expireAt <$> Redis.hashes (redis w) !! k.
Proof.
  unfold heartbeat. cbn [fst snd].
  destruct (userId socket) as [u|]; [|done].
  destruct (currentRoom socket) as [room|]; [|done].
  destruct (JS.truthy room); [|done].
  world_simpl. apply updateUserActivity_expiry.
Qed.

(** No number of heartbeats moves the expiry of a key. *)
Lemma heartbeats_expiry beats w k :
  Redis.h_expireAt <$> Redis.hashes (redis (heartbeats beats w)) !! k
  = Redis.h_expireAt <$> Redis.hashes (redis w) !! k.
Proof.
  revert w. induction beats as [|[socket t] beats IH]; intros w; [done|].
  cbn [heartbeats]. by rewrite IH, heartbeat_expiry.
Qed.

Lemma fieldsOf_expired t key r e bound :
  Redis.hashes r !! key = Some e →
  Redis.h_expireAt e = Some bound →
  bound < t →
  Redis.fieldsOf t key r = ∅.
Proof.
  intros He Hb Hlt. unfold Redis.fieldsOf, Redis.liveHash. rewrite He, Hb.
  cbn [Redis.alive]. by rewrite bool_decide_eq_false_2 by lia.
Qed.

End LivenessFacts.

Section LivenessExtras.
Import SocketIO Liveness.
Implicit Types (r : Redis.t) (now t : Z) (u room k key : string) (w : World).

(** X7.  The presence hash of a room expires 24 hours after the last
    [addUserToRoom] into the room, and heartbeats do not move that
    time: whatever heartbeats arrive after a join, from whatever
    connections, once the 24 hours have passed the room lists nobody
    and nobody counts as being in it.  (Redis answers at the join.) *)
Theorem heartbeats_do_not_extend_presence beats u room d now t w :
  Redis.redis_up (redis w) = true →
  now + 86400000 < t →
  let joined := with_redis (Presence.addUserToRoom now u room d (redis w)) w in
  let w' := heartbeats beats joined in
  Presence.getUsersInRoom t room (redis w') = []
  ∧ ∀ u', Presence.isUserInRoom t u' room (redis w') = false.
Proof.
  intros Hup Hlt joined w'.
  pose proof (heartbeats_expiry beats joined (Presence.roomKey room)) as Hexp.
  fold w' in Hexp. subst joined. world_simpl.
  rewrite addUserToRoom_hashes in Hexp by done.
  cbn [Redis.hashes Redis.set_hashes] in Hexp. rewrite lookup_insert_eq in Hexp.
  destruct (Redis.hashes (redis w') !! Presence.roomKey room) as [e|] eqn:He;
    [|discriminate].
  injection Hexp as Hexp. cbn in Hexp.
  pose proof (fieldsOf_expired t _ _ _ _ He Hexp Hlt) as Hempty.
  split.
  - unfold Presence.getUsersInRoom, Redis.hGetAll.
    destruct (Redis.redis_up (redis w')); [|done].
    by rewrite Hempty, map_to_list_empty.
  - intros u'. apply isUserInRoom_absent. unfold presenceRecord. by rewrite Hempty.
Qed.

Lemma heartbeats_do_not_extend_presence_witness :
  let joined :=
    with_redis (Presence.addUserToRoom 0 Sample.aliceId Sample.roomR
                  (Sample.present Sample.aliceId "Alice" "s1" 0) (redis Sample.base))
      Sample.base in
  let online := Sample.connection "s1" Sample.alice (Some Sample.roomR) in
  Presence.getUsersInRoom 86400001 Sample.roomR
    (redis (heartbeats [(online, 1000); (online, 86399000)] joined)) = [].
Proof.
  intros joined online.
  apply (heartbeats_do_not_extend_presence [(online, 1000); (online, 86399000)]
           Sample.aliceId Sample.roomR (Sample.present Sample.aliceId "Alice" "s1" 0) 0
           86400001 Sample.base).
  - reflexivity.
  - lia.
Defined.

(** X8.  A heartbeat of a connection that has an identity and a current
    room is always acknowledged, to that connection only, and changes
    one thing at most: in the record of that identity in that room,
    [lastActivity] becomes the time of the heartbeat.  It creates no
    record and touches no other.  (Redis answers.) *)
Theorem heartbeat_refreshes_own_activity socket u room now w :
  userId socket = Some u →
  currentRoom socket = Some room →
  JS.truthy room = true →
  Redis.redis_up (redis w) = true →
  let run := heartbeat socket () now w in
  run.1.1 = socket
  ∧ run.2 = [Reply.toSocket socket "heartbeat-ack" (Reply.HeartbeatAck now)]
  ∧ outbox (run.1.2) = outbox w
  ∧ ∀ k f,
      presenceRecord now (redis (run.1.2)) k f
      = if bool_decide ((k, f) = (Presence.roomKey room, u))
        then (λ d, seenAt d now) <$> presenceRecord now (redis w) k f
        else presenceRecord now (redis w) k f.
Proof.
  intros Hu Hroom Htruthy Hup run. subst run. unfold heartbeat.
  rewrite Hu, Hroom, Htruthy. cbn [fst snd]. world_simpl.
  split_and!; try done.
  intros k f. by rewrite presenceRecord_updateUserActivity, Hup.
Qed.

Lemma heartbeat_refreshes_own_activity_witness :
  let online := Sample.connection "s2" Sample.bob (Some Sample.roomR) in
  let w := Sample.editing 1 [] in
  presenceRecord 5000 (redis (heartbeat online () 5000 w).1.2)
    (Presence.roomKey Sample.roomR) Sample.bobId
  = Some (seenAt (Sample.present Sample.bobId "Bob" "s2" 0) 5000).
Proof.
  intros online w.
  destruct (heartbeat_refreshes_own_activity online Sample.bobId Sample.roomR 5000 w)
    as (_ & _ & _ & Hrec).
  - reflexivity.
  - reflexivity.
  - reflexivity.
  - reflexivity.
  - rewrite Hrec. reflexivity.
Defined.

End LivenessExtras.

(** ** The history of a board *)

Section HistoryFacts.
Import WhiteboardModel WhiteboardHistory.
Implicit Types (s : Snapshot) (l : list Snapshot).

Lemma insertNewestFirst_perm s l : insertNewestFirst s l ≡ₚ s :: l.
Proof.
  induction l as [|s' l IH]; cbn [insertNewestFirst]; [done|].
  case_bool_decide; [done|]. by rewrite IH, Permutation_swap.
Qed.

Lemma sortNewestFirst_perm l : sortNewestFirst l ≡ₚ l.
Proof.
  induction l as [|s l IH]; [done|]. cbn [sortNewestFirst foldr].
  fold (sortNewestFirst l). by rewrite insertNewestFirst_perm, IH.
Qed.

Lemma insertNewestFirst_sorted s l :
  StronglySorted (λ a b, snap_timestamp b ≤ snap_timestamp a) l →
  StronglySorted (λ a b, snap_timestamp b ≤ snap_timestamp a) (insertNewestFirst s l).
Proof.
  induction 1 as [|s' l Hl IH Hall]; cbn [insertNewestFirst].
  { repeat constructor. }
  case_bool_decide as Hle.
  - constructor; [by constructor|]. constructor; [done|].
    eapply Forall_impl; [exact Hall|]. cbn. intros; lia.
  - constructor; [done|].
    rewrite insertNewestFirst_perm. constructor; [lia|done].
Qed.

Lemma sortNewestFirst_sorted l :
  StronglySorted (λ a b, snap_timestamp b ≤ snap_timestamp a) (sortNewestFirst l).
Proof.
  induction l as [|s l IH]; [constructor|]. by apply insertNewestFirst_sorted.
Qed.

(** A snapshot newer than all the others sorts first, wherever it
    stood. *)
Lemma sortNewestFirst_newest l s acc :
  Forall (λ s', snap_timestamp s' < snap_timestamp s) l →
  foldr insertNewestFirst (s :: acc) l = s :: foldr insertNewestFirst acc l.
Proof.
  induction 1 as [|s' l Hlt _ IH]; [done|]. cbn [foldr]. rewrite IH.
  cbn [insertNewestFirst]. by rewrite bool_decide_eq_false_2 by lia.
Qed.

Lemma slice_last_snoc {A} (n : nat) (l : list A) (x : A) :
  (0 < n)%nat → JS.slice_last n (l ++ [x]) = drop (length l + 1 - n) l ++ [x].
Proof.
  intros Hn. unfold JS.slice_last. rewrite length_app. cbn [length].
  by rewrite drop_app_le by lia.
Qed.

End HistoryFacts.

Section HistoryExtras.
Import WhiteboardModel WhiteboardHistory.

(** X10.  [getHistory] with a limit that is not negative returns the
    [limit] newest snapshots of the room's document, newest first:
    the result is ordered by falling timestamp, holds snapshots of the
    document only, as many as there are up to [limit], and no snapshot
    that is left out is newer than one that is returned.  A room
    without a document has the empty history. *)
Theorem getHistory_returns_the_newest room limit coll :
  0 ≤ limit →
  let history := getHistory room limit coll in
  let stored := default [] (snapshots <$> coll !! room) in
  StronglySorted (λ a b, snap_timestamp b ≤ snap_timestamp a) history
  ∧ length history = Nat.min (Z.to_nat limit) (length stored)
  ∧ history ⊆+ stored
  ∧ (∀ kept s, kept ∈ history → s ∈ stored → s ∉ history →
               snap_timestamp s ≤ snap_timestamp kept).
Proof.
  intros Hlimit history stored. subst history stored. unfold getHistory, slice_first.
  rewrite bool_decide_eq_true_2 by done.
  destruct (coll !! room) as [doc|]; cbn [fmap option_fmap option_map default from_option].
  2:{ split_and!; [constructor|by rewrite Nat.min_0_r|done|].
      intros ? ? Hin. by apply elem_of_nil in Hin. }
  unfold Datatypes.id.
  pose proof (sortNewestFirst_sorted (snapshots doc)) as Hsorted.
  pose proof (sortNewestFirst_perm (snapshots doc)) as Hperm.
  set (sorted := sortNewestFirst (snapshots doc)) in *. clearbody sorted.
  set (n := Z.to_nat limit). clearbody n.
  split_and!.
  - rewrite <-(take_drop n sorted) in Hsorted.
    by apply StronglySorted_app_1_l in Hsorted.
  - by rewrite length_take, Hperm.
  - rewrite <-Hperm. apply sublist_submseteq, sublist_take.
  - intros kept s Hkept Hs Hout.
    rewrite <-Hperm, <-(take_drop n sorted) in Hs.
    apply elem_of_app in Hs as [Hs|Hs]; [done|].
    rewrite <-(take_drop n sorted) in Hsorted.
    by apply (StronglySorted_app_1_elem_of _ _ _ kept s) in Hsorted.
Qed.

Lemma getHistory_returns_the_newest_witness :
  let snapshotAt t coll :=
    (createSnapshot t Sample.roomR [] emptyObject emptyObject Sample.aliceId coll).2 in
  length (getHistory Sample.roomR 2 (snapshotAt 7 (snapshotAt 9 (snapshotAt 5 ∅)))) = 2%nat.
Proof.
  intros snapshotAt.
  destruct (getHistory_returns_the_newest Sample.roomR 2
              (snapshotAt 7 (snapshotAt 9 (snapshotAt 5 ∅)))) as (_ & Hlen & _).
  - lia.
  - rewrite Hlen. reflexivity.
Defined.

(** X11.  [createSnapshot], for a user id that casts to an
    [ObjectId], stores the state it is given as the last
    snapshot of the room, labelled with the document's version plus
    one (1 for a room without a document, which it creates), and
    changes nothing else: the document's elements and version stay as
    they are, other rooms are not touched, and no more than 50
    snapshots are kept.  When moreover every older snapshot has an
    earlier timestamp, [getHistory] with limit 1 returns exactly the
    snapshot just made. *)
Theorem created_snapshot_heads_the_history now room els a f u coll :
  ObjectId.isValid u = true →
  let current := coll !! room in
  let made := {| snap_elements := els; snap_appState := a; snap_files := f;
                 snap_timestamp := now; snap_userId := Some u;
                 snap_version := default 0 (version <$> current) + 1 |} in
  let result := createSnapshot now room els a f u coll in
  result.2 !! room = Some result.1
  ∧ (∀ room', room' ≠ room → result.2 !! room' = coll !! room')
  ∧ elements result.1 = default [] (elements <$> current)
  ∧ version result.1 = default 0 (version <$> current)
  ∧ (length (snapshots result.1) ≤ 50)%nat
  ∧ last (snapshots result.1) = Some made
  ∧ ((∀ doc s, coll !! room = Some doc → s ∈ snapshots doc → snap_timestamp s < now) →
     getHistory room 1 result.2 = [made]).
Proof.
  intros _ current made result. subst current result.
  unfold createSnapshot. cbn [fst snd].
  assert (Hpush : ∀ old,
            (length (push_slice made old) ≤ 50)%nat
            ∧ last (push_slice made old) = Some made
            ∧ ((∀ s, s ∈ old → snap_timestamp s < now) →
               slice_first 1 (sortNewestFirst (push_slice made old)) = [made])).
  { intros old. unfold push_slice. rewrite slice_last_snoc by lia.
    split_and!.
    - rewrite length_app, length_drop. cbn [length]. lia.
    - by rewrite last_snoc.
    - intros Hlt. unfold sortNewestFirst. rewrite foldr_app. cbn [foldr insertNewestFirst].
      rewrite sortNewestFirst_newest; [done|].
      apply Forall_forall. intros s Hs. cbn. apply Hlt.
      by apply (subseteq_drop (length old + 1 - 50) old). }
  destruct (coll !! room) as [doc|] eqn:Hdoc;
    cbn [fmap option_fmap option_map default from_option]; unfold Datatypes.id.
  - destruct (Hpush (snapshots doc)) as (Hlen & Hlast & Hfirst).
    unfold getHistory. rewrite lookup_insert_eq.
    cbn [snapshots with_snapshots elements version].
    split_and!; try done.
    + intros room' Hne. by rewrite lookup_insert_ne.
    + intros Hold. apply Hfirst. by eauto.
  - destruct (Hpush []) as (Hlen & Hlast & Hfirst).
    unfold getHistory. rewrite lookup_insert_eq.
    cbn [snapshots with_snapshots elements version].
    split_and!; try done.
    all: try (intros room' Hne; by rewrite lookup_insert_ne).
    all: try (intros _; apply Hfirst; intros s Hs; by apply elem_of_nil in Hs).
Qed.

(** On a board that holds 50 snapshots, taken at the times 1 to 50:
    the new one is the last of 50 again, so the oldest has gone, and
    it heads the history. *)
Lemma created_snapshot_heads_the_history_witness :
  let older t := {| snap_elements := []; snap_appState := emptyObject;
                    snap_files := emptyObject; snap_timestamp := Z.of_nat t;
                    snap_userId := Some Sample.bobId; snap_version := 1 |} in
  let coll := {[ Sample.roomR :=
                   with_snapshots (map older (seq 1 50)) (Sample.board 7 []) ]} in
  let made := {| snap_elements := Sample.elementsUpTo 2; snap_appState := emptyObject;
                 snap_files := emptyObject; snap_timestamp := 1000;
                 snap_userId := Some Sample.aliceId; snap_version := 8 |} in
  let result := createSnapshot 1000 Sample.roomR (Sample.elementsUpTo 2) emptyObject
                  emptyObject Sample.aliceId coll in
  (length (snapshots result.1) ≤ 50)%nat
  ∧ last (snapshots result.1) = Some made
  ∧ getHistory Sample.roomR 1 result.2 = [made].
Proof.
  intros older coll made result.
  destruct (created_snapshot_heads_the_history 1000 Sample.roomR (Sample.elementsUpTo 2)
              emptyObject emptyObject Sample.aliceId coll eq_refl)
    as (_ & _ & _ & _ & Hbound & Hlast & Hhead).
  split; [exact Hbound|]. split; [exact Hlast|].
  apply Hhead. intros doc s Hdoc Hs.
  assert (Hall : Forall (λ s, snap_timestamp s < 1000) (map older (seq 1 50)))
    by (apply (bool_decide_unpack _); vm_compute; exact I).
  vm_compute in Hdoc. injection Hdoc as <-.
  by apply (proj1 (Forall_forall _ _) Hall).
Defined.

End HistoryExtras.

(** ** Whiteboard writes: who may write, and what is stored *)

Section WriteFacts.
Import SocketIO WhiteboardHandlers.
Implicit Types (socket : Socket) (w : World) (now : Z) (wb : WhiteboardModel.t).

Lemma preSave_appState now d :
  WhiteboardModel.appState (WhiteboardModel.preSave now d)
  = WhiteboardModel.appState (WhiteboardModel.doc d).
Proof.
  unfold WhiteboardModel.preSave.
  destruct (_ || _ || _); [|done]. destruct (_ && _); [|done]. by case_bool_decide.
Qed.

Lemma preSave_files now d :
  WhiteboardModel.files (WhiteboardModel.preSave now d)
  = WhiteboardModel.files (WhiteboardModel.doc d).
Proof.
  unfold WhiteboardModel.preSave.
  destruct (_ || _ || _); [|done]. destruct (_ && _); [|done]. by case_bool_decide.
Qed.

Lemma preSave_lastModifiedBy now d :
  WhiteboardModel.lastModifiedBy (WhiteboardModel.preSave now d)
  = WhiteboardModel.lastModifiedBy (WhiteboardModel.doc d).
Proof.
  unfold WhiteboardModel.preSave.
  destruct (_ || _ || _); [|done]. destruct (_ && _); [|done]. by case_bool_decide.
Qed.

Lemma preSave_lastModifiedAt now d :
  WhiteboardModel.lastModifiedAt (WhiteboardModel.doc d) = now →
  WhiteboardModel.lastModifiedAt (WhiteboardModel.preSave now d) = now.
Proof.
  intros Hat. unfold WhiteboardModel.preSave.
  destruct (_ || _ || _); [|done]. destruct (_ && _); [|done]. by case_bool_decide.
Qed.

Lemma checkWhiteboardAccess_denied socket roomId w :
  roomId ∉ roomsOf (sid socket) (adapter w) →
  checkWhiteboardAccess socket roomId w
  = (false, emit socket "error"
              (err "ACCESS_DENIED" "Access denied: Not a member of this room") w).
Proof. intros Hout. unfold checkWhiteboardAccess. by rewrite bool_decide_eq_false_2. Qed.

(** The index [findIndex] returns is the first one that holds an
    element with the id. *)
Lemma findIndex_first id (els : list Element) i el :
  els !! i = Some el → el_id el = id →
  (∀ j el', (j < i)%nat → els !! j = Some el' → el_id el' ≠ id) →
  findIndex id els = Some i.
Proof.
  intros Hi Hid Hfirst. unfold findIndex.
  rewrite (proj2 (list_find_Some (λ el, el_id el = id) els i el)); [done|].
  split_and!; [done|done|]. intros j el' Hj Hlt. by eapply Hfirst.
Qed.


End WriteFacts.

Section WriteExtras.
Import SocketIO WhiteboardHandlers.
Implicit Types (socket : Socket) (w : World) (now : Z) (wb : WhiteboardModel.t).

(** X12.  None of the four whiteboard writes gets past a connection
    that has no identity, or that is not attached to the channel of
    the room it writes to: the caller is sent one error ([AUTH_ERROR],
    or [ACCESS_DENIED]) and nothing else happens; no document, no
    throttle entry and no presence record changes. *)
Theorem whiteboard_writes_are_gated m socket now w :
  userId socket = None ∨ mutationRoom m ∉ roomsOf (sid socket) (adapter w) →
  dispatch m socket now w
  = (socket,
     emit socket "error"
       (match userId socket with
        | None => err "AUTH_ERROR" "User not authenticated"
        | Some _ => err "ACCESS_DENIED" "Access denied: Not a member of this room"
        end) w).
Proof.
  intros Hgate.
  destruct m as [d|d|d|d]; cbn [dispatch mutationRoom] in *;
    [unfold whiteboardUpdate|unfold elementCreate|unfold elementUpdate|unfold elementDelete];
    (destruct (userId socket) as [u|]; [|done]);
    (destruct Hgate as [?|Hout]; [done|]);
    by rewrite checkWhiteboardAccess_denied.
Qed.

Lemma whiteboard_writes_are_gated_witness :
  let create := ElementCreate {| ed_roomId := Sample.roomR;
                                 ed_element := Sample.elementNo 0 |} in
  let w := Sample.editing 1 [] in
  dispatch create Sample.s3 1000 w
  = (Sample.s3,
     emit Sample.s3 "error"
       (err "ACCESS_DENIED" "Access denied: Not a member of this room") w).
Proof.
  intros create w.
  apply (whiteboard_writes_are_gated create Sample.s3 1000 w).
  right. vm_compute. intros Hin.
  repeat (apply elem_of_cons in Hin as [Hin|Hin]; [discriminate|]).
  by apply elem_of_nil in Hin.
Defined.



(** X14.  An accepted [whiteboard-update] of a stored user (an
    identity that casts to an [ObjectId]) in a room that has a document
    stores exactly what was sent: the elements, the app state and the
    files ([{}] when none were sent) replace the stored ones, the
    writer and the time are recorded, and the throttle of the writer
    is set to the time of the write.  The room is sent one
    [whiteboard-updated], which carries the payload and the version
    that is now stored; the caller is sent nothing. *)
Theorem replace_all_stores_the_payload socket data now w u wb :
  userId socket = Some u →
  ObjectId.isValid u = true →
  ud_roomId data ∈ roomsOf (sid socket) (adapter w) →
  mongo_up w = true →
  100 ≤ now - default 0 (updateRateLimit w !! updateKey u (ud_roomId data)) →
  whiteboards w !! ud_roomId data = Some wb →
  let run := whiteboardUpdate socket (Some data) now w in
  ∃ saved,
    whiteboards run.2 = <[ud_roomId data := saved]> (whiteboards w)
    ∧ WhiteboardModel.elements saved = ud_elements data
    ∧ WhiteboardModel.appState saved = ud_appState data
    ∧ WhiteboardModel.files saved = default emptyObject (ud_files data)
    ∧ WhiteboardModel.lastModifiedBy saved = Some u
    ∧ WhiteboardModel.lastModifiedAt saved = now
    ∧ updateRateLimit run.2 = <[updateKey u (ud_roomId data) := now]> (updateRateLimit w)
    ∧ emitted w run.2
      = [{| target := ToRoomExcept (ud_roomId data) (sid socket);
            event := "whiteboard-updated";
            payload := PWhiteboardUpdated (ud_roomId data) (ud_elements data)
                         (ud_appState data) (default emptyObject (ud_files data))
                         (WhiteboardModel.version saved) u (sid socket)
                         (length (ud_elements data)) |}].
Proof.
  intros Hu Hid Hin Hup Hge Hwb run. subst run. unfold whiteboardUpdate.
  rewrite Hu, checkWhiteboardAccess_granted by done.
  rewrite bool_decide_eq_false_2 by lia.
  unfold findOne. up_simpl Hup. rewrite Hwb.
  rewrite (save_accepted _ _ _ _ u) by done. world_simpl.
  match goal with
  | |- context [WhiteboardModel.preSave now ?d] =>
      assert (He : WhiteboardModel.elements (WhiteboardModel.preSave now d)
                   = ud_elements data) by (by rewrite preSave_elements);
      assert (Ha : WhiteboardModel.appState (WhiteboardModel.preSave now d)
                   = ud_appState data) by (by rewrite preSave_appState);
      assert (Hf : WhiteboardModel.files (WhiteboardModel.preSave now d)
                   = default emptyObject (ud_files data)) by (by rewrite preSave_files);
      assert (Hby : WhiteboardModel.lastModifiedBy (WhiteboardModel.preSave now d)
                    = Some u) by (by rewrite preSave_lastModifiedBy);
      pose proof (preSave_lastModifiedAt now d eq_refl) as Hat;
      set (saved := WhiteboardModel.preSave now d) in *; clearbody saved
  end.
  exists saved. split_and!; try done.
  by apply emitted_app.
Qed.

Lemma replace_all_stores_the_payload_witness :
  let data := {| ud_roomId := Sample.roomR; ud_elements := Sample.elementsUpTo 3;
                 ud_appState := emptyObject; ud_files := None |} in
  let w := Sample.editing 1 [] in
  WhiteboardModel.elements
    <$> whiteboards (whiteboardUpdate Sample.s1 (Some data) 1000 w).2 !! Sample.roomR
  = Some (Sample.elementsUpTo 3).
Proof.
  intros data w.
  destruct (replace_all_stores_the_payload Sample.s1 data 1000 w Sample.aliceId
              (Sample.board 1 [])) as (saved & Hstored & Hels & _).
  - reflexivity.
  - reflexivity.
  - by_compute.
  - reflexivity.
  - vm_compute. discriminate.
  - reflexivity.
  - rewrite Hstored, lookup_insert_eq. cbn. by rewrite Hels.
Defined.



(** X16.  An accepted [element-update] of a stored user replaces one
    element: the first
    one on the board that has the id.  The client's element, stamped
    with the writer and the time, takes its place; the board keeps its
    length and every other element, later elements of the same id
    included.  The room is sent the stored element and version. *)
Theorem element_update_replaces_first_match socket data now w u wb i old :
  userId socket = Some u →
  ObjectId.isValid u = true →
  ed_roomId data ∈ roomsOf (sid socket) (adapter w) →
  mongo_up w = true →
  whiteboards w !! ed_roomId data = Some wb →
  WhiteboardModel.elements wb !! i = Some old →
  el_id old = el_id (ed_element data) →
  (∀ j el, (j < i)%nat → WhiteboardModel.elements wb !! j = Some el →
           el_id el ≠ el_id (ed_element data)) →
  let run := elementUpdate socket (Some data) now w in
  let stored := stamp (ed_element data) u now in
  ∃ saved,
    whiteboards run.2 = <[ed_roomId data := saved]> (whiteboards w)
    ∧ WhiteboardModel.elements saved = <[i := stored]> (WhiteboardModel.elements wb)
    ∧ length (WhiteboardModel.elements saved) = length (WhiteboardModel.elements wb)
    ∧ WhiteboardModel.elements saved !! i = Some stored
    ∧ (∀ j, j ≠ i →
         WhiteboardModel.elements saved !! j = WhiteboardModel.elements wb !! j)
    ∧ emitted w run.2
      = [{| target := ToRoomExcept (ed_roomId data) (sid socket);
            event := "element-updated";
            payload := PElementUpdated (ed_roomId data) (Some stored) u
                         (WhiteboardModel.version saved) |}].
Proof.
  intros Hu Hvalid Hin Hup Hwb Hi Hid Hfirst run stored. subst run stored.
  unfold elementUpdate.
  rewrite Hu, checkWhiteboardAccess_granted by done.
  unfold findOne. rewrite Hup, Hwb.
  rewrite (findIndex_first _ _ i old) by done.
  rewrite (save_accepted _ _ _ _ u) by done.
  match goal with
  | |- context [WhiteboardModel.preSave now ?d] =>
      assert (He : WhiteboardModel.elements (WhiteboardModel.preSave now d)
                   = <[i := stamp (ed_element data) u now]> (WhiteboardModel.elements wb))
        by (by rewrite preSave_elements);
      set (saved := WhiteboardModel.preSave now d) in *; clearbody saved
  end.
  assert (Hlt : (i < length (WhiteboardModel.elements wb))%nat)
    by (by eapply lookup_lt_Some).
  exists saved. cbn [fst snd]. world_simpl. rewrite He. split_and!.
  - done.
  - done.
  - by rewrite length_insert.
  - by apply list_lookup_insert_eq.
  - intros j Hne. by apply list_lookup_insert_ne.
  - rewrite list_lookup_insert_eq by done. by apply emitted_app.
Qed.

Lemma element_update_replaces_first_match_witness :
  let data := {| ed_roomId := Sample.roomR; ed_element := Sample.elementNo 1 |} in
  let w := Sample.editing 1 (Sample.elementsUpTo 3) in
  WhiteboardModel.elements
    <$> whiteboards (elementUpdate Sample.s1 (Some data) 1000 w).2 !! Sample.roomR
  = Some [Sample.elementNo 0; stamp (Sample.elementNo 1) Sample.aliceId 1000;
          Sample.elementNo 2].
Proof.
  intros data w.
  destruct (element_update_replaces_first_match Sample.s1 data 1000 w Sample.aliceId
              (Sample.board 1 (Sample.elementsUpTo 3)) 1%nat (Sample.elementNo 1))
    as (saved & Hstored & Hels & _).
  - reflexivity.
  - reflexivity.
  - by_compute.
  - reflexivity.
  - reflexivity.
  - reflexivity.
  - reflexivity.
  - intros j el Hj Hel. assert (j = 0%nat) as -> by lia.
    vm_compute in Hel. injection Hel as <-. vm_compute. discriminate.
  - rewrite Hstored, lookup_insert_eq. cbn. by rewrite Hels.
Defined.

(** X17.  An accepted [element-delete] of a stored user, of an id that
    is on the board, removes every element with that id, not only the first, and keeps
    the others in their order; the room is sent [element-deleted] with
    the version that is now stored.  The caller is sent nothing. *)
Theorem element_delete_removes_every_match socket data now w u wb :
  userId socket = Some u →
  ObjectId.isValid u = true →
  dd_roomId data ∈ roomsOf (sid socket) (adapter w) →
  mongo_up w = true →
  whiteboards w !! dd_roomId data = Some wb →
  Exists (λ el, el_id el = dd_elementId data) (WhiteboardModel.elements wb) →
  let run := elementDelete socket (Some data) now w in
  ∃ saved,
    whiteboards run.2 = <[dd_roomId data := saved]> (whiteboards w)
    ∧ WhiteboardModel.elements saved
      = filter (λ el, el_id el ≠ dd_elementId data) (WhiteboardModel.elements wb)
    ∧ Forall (λ el, el_id el ≠ dd_elementId data) (WhiteboardModel.elements saved)
    ∧ WhiteboardModel.version saved = WhiteboardModel.version wb + 2
    ∧ emitted w run.2
      = [{| target := ToRoomExcept (dd_roomId data) (sid socket);
            event := "element-deleted";
            payload := PElementDeleted (dd_roomId data) (dd_elementId data) u
                         (WhiteboardModel.version saved) |}].
Proof.
  intros Hu Hvalid Hin Hup Hwb Hex run. subst run. unfold elementDelete.
  rewrite Hu, checkWhiteboardAccess_granted by done.
  unfold findOne. rewrite Hup, Hwb.
  rewrite (save_accepted _ _ _ _ u) by done.
  assert (Hchanged : filter (λ el, el_id el ≠ dd_elementId data) (WhiteboardModel.elements wb)
                     ≠ WhiteboardModel.elements wb).
  { intros Heq. apply Exists_exists in Hex as (el & Hel & Hid).
    rewrite <-Heq in Hel. by apply list_elem_of_filter in Hel as [? _]. }
  match goal with
  | |- context [WhiteboardModel.preSave now ?d] =>
      assert (He : WhiteboardModel.elements (WhiteboardModel.preSave now d)
                   = filter (λ el, el_id el ≠ dd_elementId data)
                       (WhiteboardModel.elements wb))
        by (by rewrite preSave_elements);
      assert (Hv : WhiteboardModel.version (WhiteboardModel.preSave now d)
                   = WhiteboardModel.version wb + 2)
        by (rewrite preSave_version; cbn;
            rewrite bool_decide_eq_false_2 by done; cbn; lia);
      set (saved := WhiteboardModel.preSave now d) in *; clearbody saved
  end.
  exists saved. cbn [fst snd]. world_simpl. split_and!.
  - done.
  - done.
  - rewrite He. apply Forall_forall. intros el Hel.
    by apply list_elem_of_filter in Hel as [? _].
  - lia.
  - by apply emitted_app.
Qed.

Lemma element_delete_removes_every_match_witness :
  let data := {| dd_roomId := Sample.roomR; dd_elementId := "a" |} in
  let twice := [Sample.elementNo 0; Sample.elementNo 1; Sample.elementNo 0] in
  let w := Sample.editing 1 twice in
  WhiteboardModel.elements
    <$> whiteboards (elementDelete Sample.s1 (Some data) 1000 w).2 !! Sample.roomR
  = Some [Sample.elementNo 1].
Proof.
  intros data twice w.
  destruct (element_delete_removes_every_match Sample.s1 data 1000 w Sample.aliceId
              (Sample.board 1 twice)) as (saved & Hstored & Hels & _).
  - reflexivity.
  - reflexivity.
  - by_compute.
  - reflexivity.
  - reflexivity.
  - left. reflexivity.
  - rewrite Hstored, lookup_insert_eq. cbn. by rewrite Hels.
Defined.

End WriteExtras.

(** ** Whiteboard reads: loading, the snapshot request and cursors *)

(** The run sent the caller an error, or nothing. *)
Ltac to_caller :=
  cbn [fst snd];
  first [ apply emitsOnly_refl
        | apply emitsOnly_emit; [reflexivity|apply emitsOnly_refl] ].

Section ReadFacts.
Import SocketIO WhiteboardHandlers WhiteboardReaders.
Implicit Types (socket : Socket) (w : World) (now : Z) (wb : WhiteboardModel.t).


Lemma whiteboardLoad_outbox socket data now w :
  emitsOnly (λ e, target e = ToSocket (sid socket)) w (whiteboardLoad socket data now w).1.2.
Proof.
  unfold whiteboardLoad, checkWhiteboardAccess, findOne.
  destruct data as [data|]; [|to_caller].
  destruct (negb _); [to_caller|].
  destruct (userId socket); [|to_caller].
  case_bool_decide; [|to_caller].
  destruct (mongo_up w) eqn:Hup; [|to_caller].
  up_simpl Hup. to_caller.
Qed.

Lemma whiteboardSnapshot_outbox socket data now w :
  emitsOnly (λ e, target e = ToSocket (sid socket)) w
    (whiteboardSnapshot socket data now w).1.2.
Proof.
  unfold whiteboardSnapshot, checkWhiteboardAccess, findOne.
  destruct data as [data|]; [|to_caller].
  destruct (negb _); [to_caller|].
  destruct (userId socket); [|to_caller].
  case_bool_decide; [|to_caller].
  destruct (mongo_up w) eqn:Hup; [|to_caller].
  up_simpl Hup. destruct (whiteboards w !! _); to_caller.
Qed.

End ReadFacts.

Section ReadExtras.
Import SocketIO WhiteboardHandlers WhiteboardReaders.
Implicit Types (socket : Socket) (w : World) (now : Z) (wb : WhiteboardModel.t).



(** X19.  [whiteboard-load] and [whiteboard-snapshot] store nothing,
    whatever they are sent and by whom: no document, snapshot list,
    presence record, throttle entry or channel changes, and whatever
    they send goes to the caller alone.  In particular a
    [whiteboard-snapshot] request creates no snapshot: the history of
    every room is what it was.  A member's request for a room with a
    document is answered with the document's current version. *)
Theorem whiteboard_reads_store_nothing socket data now w :
  let load := whiteboardLoad socket data now w in
  let request := whiteboardSnapshot socket data now w in
  (sameState w load.1.2
   ∧ emitsOnly (λ e, target e = ToSocket (sid socket)) w load.1.2
   ∧ Forall (λ m, Reply.target m = ToSocket (sid socket)) load.2)
  ∧ (sameState w request.1.2
     ∧ emitsOnly (λ e, target e = ToSocket (sid socket)) w request.1.2
     ∧ Forall (λ m, Reply.target m = ToSocket (sid socket)) request.2
     ∧ (∀ room limit,
          WhiteboardHistory.getHistory room limit (whiteboards (request.1.2))
          = WhiteboardHistory.getHistory room limit (whiteboards w))
     ∧ (∀ room wb,
          data = Some {| RoomHandlers.rd_roomId := room |} →
          JS.truthy room = true → is_Some (userId socket) →
          room ∈ roomsOf (sid socket) (adapter w) → mongo_up w = true →
          whiteboards w !! room = Some wb →
          request.2 = [Reply.toSocket socket "whiteboard-snapshot-created"
                         (Reply.SnapshotCreated room now (WhiteboardModel.version wb))])).
Proof.
  intros load request.
  assert (Hload : sameState w load.1.2
                  ∧ Forall (λ m, Reply.target m = ToSocket (sid socket)) load.2).
  { subst load. unfold whiteboardLoad, checkWhiteboardAccess, findOne, sameState.
    destruct data as [d|]; [|by destruct w].
    destruct (negb _); [by destruct w|].
    destruct (userId socket); [|by destruct w].
    case_bool_decide; [|by destruct w].
    destruct (mongo_up w) eqn:Hup; [|by destruct w].
    up_simpl Hup. split; [by destruct w|]. by repeat constructor. }
  assert (Hrequest : sameState w request.1.2
                     ∧ Forall (λ m, Reply.target m = ToSocket (sid socket)) request.2).
  { subst request. unfold whiteboardSnapshot, checkWhiteboardAccess, findOne, sameState.
    destruct data as [d|]; [|by destruct w].
    destruct (negb _); [by destruct w|].
    destruct (userId socket); [|by destruct w].
    case_bool_decide; [|by destruct w].
    destruct (mongo_up w) eqn:Hup; [|by destruct w].
    up_simpl Hup.
    destruct (whiteboards w !! _); (split; [by destruct w|]); by repeat constructor. }
  destruct Hload as [Hl1 Hl2], Hrequest as [Hr1 Hr2].
  split; [split_and!; [done|apply whiteboardLoad_outbox|done]|].
  split_and!; [done|apply whiteboardSnapshot_outbox|done|..].
  - intros room limit. by rewrite Hr1.
  - intros room wb -> Hroom [u Hu] Hin Hup Hwb. subst request.
    unfold whiteboardSnapshot. cbn [RoomHandlers.rd_roomId]. rewrite Hroom, Hu. cbn [negb].
    rewrite checkWhiteboardAccess_granted by done.
    unfold findOne. by rewrite Hup, Hwb.
Qed.

Lemma whiteboard_reads_store_nothing_witness :
  let w := Sample.editing 7 (Sample.elementsUpTo 2) in
  (whiteboardSnapshot Sample.s1 (Some {| RoomHandlers.rd_roomId := Sample.roomR |}) 1000 w).2
  = [Reply.toSocket Sample.s1 "whiteboard-snapshot-created"
       (Reply.SnapshotCreated Sample.roomR 1000 7)].
Proof.
  intros w.
  destruct (whiteboard_reads_store_nothing Sample.s1
              (Some {| RoomHandlers.rd_roomId := Sample.roomR |}) 1000 w)
    as (_ & _ & _ & _ & _ & Hanswer).
  apply (Hanswer Sample.roomR (Sample.board 7 (Sample.elementsUpTo 2))).
  - reflexivity.
  - reflexivity.
  - by exists Sample.aliceId.
  - by_compute.
  - reflexivity.
  - reflexivity.
Defined.

(** X20.  [cursor-move] is throttled in silence, per identity and
    room: a move less than 50 ms after the last one that was passed on
    is dropped without any notice, and one that is not is sent to the
    others in the room as [cursor-moved], never to the sender, under
    the sender's identity and name and with the server's time,
    whatever identity and time the client put into the cursor.  The
    listener does not ask whether the sender is in the room, sends no
    error, and stores nothing but the time of the move. *)
Theorem cursor_moves_are_throttled_in_silence socket usr data now w :
  user socket = Some usr →
  JS.truthy (id usr) = true →
  let room := cd_roomId data in
  let key := cursorKey (id usr) room in
  let run := cursorMove socket (Some data) now w in
  run.1.1 = socket
  ∧ (now - default 0 (updateRateLimit w !! key) < 50 → run = (socket, w, []))
  ∧ (50 ≤ now - default 0 (updateRateLimit w !! key) →
     run.1.2 = with_updateRateLimit (<[key := now]> (updateRateLimit w)) w
     ∧ run.2 = [Reply.toOthers socket room "cursor-moved"
                  (Reply.CursorMoved room (cur_x (cd_cursor data)) (cur_y (cd_cursor data))
                     (id usr) (name usr) now)]
     ∧ (sid socket ∉ recipients (adapter (run.1.2)) (ToRoomExcept room (sid socket)))
     ∧ ∀ next later, cd_roomId next = room → later - now < 50 →
         cursorMove socket (Some next) later run.1.2 = (socket, run.1.2, [])).
Proof.
  intros Husr Hid room key run. subst room key run. unfold cursorMove.
  rewrite Husr, Hid. cbn [negb].
  case_bool_decide as Hlt; cbn [fst snd].
  - split_and!; [done|done|lia].
  - split_and!; [done|lia|]. intros _.
    split_and!; [done|done|apply broadcast_skips_sender|].
    intros next later Hroom Hsoon. rewrite Hroom. world_simpl.
    rewrite lookup_insert_eq. cbn [default from_option]. unfold Datatypes.id.
    by rewrite bool_decide_eq_true_2 by lia.
Qed.

Lemma cursor_moves_are_throttled_in_silence_witness :
  let move := {| cd_roomId := Sample.roomR;
                 cd_cursor := {| cur_x := 10; cur_y := 20; cur_userId := Sample.bobId;
                                 cur_timestamp := 1 |} |} in
  let w := Sample.editing 1 [] in
  (cursorMove Sample.s3 (Some move) 1000 w).2
  = [Reply.toOthers Sample.s3 Sample.roomR "cursor-moved"
       (Reply.CursorMoved Sample.roomR 10 20 Sample.carolId "Carol" 1000)].
Proof.
  intros move w.
  destruct (cursor_moves_are_throttled_in_silence Sample.s3 Sample.carol move 1000 w)
    as (_ & _ & Hpass).
  - reflexivity.
  - reflexivity.
  - apply Hpass. vm_compute. discriminate.
Defined.

End ReadExtras.

(** ** [leave-room] and [user-presence] as they are registered *)

Section RegisteredExtras.
Import SocketIO RoomHandlers.



End RegisteredExtras.

(** ** The token bucket of the AI routes *)

Section BucketFacts.
Import AiRateLimit.
Implicit Types (m : gmap string RateLimitEntry) (e : RateLimitEntry) (user : string).

Lemma or_else_truthy user : JS.truthy user = true → JS.or_else (Some user) None = Some user.
Proof. intros H. unfold JS.or_else. by rewrite H. Qed.

(** A request inside the hour that the entry's last refill opened: no
    refill; it passes when a token is left. *)
Lemma request_without_refill B user t m e :
  JS.truthy user = true →
  0 ≤ B →
  m !! userKey user = Some e →
  t < lastRefill e + REFILL_INTERVAL →
  aiRateLimitMiddleware B (Some user) t m
  = if bool_decide (tokens e < 1)
    then (TooManyRequests (ceilDiv (REFILL_INTERVAL - (t - lastRefill e)) 1000),
          <[userKey user := e]> m)
    else (Next B (tokens e - 1) (lastRefill e + REFILL_INTERVAL),
          <[userKey user := {| tokens := tokens e - 1; lastRefill := lastRefill e |}]> m).
Proof.
  intros Huser HB He Ht. unfold aiRateLimitMiddleware.
  rewrite or_else_truthy by done. rewrite He. cbn [default from_option].
  unfold Datatypes.id.
  assert (Hq : (t - lastRefill e) / REFILL_INTERVAL ≤ 0).
  { unfold REFILL_INTERVAL in *.
    assert ((t - lastRefill e) / 3600000 < 1); [|lia].
    apply Z.div_lt_upper_bound; lia. }
  rewrite (bool_decide_eq_false_2 (0 < _)) by nia.
  done.
Qed.

(** The first request of a user makes the entry, full, and draws on
    it. *)
Lemma request_first B user t m :
  JS.truthy user = true →
  m !! userKey user = None →
  aiRateLimitMiddleware B (Some user) t m
  = aiRateLimitMiddleware B (Some user) t
      (<[userKey user := {| tokens := B; lastRefill := t |}]> m).
Proof.
  intros Huser Hnone. unfold aiRateLimitMiddleware.
  rewrite or_else_truthy by done. rewrite Hnone, lookup_insert_eq.
  cbn [default from_option]. unfold Datatypes.id. cbn [tokens lastRefill].
  by rewrite !insert_insert_eq.
Qed.

(** A request an hour or more after the last refill: the bucket is
    full again, whatever was left in it. *)
Lemma request_with_refill B user t m e :
  JS.truthy user = true →
  1 ≤ B →
  0 ≤ tokens e →
  m !! userKey user = Some e →
  lastRefill e + REFILL_INTERVAL ≤ t →
  aiRateLimitMiddleware B (Some user) t m
  = (Next B (B - 1) (t + REFILL_INTERVAL),
     <[userKey user := {| tokens := B - 1; lastRefill := t |}]> m).
Proof.
  intros Huser HB Hk He Ht. unfold aiRateLimitMiddleware.
  rewrite or_else_truthy by done. rewrite He. cbn [default from_option].
  unfold Datatypes.id.
  assert (Hq : 1 ≤ (t - lastRefill e) / REFILL_INTERVAL).
  { unfold REFILL_INTERVAL in *. apply Z.div_le_lower_bound; lia. }
  rewrite (bool_decide_eq_true_2 (0 < _)) by nia.
  cbn [tokens lastRefill].
  rewrite Z.min_l by nia.
  by rewrite bool_decide_eq_false_2 by lia.
Qed.

(** Inside the hour, a bucket with [k] tokens passes the first [k]
    requests and turns the others down. *)
Lemma requests_inside_the_hour B user ts : ∀ m k t0,
  JS.truthy user = true →
  0 ≤ B →
  0 ≤ k →
  m !! userKey user = Some {| tokens := k; lastRefill := t0 |} →
  Forall (λ t, t < t0 + REFILL_INTERVAL) ts →
  passed <$> (requests B user ts m).1
  = replicate (Nat.min (Z.to_nat k) (length ts)) true
    ++ replicate (length ts - Z.to_nat k) false.
Proof.
  induction ts as [|t ts IH]; intros m k t0 Huser HB Hk He Hts.
  { cbn. by rewrite Nat.min_0_r. }
  apply Forall_cons in Hts as [Ht Hts]. cbn [requests].
  rewrite (request_without_refill B user t m _ Huser HB He) by done.
  cbn [tokens lastRefill].
  case_bool_decide as Hempty.
  - assert (k = 0) as -> by lia.
    destruct (requests B user ts _) as [responses m2] eqn:Hrest. cbn [fst fmap list_fmap].
    pose proof (IH (<[userKey user := {| tokens := 0; lastRefill := t0 |}]> m) 0 t0
                  Huser HB Hk (lookup_insert_eq _ _ _) Hts) as Hrec.
    rewrite Hrest in Hrec. cbn [fst] in Hrec.
    change (list_fmap _ _ passed responses) with (passed <$> responses).
    rewrite Hrec. cbn. by rewrite Nat.sub_0_r.
  - destruct (requests B user ts _) as [responses m2] eqn:Hrest. cbn [fst fmap list_fmap].
    pose proof (IH (<[userKey user := {| tokens := k - 1; lastRefill := t0 |}]> m) (k - 1) t0
                  Huser HB ltac:(lia) (lookup_insert_eq _ _ _) Hts) as Hrec.
    rewrite Hrest in Hrec. cbn [fst] in Hrec.
    change (list_fmap _ _ passed responses) with (passed <$> responses).
    rewrite Hrec. cbn [passed length].
    replace (Z.to_nat k) with (S (Z.to_nat (k - 1))) by lia.
    cbn [Nat.min replicate Nat.sub app]. done.
Qed.

(** What the middleware answers, and the entry it leaves, depend on
    the user's entry only. *)
Lemma request_local B user t m1 m2 :
  m1 !! userKey user = m2 !! userKey user →
  (aiRateLimitMiddleware B (Some user) t m1).1 = (aiRateLimitMiddleware B (Some user) t m2).1
  ∧ (aiRateLimitMiddleware B (Some user) t m1).2 !! userKey user
    = (aiRateLimitMiddleware B (Some user) t m2).2 !! userKey user.
Proof.
  intros Heq. unfold aiRateLimitMiddleware.
  destruct (JS.or_else (Some user) None) as [u|] eqn:Hu; [|done].
  assert (u = user) as ->.
  { unfold JS.or_else in Hu. destruct (JS.truthy user); by simplify_eq. }
  rewrite Heq. case_bool_decide; cbn [fst snd]; by rewrite !lookup_insert_eq.
Qed.

Lemma requests_local B user ts : ∀ m1 m2,
  m1 !! userKey user = m2 !! userKey user →
  (requests B user ts m1).1 = (requests B user ts m2).1.
Proof.
  induction ts as [|t ts IH]; intros m1 m2 Heq; [done|]. cbn [requests].
  destruct (request_local B user t m1 m2 Heq) as [Hresp Hentry].
  destruct (aiRateLimitMiddleware B (Some user) t m1) as [r1 m1'].
  destruct (aiRateLimitMiddleware B (Some user) t m2) as [r2 m2'].
  cbn [fst snd] in *. subst r2.
  specialize (IH m1' m2' Hentry).
  destruct (requests B user ts m1'), (requests B user ts m2'). cbn [fst] in *.
  by subst.
Qed.

(** The middleware never leaves a bucket overdrawn. *)
Lemma request_tokens_nonnegative B userId t m :
  0 ≤ B →
  map_Forall (λ _ e, 0 ≤ tokens e) m →
  map_Forall (λ _ e, 0 ≤ tokens e) (aiRateLimitMiddleware B userId t m).2.
Proof.
  intros HB Hm. unfold aiRateLimitMiddleware.
  destruct (JS.or_else userId None) as [user|]; [|done].
  assert (He : 0 ≤ tokens (default {| tokens := B; lastRefill := t |} (m !! userKey user))).
  { destruct (m !! userKey user) as [e|] eqn:Hlook; [|done]. by apply (Hm _ _ Hlook). }
  set (e := default {| tokens := B; lastRefill := t |} (m !! userKey user)) in *.
  clearbody e.
  repeat case_bool_decide; cbn [snd tokens lastRefill] in *;
    apply map_Forall_insert_2; try done; cbn [tokens]; lia.
Qed.

(** Without a user id every request is answered with 401. *)
Lemma requests_unauthorized B user ts : ∀ m1 m2,
  JS.truthy user = false →
  (requests B user ts m1).1 = (requests B user ts m2).1.
Proof.
  induction ts as [|t ts IH]; intros m1 m2 Huser; [done|]. cbn [requests].
  unfold aiRateLimitMiddleware, JS.or_else. rewrite Huser.
  specialize (IH m1 m2 Huser).
  destruct (requests B user ts m1), (requests B user ts m2). cbn [fst] in *. by subst.
Qed.

End BucketFacts.

Section BucketExtras.
Import AiRateLimit.
Implicit Types (m : gmap string RateLimitEntry) (e : RateLimitEntry) (user : string).

(** X27.  A user the limiter has not seen gets a full bucket with the
    first request.  Of the requests that follow within the hour after
    that first one, as many pass as the bucket holds, the first one
    counted, and every further one is turned down with 429: of [n]
    requests, the first [min BUCKET_SIZE n] pass. *)
Theorem ai_bucket_passes_one_bucket_an_hour B user first rest m :
  JS.truthy user = true →
  0 ≤ B →
  m !! userKey user = None →
  Forall (λ t, t < first + REFILL_INTERVAL) rest →
  let n := length (first :: rest) in
  passed <$> (requests B user (first :: rest) m).1
  = replicate (Nat.min (Z.to_nat B) n) true ++ replicate (n - Z.to_nat B) false.
Proof.
  intros Huser HB Hnone Hrest n. subst n.
  cbn [requests]. rewrite request_first by done.
  change (let '(response, m1) :=
            aiRateLimitMiddleware B (Some user) first
              (<[userKey user := {| tokens := B; lastRefill := first |}]> m) in
          let '(responses, m2) := requests B user rest m1 in (response :: responses, m2))
    with (requests B user (first :: rest)
            (<[userKey user := {| tokens := B; lastRefill := first |}]> m)).
  apply (requests_inside_the_hour B user (first :: rest) _ B first); try done.
  - apply lookup_insert_eq.
  - constructor; [unfold REFILL_INTERVAL; lia|done].
Qed.

Lemma ai_bucket_passes_one_bucket_an_hour_witness :
  passed <$> (requests 2 Sample.aliceId [0; 10; 3599999; 20] ∅).1
  = [true; true; false; false].
Proof.
  apply (ai_bucket_passes_one_bucket_an_hour 2 Sample.aliceId 0 [10; 3599999; 20] ∅).
  - reflexivity.
  - lia.
  - reflexivity.
  - repeat constructor.
Defined.

(** X28.  The bucket is refilled in one piece, never token by token:
    a request within the hour after the last refill finds what was
    left, and when nothing is left it is turned down with a
    [retryAfter] between 1 and 3600 seconds that does not come
    earlier than the refill; the first request an hour or more after
    the last refill finds the bucket full again, however empty it
    was and however long the user stayed away, and starts a new
    hour. *)
Theorem ai_bucket_refills_in_full B user e t m :
  JS.truthy user = true →
  1 ≤ B →
  0 ≤ tokens e →
  m !! userKey user = Some e →
  lastRefill e ≤ t →
  let run := aiRateLimitMiddleware B (Some user) t m in
  (t < lastRefill e + REFILL_INTERVAL → tokens e = 0 →
   ∃ retryAfter,
     run = (TooManyRequests retryAfter, <[userKey user := e]> m)
     ∧ 1 ≤ retryAfter ≤ 3600
     ∧ lastRefill e + REFILL_INTERVAL ≤ t + retryAfter * 1000)
  ∧ (lastRefill e + REFILL_INTERVAL ≤ t →
     run = (Next B (B - 1) (t + REFILL_INTERVAL),
            <[userKey user := {| tokens := B - 1; lastRefill := t |}]> m)).
Proof.
  intros Huser HB Hk He Ht run. subst run. split.
  - intros Hin Hzero.
    rewrite (request_without_refill B user t m e) by (done || lia).
    rewrite bool_decide_eq_true_2 by lia.
    eexists. split; [reflexivity|].
    unfold ceilDiv, REFILL_INTERVAL in *.
    pose proof (Z.div_mod (- (3600000 - (t - lastRefill e))) 1000 ltac:(lia)) as Hdm.
    pose proof (Z.mod_pos_bound (- (3600000 - (t - lastRefill e))) 1000 ltac:(lia)) as Hb.
    lia.
  - intros Hlate. by apply (request_with_refill B user t m e).
Qed.

Lemma ai_bucket_refills_in_full_witness :
  let m := {[ userKey Sample.aliceId := {| tokens := 0; lastRefill := 1000 |} ]} in
  aiRateLimitMiddleware 20 (Some Sample.aliceId) 3601000 m
  = (Next 20 19 7201000,
     <[userKey Sample.aliceId := {| tokens := 19; lastRefill := 3601000 |}]> m).
Proof.
  intros m.
  destruct (ai_bucket_refills_in_full 20 Sample.aliceId
              {| tokens := 0; lastRefill := 1000 |} 3601000 m) as [_ Hfull].
  - reflexivity.
  - lia.
  - cbn. lia.
  - reflexivity.
  - cbn. lia.
  - apply Hfull. cbn. unfold REFILL_INTERVAL. lia.
Defined.

(** X29.  The periodic cleanup cannot be told from the outside.  It
    drops the entries whose last refill is more than two hours old;
    such an entry would be refilled in full by the user's next
    request, which is what a user without an entry gets.  So the
    answers to any later requests of a user are the same whether or
    not the cleanup ran. *)
Theorem ai_cleanup_is_not_observable B user now times m :
  1 ≤ B →
  (∀ e, m !! userKey user = Some e → 0 ≤ tokens e) →
  Forall (λ t, now ≤ t) times →
  (requests B user times (cleanupRateLimitEntries now m)).1
  = (requests B user times m).1.
Proof.
  intros HB Hk Hts.
  destruct (JS.truthy user) eqn:Huser.
  2:{ by apply requests_unauthorized. }
  destruct (m !! userKey user) as [e|] eqn:He.
  2:{ apply requests_local. unfold cleanupRateLimitEntries.
      rewrite map_lookup_filter, He. done. }
  destruct (decide (lastRefill e < now - REFILL_INTERVAL * 2)) as [Hold|Hfresh].
  2:{ apply requests_local. unfold cleanupRateLimitEntries.
      rewrite map_lookup_filter, He. cbn. by rewrite option_guard_True. }
  assert (Hgone : cleanupRateLimitEntries now m !! userKey user = None).
  { unfold cleanupRateLimitEntries. rewrite map_lookup_filter, He. cbn.
    by rewrite option_guard_False by (intros Hn; by apply Hn). }
  destruct times as [|t ts]; [done|].
  apply Forall_cons in Hts as [Ht Hts]. cbn [requests].
  rewrite (request_first B user t _ Huser Hgone).
  rewrite (request_without_refill B user t _ {| tokens := B; lastRefill := t |} Huser)
    by (try apply lookup_insert_eq; cbn; unfold REFILL_INTERVAL; lia).
  rewrite (request_with_refill B user t m e Huser HB (Hk e eq_refl) He)
    by (unfold REFILL_INTERVAL in *; lia).
  cbn [tokens lastRefill]. rewrite bool_decide_eq_false_2 by lia.
  rewrite insert_insert_eq.
  pose proof (requests_local B user ts
                (<[userKey user := {| tokens := B - 1; lastRefill := t |}]>
                   (cleanupRateLimitEntries now m))
                (<[userKey user := {| tokens := B - 1; lastRefill := t |}]> m)) as Hlocal.
  rewrite !lookup_insert_eq in Hlocal. specialize (Hlocal eq_refl).
  destruct (requests B user ts
              (<[userKey user := {| tokens := B - 1; lastRefill := t |}]>
                 (cleanupRateLimitEntries now m))) as [r1 m1].
  destruct (requests B user ts
              (<[userKey user := {| tokens := B - 1; lastRefill := t |}]> m)) as [r2 m2].
  cbn [fst] in *. by subst.
Qed.

Lemma ai_cleanup_is_not_observable_witness :
  let m := {[ userKey Sample.aliceId := {| tokens := 0; lastRefill := 0 |} ]} in
  (requests 2 Sample.aliceId [7200001; 7200002; 7200003]
     (cleanupRateLimitEntries 7200001 m)).1
  = (requests 2 Sample.aliceId [7200001; 7200002; 7200003] m).1.
Proof.
  intros m.
  apply (ai_cleanup_is_not_observable 2 Sample.aliceId 7200001
           [7200001; 7200002; 7200003] m).
  - lia.
  - intros e He. vm_compute in He. injection He as <-. cbn. lia.
  - repeat constructor; lia.
Defined.

End BucketExtras.

(** ** Writing while MongoDB does not answer *)

Section FailClosed.
Import SocketIO WhiteboardHandlers.

(** X30.  While MongoDB does not answer, nothing is written and
    nothing is passed on.  Each of the four whiteboard writes ends at
    the access check, before the throttle is touched: the caller is
    sent one error, for a member of the room [ACCESS_CHECK_ERROR]
    rather than the error of the write, and the room is sent nothing.
    A [chat:message] is neither stored nor delivered; its sender is
    sent [chat:error]. *)
Theorem writes_fail_closed_without_mongo m socket data now w :
  mongo_up w = false →
  dispatch m socket now w
  = (socket,
     emit socket "error"
       (match userId socket with
        | None => err "AUTH_ERROR" "User not authenticated"
        | Some _ =>
            if bool_decide (mutationRoom m ∈ roomsOf (sid socket) (adapter w))
            then err "ACCESS_CHECK_ERROR" "Access validation failed"
            else err "ACCESS_DENIED" "Access denied: Not a member of this room"
        end) w)
  ∧ ChatHandler.chatMessage socket (Some data) now w
    = (socket,
       emit socket "chat:error"
         (PChatError (match user socket with
                      | None => "User not authenticated"
                      | Some _ => "Failed to send message"
                      end)) w).
Proof.
  intros Hdown. split.
  - destruct m as [d|d|d|d]; cbn [dispatch mutationRoom];
      [unfold whiteboardUpdate|unfold elementCreate|unfold elementUpdate|unfold elementDelete];
      (destruct (userId socket) as [u|]; [|done]);
      unfold checkWhiteboardAccess, findOne; rewrite Hdown;
      by case_bool_decide.
  - unfold ChatHandler.chatMessage. destruct (user socket); [|done]. by rewrite Hdown.
Qed.

Lemma writes_fail_closed_without_mongo_witness :
  let create := ElementCreate {| ed_roomId := Sample.roomR;
                                 ed_element := Sample.elementNo 0 |} in
  let w := Sample.editing 1 [] in
  let down := {| redis := redis w; planLimits := planLimits w; mongo_up := false;
                 whiteboards := whiteboards w; rooms := rooms w; users := users w;
                 messages := messages w; updateRateLimit := updateRateLimit w;
                 adapter := adapter w; outbox := outbox w |} in
  dispatch create Sample.s1 1000 down
  = (Sample.s1,
     emit Sample.s1 "error" (err "ACCESS_CHECK_ERROR" "Access validation failed") down).
Proof.
  intros create w down.
  destruct (writes_fail_closed_without_mongo create Sample.s1
              {| ChatHandler.md_roomId := Sample.roomR; ChatHandler.md_content := "hi";
                 ChatHandler.md_tempId := "t1" |} 1000 down) as [Hwrite _].
  - reflexivity.
  - rewrite Hwrite. reflexivity.
Defined.

End FailClosed.

(** ** A connection closes: the two listeners of [disconnect] *)

Section CloseFacts.
Import SocketIO.
Implicit Types (socket : Socket) (w : World) (now : Z) (u room : string).

Lemma cleanupUserPresence_up now u socketId r :
  Redis.redis_up (Presence.cleanupUserPresence now u socketId r).2 = Redis.redis_up r.
Proof.
  unfold Presence.cleanupUserPresence.
  pose proof (cleanup_loop_up now u socketId (Presence.getUserRooms now u r) r) as H.
  by destruct (Presence.cleanup_loop _ _ _ _ _) as [[] r'].
Qed.

Lemma presenceRecord_removeUserFromRoom now u room r :
  Redis.redis_up r = true →
  presenceRecord now (Presence.removeUserFromRoom now u room r) (Presence.roomKey room) u
  = None.
Proof.
  intros Hup. unfold presenceRecord.
  rewrite fieldsOf_removeUserFromRoom, Hup, bool_decide_eq_true_2 by done.
  apply lookup_delete_eq.
Qed.

(** The guard of [cleanupUserPresence]: a record that another
    connection wrote stays. *)
Lemma cleanupUserPresence_keeps_foreign now u sid key r d :
  JS.truthy sid = true →
  presenceRecord now r key u = Some d →
  upd_socketId d ≠ sid →
  presenceRecord now (Presence.cleanupUserPresence now u (Some sid) r).2 key u = Some d.
Proof.
  intros Hsid Hd Hforeign.
  destruct (cleanupUserPresence_guard now u sid r Hsid key u) as [->|(_ & d' & Hd' & Hsame & _)];
    [done|].
  rewrite Hd in Hd'. by simplify_eq.
Qed.

(** Nor does it bring one back. *)
Lemma cleanupUserPresence_keeps_absent now u sid key r :
  JS.truthy sid = true →
  presenceRecord now r key u = None →
  presenceRecord now (Presence.cleanupUserPresence now u (Some sid) r).2 key u = None.
Proof.
  intros Hsid Hd.
  by destruct (cleanupUserPresence_guard now u sid r Hsid key u)
    as [->|(_ & d' & _ & _ & Hnone)].
Qed.

(** The listener of room.handler.ts: it asks for no socket id. *)
Lemma room_disconnect_run socket u room now w :
  userId socket = Some u →
  currentRoom socket = Some room →
  JS.truthy room = true →
  let run := RoomHandlers.disconnect socket tt now w in
  run.1 = socket
  ∧ redis run.2 = Presence.removeUserFromRoom now u room (redis w)
  ∧ outbox run.2
    = outbox w
      ++ [{| target := ToRoomExcept room (sid socket); event := "user-offline";
             payload := PUserOffline u now "disconnected" |};
          userLeftNotice socket u now
            (Presence.removeUserFromRoom now u room (redis w)) room].
Proof.
  intros Hu Hroom Htruthy. unfold RoomHandlers.disconnect.
  rewrite Hu, Hroom, Htruthy. unfold userLeftNotice, broadcast. world_simpl.
  by rewrite <-app_assoc.
Qed.

(** The listener of connection.handler.ts: every room it has put
    aside is told. *)
Lemma connection_disconnect_run socket u room now w :
  userId socket = Some u →
  room ∈ ConnectionHandlers.affectedRooms socket →
  let run := ConnectionHandlers.disconnect socket tt now w in
  let r' := (Presence.cleanupUserPresence now u (Some (sid socket)) (redis w)).2 in
  run.1 = socket
  ∧ redis run.2 = r'
  ∧ ∃ before after,
      outbox run.2 = outbox w ++ before ++ [userLeftNotice socket u now r' room] ++ after.
Proof.
  intros Hu Hin run r'. subst run r'.
  destruct (disconnect_run socket u now w) as (notified & -> & Hnotified); [done|].
  assert (Hroom : room ∈ notified) by (by apply Hnotified).
  apply list_elem_of_split in Hroom as (l1 & l2 & ->).
  cbn [fst snd]. rewrite notifyRooms_redis, notifyRooms_outbox. world_simpl.
  split; [done|]. split; [done|].
  eexists _, _. by rewrite map_app.
Qed.

End CloseFacts.

Section CloseClaims.
Import SocketIO.

(** C4.  The claim: a disconnect removes a presence record only where
    the stored socket id is that of the closing connection, and the
    room is told of the departure once.  The code: when a connection
    closes, two listeners of [disconnect] run.  The one of
    connection.handler.ts keeps the guard: alone, it leaves a record
    that another connection of the identity wrote.  The one of
    room.handler.ts removes the identity's record in the connection's
    current room whatever socket id it holds, so after the close the
    record of the other connection is gone.  And each of the two sends
    [user-left] to the room: one signal, two notices.  This holds
    whichever listener comes to its end first. *)
Theorem close_removes_a_foreign_record_and_notifies_twice
    roomListenerFirst socket u room now w d :
  userId socket = Some u →
  JS.truthy (sid socket) = true →
  currentRoom socket = Some room →
  JS.truthy room = true →
  room ∈ roomsOf (sid socket) (adapter w) →
  room ≠ sid socket →
  Redis.redis_up (redis w) = true →
  presenceRecord now (redis w) (Presence.roomKey room) u = Some d →
  upd_socketId d ≠ sid socket →
  let w' := (Disconnect.close roomListenerFirst socket tt now w).2 in
  presenceRecord now (redis (ConnectionHandlers.disconnect socket tt now w).2)
    (Presence.roomKey room) u = Some d
  ∧ presenceRecord now (redis w') (Presence.roomKey room) u = None
  ∧ ∃ first between last r1 r2,
      emitted w w'
      = first ++ [userLeftNotice socket u now r1 room] ++ between
        ++ [userLeftNotice socket u now r2 room] ++ last.
Proof.
  intros Hu Hsid Hcurrent Htruthy Hin Hne Hup Hd Hforeign w'. subst w'.
  split.
  { unfold ConnectionHandlers.disconnect. rewrite Hu.
    pose proof (cleanupUserPresence_keeps_foreign now u (sid socket) (Presence.roomKey room)
                  (redis w) d Hsid Hd Hforeign) as Hkept.
    destruct (Presence.cleanupUserPresence _ _ _ _) as [cleaned r']. cbn [snd] in *.
    by rewrite notifyRooms_redis. }
  unfold Disconnect.close, ConnectionHandlers.disconnecting.
  set (aside := filter (λ r, r ≠ sid socket) (roomsOf (sid socket) (adapter w))).
  set (socket1 := with_disconnectingRooms (Some aside) socket).
  set (w2 := with_adapter _ w).
  assert (Hu1 : userId socket1 = Some u) by done.
  assert (Hcurrent1 : currentRoom socket1 = Some room) by done.
  assert (Haside : room ∈ ConnectionHandlers.affectedRooms socket1).
  { unfold ConnectionHandlers.affectedRooms. cbn. by apply list_elem_of_filter. }
  destruct roomListenerFirst.
  - destruct (room_disconnect_run socket1 u room now w2 Hu1 Hcurrent1 Htruthy)
      as (Hs3 & Hr3 & Ho3).
    destruct (RoomHandlers.disconnect socket1 tt now w2) as [socket3 w3].
    cbn [fst snd] in *. subst socket3.
    destruct (connection_disconnect_run socket1 u room now w3 Hu1 Haside)
      as (_ & Hr4 & before & after & Ho4).
    split.
    + rewrite Hr4, Hr3. apply cleanupUserPresence_keeps_absent; [done|].
      by apply presenceRecord_removeUserFromRoom.
    + eexists [_], before, after, _, _.
      apply emitted_app. rewrite Ho4, Ho3. cbn [sid socket1 with_disconnectingRooms].
      unfold userLeftNotice at 1 3. cbn [sid socket1 with_disconnectingRooms].
      by rewrite <-!app_assoc.
  - destruct (connection_disconnect_run socket1 u room now w2 Hu1 Haside)
      as (Hs3 & Hr3 & before & after & Ho3).
    destruct (ConnectionHandlers.disconnect socket1 tt now w2) as [socket3 w3].
    cbn [fst snd] in *. subst socket3.
    destruct (room_disconnect_run socket1 u room now w3 Hu1 Hcurrent1 Htruthy)
      as (_ & Hr4 & Ho4).
    split.
    + rewrite Hr4. apply presenceRecord_removeUserFromRoom.
      rewrite Hr3. by rewrite cleanupUserPresence_up.
    + eexists before, (after ++ [_]), [], _, _.
      apply emitted_app. rewrite Ho4, Ho3.
      unfold userLeftNotice at 1 3. cbn [sid socket1 with_disconnectingRooms].
      by rewrite <-!app_assoc.
Qed.

Lemma close_removes_a_foreign_record_and_notifies_twice_witness :
  let second := Sample.connection "s9" Sample.alice (Some Sample.roomR) in
  let w := Sample.withChannel Sample.roomR ["s1"; "s2"; "s9"] (Sample.editing 1 []) in
  presenceRecord 1000 (redis w) (Presence.roomKey Sample.roomR) Sample.aliceId
  = Some (Sample.present Sample.aliceId "Alice" "s1" 0)
  ∧ presenceRecord 1000 (redis (Disconnect.close false second tt 1000 w).2)
      (Presence.roomKey Sample.roomR) Sample.aliceId
    = None.
Proof.
  intros second w. split; [vm_compute; reflexivity|].
  refine (proj1 (proj2 (close_removes_a_foreign_record_and_notifies_twice false second
                          Sample.aliceId Sample.roomR 1000 w
                          (Sample.present Sample.aliceId "Alice" "s1" 0)
                          _ _ _ _ _ _ _ _ _))).
  - reflexivity.
  - reflexivity.
  - reflexivity.
  - reflexivity.
  - by_compute.
  - vm_compute. discriminate.
  - reflexivity.
  - vm_compute. reflexivity.
  - vm_compute. discriminate.
Defined.

(** The same close, in full: the record that connection [s1] wrote is
    gone, and room R is sent [user-left] for Alice twice (and
    [user-offline] once), whichever listener is first. *)
Example close_sample :
  let second := Sample.connection "s9" Sample.alice (Some Sample.roomR) in
  let w := Sample.withChannel Sample.roomR ["s1"; "s2"; "s9"] (Sample.editing 1 []) in
  ∀ roomListenerFirst,
    let w' := (Disconnect.close roomListenerFirst second tt 1000 w).2 in
    Presence.getUsersInRoom 1000 Sample.roomR (redis w')
    = [Sample.present Sample.bobId "Bob" "s2" 0]
    ∧ length (filter (λ e, event e = "user-left") (emitted w w')) = 2%nat
    ∧ Forall (λ e, target e = ToRoomExcept Sample.roomR "s9") (emitted w w').
Proof.
  intros second w []; vm_compute; (split; [done|]); (split; [done|]);
    repeat constructor.
Qed.

End CloseClaims.
